(** * Task analyzer: the scoring engine of [backend/tasks/scoring.py]

    A shallow embedding of the prioritisation core (cycle detection,
    component scorers, strategy composer, analysis orchestrator) together
    with the properties stated about it.

    Modelling conventions.
    - A task is a Python dict; the engine only ever reads the six keys
      [id], [title], [due_date], [estimated_hours], [importance] and
      [dependencies], so a task is a record of six optional fields
      ([None] = key absent).  Field values are JSON scalars ([pyval]);
      [dependencies], when present, is a list of scalars (the request layer
      in [views.py] replaces anything that is not a list by [[]]).
    - Python floats are modelled by exact rationals ([Q]): finite values,
      no rounding error, no [nan] or [inf].
    - Exceptions are explicit: every function that can raise returns a
      [res], and [try/except] is a match on it.
    - Sets are lists without duplicates in insertion order.  Python
      iterates a set in an order of its own; no statement below depends on
      the order of the titles [detect_circular_dependencies] returns.
    - The recursion of the nested [dfs] is bounded by fuel, which is proved
      sufficient; Python's own recursion limit is not modelled.
    - [date.today()], [date.fromisoformat], [float] on a string and the
      power [h ** 1.5] belong to the Python runtime; the engine is
      parameterised over them inside [Section Engine]. *)

From Stdlib Require Import List ZArith QArith Qround String Ascii Bool Lia Lqa.
From Stdlib Require Import Permutation Sorted DecimalString Relations.
Import ListNotations.

(** ** The fragment of the Python runtime the engine relies on *)

Module Py.

(** JSON scalars. *)
Inductive pyval : Type :=
| VNone
| VBool (b : bool)
| VInt (z : Z)
| VFloat (q : Q)
| VStr (s : string).

(** The exceptions the engine can meet. *)
Inductive exn : Type :=
| KeyError
| ValueError
| TypeError.

(** Outcome of a call: a value, a raised exception, or (for the
    fuel-bounded traversal only) exhausted fuel. *)
Inductive res (A : Type) : Type :=
| Ok (a : A)
| Raise (e : exn)
| NoFuel.
Arguments Ok {A} a.
Arguments Raise {A} e.
Arguments NoFuel {A}.

Definition bind {A B : Type} (m : res A) (k : A -> res B) : res B :=
  match m with
  | Ok a => k a
  | Raise e => Raise e
  | NoFuel => NoFuel
  end.

(** Numeric value of a scalar, when it is a number ([bool] is a
    subclass of [int]). *)
Definition num_of (v : pyval) : option Q :=
  match v with
  | VBool true => Some 1%Q
  | VBool false => Some 0%Q
  | VInt z => Some (inject_Z z)
  | VFloat q => Some q
  | _ => None
  end.

(** Python's [==] on scalars, which is also the equality of dict keys
    and set members: numbers compare by value across [bool], [int] and
    [float]. *)
Definition py_eqb (a b : pyval) : bool :=
  match a, b with
  | VNone, VNone => true
  | VStr s, VStr t => String.eqb s t
  | _, _ =>
      match num_of a, num_of b with
      | Some x, Some y => Qeq_bool x y
      | _, _ => false
      end
  end.

(** [x in l] for a list, and for a set kept in insertion order. *)
Definition py_in (x : pyval) (l : list pyval) : bool :=
  existsb (py_eqb x) l.

Definition set_add (x : pyval) (s : list pyval) : list pyval :=
  if py_in x s then s else s ++ [x].

Definition set_update (s xs : list pyval) : list pyval :=
  fold_left (fun acc x => set_add x acc) xs s.

(** [s.remove(x)] raises [KeyError] when [x] is not a member. *)
Definition set_remove (x : pyval) (s : list pyval) : res (list pyval) :=
  if py_in x s then Ok (filter (fun y => negb (py_eqb x y)) s)
  else Raise KeyError.

(** [l.index(x)]: position of the first equal element, [ValueError]
    when there is none. *)
Fixpoint list_index (x : pyval) (l : list pyval) : option nat :=
  match l with
  | [] => None
  | y :: l' =>
      if py_eqb y x then Some O
      else option_map S (list_index x l')
  end.

(** Dicts with scalar keys, in insertion order. *)
Definition dict (V : Type) : Type := list (pyval * V).

Fixpoint dict_get {V : Type} (d : dict V) (k : pyval) : option V :=
  match d with
  | [] => None
  | (k', v) :: d' => if py_eqb k' k then Some v else dict_get d' k
  end.

Definition dict_mem {V : Type} (k : pyval) (d : dict V) : bool :=
  match dict_get d k with Some _ => true | None => false end.

(** [d[k] = v]: an existing key keeps its place and its first key
    object, its value is replaced. *)
Fixpoint dict_set {V : Type} (d : dict V) (k : pyval) (v : V) : dict V :=
  match d with
  | [] => [(k, v)]
  | (k', v') :: d' =>
      if py_eqb k' k then (k', v) :: d' else (k', v') :: dict_set d' k v
  end.

(** [d[k]] on an optional record field: [KeyError] when absent. *)
Definition getitem {V : Type} (field : option V) : res V :=
  match field with
  | Some v => Ok v
  | None => Raise KeyError
  end.

(** [round(x, 2)] and [round(x, 1)]: round half to even on the exact
    value. *)
Definition round_half_even (q : Q) : Z :=
  let n := Qnum q in
  let d := Zpos (Qden q) in
  let f := (n / d)%Z in
  let r := (n mod d)%Z in
  match (2 * r ?= d)%Z with
  | Lt => f
  | Gt => (f + 1)%Z
  | Eq => if Z.even f then f else (f + 1)%Z
  end.

Definition round_digits (q : Q) (scale : positive) : Q :=
  Qmake (round_half_even (q * inject_Z (Zpos scale))) scale.

Definition round2 (q : Q) : Q := round_digits q 100.
Definition round1 (q : Q) : Q := round_digits q 10.

Definition Qmaxq (a b : Q) : Q := if Qle_bool b a then a else b.
Definition Qminq (a b : Q) : Q := if Qle_bool a b then a else b.

End Py.
Import Py.

Notation "x <- m ;; k" := (bind m (fun x => k))
  (at level 61, m at next level, right associativity).

(** ** Data model *)

(** A task dict, restricted to the keys the engine reads. *)
Record task : Type := mkTask {
  id : option pyval;
  title : option pyval;
  due_date : option pyval;
  estimated_hours : option pyval;
  importance : option pyval;
  dependencies : option (list pyval)
}.

(** [task.get('dependencies', [])]. *)
Definition get_dependencies (t : task) : list pyval :=
  match dependencies t with
  | Some l => l
  | None => []
  end.

(** ** Graph analyzer: [detect_circular_dependencies] *)

(** The four mutable objects the nested [dfs] closes over or receives:
    the sets [visited], [rec_stack], [circular_tasks] and the list
    [path], which every recursive call shares. *)
Record dfs_state : Type := mkState {
  visited : list pyval;
  rec_stack : list pyval;
  circular_tasks : list pyval;
  path : list pyval
}.

(** [task_map = {task['id']: task for task in tasks}]. *)
Fixpoint build_task_map (tasks : list task) (m : dict task) : res (dict task) :=
  match tasks with
  | [] => Ok m
  | t :: ts =>
      k <- getitem (id t) ;;
      build_task_map ts (dict_set m k t)
  end.

(** The [for dep_id in ...] loop of [dfs]; [rec] is the recursive call.
    It returns [true] as soon as one call does. *)
Fixpoint dfs_deps (rec : pyval -> dfs_state -> res (bool * dfs_state))
    (task_map : dict task) (deps : list pyval) (st : dfs_state)
    : res (bool * dfs_state) :=
  match deps with
  | [] => Ok (false, st)
  | dep_id :: deps' =>
      if dict_mem dep_id task_map then
        r <- rec dep_id st ;;
        (if fst r then Ok (true, snd r)
         else dfs_deps rec task_map deps' (snd r))
      else dfs_deps rec task_map deps' st
  end.

(** [dfs(task_id, path)].  The recursion is bounded by [fuel]; a task
    found in [task_map] is a non-empty dict, hence truthy. *)
Fixpoint dfs (task_map : dict task) (fuel : nat) (task_id : pyval)
    (st : dfs_state) : res (bool * dfs_state) :=
  match fuel with
  | O => NoFuel
  | S fuel' =>
      if py_in task_id (rec_stack st) then
        match list_index task_id (path st) with
        | None => Raise ValueError
        | Some cycle_start =>
            Ok (true,
                mkState (visited st) (rec_stack st)
                  (set_update (circular_tasks st) (skipn cycle_start (path st)))
                  (path st))
        end
      else if py_in task_id (visited st) then Ok (false, st)
      else
        let st1 := mkState (set_add task_id (visited st))
                     (set_add task_id (rec_stack st))
                     (circular_tasks st)
                     (path st ++ [task_id]) in
        let deps := match dict_get task_map task_id with
                    | Some t => get_dependencies t
                    | None => []
                    end in
        r <- dfs_deps (dfs task_map fuel') task_map deps st1 ;;
        (if fst r then Ok (true, snd r)
         else
           let st2 := snd r in
           rs <- set_remove task_id (rec_stack st2) ;;
           Ok (false,
               mkState (visited st2) rs (circular_tasks st2)
                 (removelast (path st2))))
  end.

(** The [for task in tasks] loop: every call gets a fresh empty [path]. *)
Fixpoint check_each (task_map : dict task) (fuel : nat) (tasks : list task)
    (st : dfs_state) : res dfs_state :=
  match tasks with
  | [] => Ok st
  | t :: ts =>
      k <- getitem (id t) ;;
      if py_in k (visited st) then check_each task_map fuel ts st
      else
        r <- dfs task_map fuel k
               (mkState (visited st) (rec_stack st) (circular_tasks st) []) ;;
        check_each task_map fuel ts (snd r)
  end.

(** The final comprehension: titles of the recorded ids. *)
Fixpoint circular_titles (task_map : dict task) (ids : list pyval)
    : res (list pyval) :=
  match ids with
  | [] => Ok []
  | k :: ks =>
      match dict_get task_map k with
      | Some t =>
          ttl <- getitem (title t) ;;
          rest <- circular_titles task_map ks ;;
          Ok (ttl :: rest)
      | None => circular_titles task_map ks
      end
  end.

Definition initial_state : dfs_state := mkState [] [] [] [].

(** The recursion depth never exceeds the number of tasks plus one, which
    is the fuel supplied (see [detect_circular_dependencies_fuel]). *)
Definition detect_circular_dependencies (tasks : list task)
    : res (list pyval) :=
  task_map <- build_task_map tasks [] ;;
  st <- check_each task_map (S (List.length tasks)) tasks initial_state ;;
  circular_titles task_map (circular_tasks st).

(** ** Examples of the cycle detector *)

Module DetectExamples.
Definition node (i : Z) (name : string) (deps : list Z) : task :=
  mkTask (Some (VInt i)) (Some (VStr name)) None None None
    (Some (map VInt deps)).

Definition chain := [node 1 "A" []; node 2 "B" [1]; node 3 "C" [2]]%Z.
Definition triangle := [node 1 "A" [3]; node 2 "B" [1]; node 3 "C" [2]]%Z.
(** A cycle 1 <-> 2 and a third task that depends on a member of it. *)
Definition cycle_then_user :=
  [node 1 "A" [2]; node 2 "B" [1]; node 3 "C" [1]]%Z.
(** 2 has a self-loop and also closes the cycle 1 -> 2 -> 1. *)
Definition nested_cycles := [node 1 "A" [2]; node 2 "B" [2; 1]]%Z.
(** Two cycles that share task 2: 1 <-> 2 and 2 <-> 3. *)
Definition overlapping_cycles :=
  [node 1 "A" [2]; node 2 "B" [1; 3]; node 3 "C" [2]]%Z.
(** Two cycles without a common task: 1 <-> 2 and 3 <-> 4. *)
Definition disjoint_cycles :=
  [node 1 "A" [2]; node 2 "B" [1]; node 3 "C" [4]; node 4 "D" [3]]%Z.
End DetectExamples.

(** ** Conversions and comparisons of the runtime used by the scorers *)

Local Open Scope string_scope.

(** [', '.join(xs)] and friends. *)
Fixpoint join (sep : string) (xs : list string) : string :=
  match xs with
  | [] => EmptyString
  | [x] => x
  | x :: xs' => x ++ sep ++ join sep xs'
  end.

(** [', '.join(xs)] when the items come from the tasks: an item that is
    not a [str] is a [TypeError]. *)
Fixpoint as_strings (xs : list pyval) : res (list string) :=
  match xs with
  | [] => Ok []
  | VStr s :: xs' => rest <- as_strings xs' ;; Ok (s :: rest)
  | _ :: _ => Raise TypeError
  end.

(** [int(q)]: truncation towards zero. *)
Definition int_of_Q (q : Q) : Z := Z.quot (Qnum q) (Zpos (Qden q)).

(** [str(n)] for an [int]. *)
Definition str_of_int (z : Z) : string :=
  NilEmpty.string_of_int (Z.to_int z).

(** [x * w] for a float [x] and a weight taken from a dict. *)
Definition mul_weight (x : Q) (w : pyval) : res Q :=
  match num_of w with
  | Some y => Ok (x * y)%Q
  | None => Raise TypeError
  end.

(** [x <= v] and [v > 0] for a float [x] and a preference value [v]. *)
Definition le_pref (x : Q) (v : pyval) : res bool :=
  match num_of v with
  | Some y => Ok (Qle_bool x y)
  | None => Raise TypeError
  end.

Definition pref_positive (v : pyval) : res bool :=
  match num_of v with
  | Some y => Ok (negb (Qle_bool y 0))
  | None => Raise TypeError
  end.

(** ** Strategy configuration and user preferences *)

(** A weight vector as a dict: a component that is absent is a
    [KeyError] when the composer reads it. *)
Record weights : Type := mkWeights {
  w_urgency : option pyval;
  w_importance : option pyval;
  w_effort : option pyval;
  w_dependency : option pyval
}.

Definition default_weights (u i e d : Q) : weights :=
  mkWeights (Some (VFloat u)) (Some (VFloat i)) (Some (VFloat e))
    (Some (VFloat d)).

(** The optional configuration: weight overrides keyed by
    ["<strategy>_weights"]. *)
Definition config : Type := list (string * weights).

Fixpoint config_get (c : config) (key : string) (default : weights) : weights :=
  match c with
  | [] => default
  | (k, w) :: c' => if String.eqb k key then w else config_get c' key default
  end.

Record preferences : Type := mkPrefs {
  available_hours : option pyval;
  energy_level : option pyval
}.

Definition no_preferences : preferences := mkPrefs None None.

(** ** Results *)

Record metadata : Type := mkMetadata {
  urgency_label : string;
  effort_label : string;
  strategy_desc : string;
  urgency_score : Q;
  effort_score : Q;
  importance_score : Q;
  dependency_boost : Q
}.

(** One row of [analyzed_tasks].  [md = None] is the empty dict [{}];
    [can_complete_today] is absent until the feasibility walk sets it. *)
Record scored_task : Type := mkScored {
  st_task : task;
  score : Q;
  reason : string;
  priority_level : string;
  md : option metadata;
  can_complete_today : option bool
}.

(** A batch-level warning.  [WScoring ttl e] stands for the text
    [Error scoring task '<ttl>': <message of e>]. *)
Inductive warning : Type :=
| WText (s : string)
| WScoring (ttl : pyval) (e : exn).

Record insights : Type := mkInsights {
  total_hours_needed : Q;
  ins_available_hours : pyval;
  tasks_completable_today : nat;
  hours_completable_today : Q;
  overdue_tasks : nat;
  urgent_tasks : nat;
  ins_energy_level : pyval;
  productivity_ratio : Q
}.

(** The dict [analyze_tasks] returns; the keys missing from the
    empty-batch result are optional. *)
Record analysis : Type := mkAnalysis {
  analyzed_tasks : list scored_task;
  strategy_used : string;
  strategy_description : option string;
  total_tasks : nat;
  circular_dependencies : option (list pyval);
  warnings : list warning;
  ins : option insights;
  user_preferences : option preferences
}.

(** ** The engine *)

Section Engine.

(** [date.today()], as a day number. *)
Variable today : Z.
(** [date.fromisoformat] on a string: the day number of the date, or
    [None] where Python raises [ValueError]. *)
Variable fromisoformat : string -> option Z.
(** [float] on a string, [None] where Python raises [ValueError]. *)
Variable float_of_str : string -> option Q.
(** [h ** 1.5] on floats. *)
Variable pow15 : Q -> Q.

(** [date.fromisoformat(v)] for an arbitrary value: anything that is
    not a string is a [TypeError]. *)
Definition parse_date (v : pyval) : res Z :=
  match v with
  | VStr s =>
      match fromisoformat s with
      | Some d => Ok d
      | None => Raise ValueError
      end
  | _ => Raise TypeError
  end.

(** [float(v)]. *)
Definition py_float (v : pyval) : res Q :=
  match v with
  | VNone => Raise TypeError
  | VStr s =>
      match float_of_str s with
      | Some q => Ok q
      | None => Raise ValueError
      end
  | VBool true => Ok 1%Q
  | VBool false => Ok 0%Q
  | VInt z => Ok (inject_Z z)
  | VFloat q => Ok q
  end.

(** *** Urgency scorer *)

Definition urgency_of_days (days_until_due : Z) (max_score : Q)
    (crisis_mode : bool) : Q * string :=
  let multiplier := if crisis_mode then 1.5%Q else 1.0%Q in
  if (days_until_due <? 0)%Z then
    let overdue_penalty :=
      (inject_Z (Z.abs days_until_due)
       * (if crisis_mode then 1.0 else 0.5))%Q in
    ((Qminq (max_score + overdue_penalty) 15.0 * multiplier)%Q, "OVERDUE")
  else if (days_until_due =? 0)%Z then
    ((max_score * multiplier)%Q, "Due Today")
  else if (days_until_due =? 1)%Z then
    ((max_score * 0.95 * multiplier)%Q, "Due Tomorrow")
  else if (days_until_due <=? 3)%Z then
    ((max_score * 0.85 * multiplier)%Q, "Due in 2-3 days")
  else if (days_until_due <=? 7)%Z then
    ((max_score * 0.65 * multiplier)%Q, "Due this week")
  else if (days_until_due <=? 14)%Z then
    ((max_score * 0.45 * multiplier)%Q, "Due in 2 weeks")
  else if (days_until_due <=? 30)%Z then
    ((max_score * 0.25 * multiplier)%Q, "Due this month")
  else
    ((max_score * 0.1)%Q, "Future task").

(** [calculate_urgency_score(due_date_str, max_score, crisis_mode)]:
    the body of the [try], and the [except (ValueError, TypeError)]. *)
Definition calculate_urgency_score (due_date_str : pyval) (max_score : Q)
    (crisis_mode : bool) : res (Q * string) :=
  match parse_date due_date_str with
  | Ok due =>
      let days_until_due := (due - today)%Z in
      Ok (urgency_of_days days_until_due max_score crisis_mode)
  | Raise ValueError | Raise TypeError => Ok (1.0%Q, "No deadline")
  | Raise e => Raise e
  | NoFuel => NoFuel
  end.

(** *** Effort scorer *)

Definition energy_modifier_of (energy : pyval) : Q :=
  if py_eqb (VStr "low") energy then 0.7%Q
  else if py_eqb (VStr "medium") energy then 1.0%Q
  else if py_eqb (VStr "high") energy then 1.3%Q
  else 1.0%Q.

Definition effort_label_of (hours : Q) : string :=
  if Qle_bool hours 0.5 then "⚡ Quick (< 30 min)"
  else if Qle_bool hours 1 then "🏃 Short (< 1 hour)"
  else if Qle_bool hours 2 then "📝 Medium (1-2 hours)"
  else if Qle_bool hours 4 then "🎯 Focused (2-4 hours)"
  else "🏋️ Deep work (4+ hours)".

(** [calculate_effort_score(estimated_hours, strategy, energy_level)]. *)
Definition calculate_effort_score (hours_in : pyval) (strategy : string)
    (energy : pyval) : res (Q * string) :=
  match py_float hours_in with
  | Ok hours =>
      if Qle_bool hours 0 then Ok (1.0%Q, "Quick task")
      else
        let energy_modifier := energy_modifier_of energy in
        let label := effort_label_of hours in
        if String.eqb strategy "fast_wins" then
          let base_score := Qmaxq (10.0 - pow15 hours) 1.0 in
          Ok ((base_score * energy_modifier)%Q, label)
        else if String.eqb strategy "high_impact" then
          Ok (Qmaxq (6.0 - hours * 0.2) 4.0, label)
        else if String.eqb strategy "deadline_driven" then
          Ok (Qmaxq (7.0 - hours * 0.3) 2.0, label)
        else
          Ok ((Qmaxq (8.0 - hours * 0.5) 1.0 * energy_modifier)%Q, label)
  | Raise ValueError | Raise TypeError => Ok (1.0%Q, "Unknown effort")
  | Raise e => Raise e
  | NoFuel => NoFuel
  end.

(** *** Dependency-leverage scorer *)

(** The counting loop of [calculate_dependency_boost]:
    [for other_task in all_tasks: if task_id in
    other_task.get('dependencies', []): dependent_count += 1]. *)
Fixpoint count_dependents (task_id : pyval) (all_tasks : list task)
    (dependent_count : nat) : nat :=
  match all_tasks with
  | [] => dependent_count
  | other_task :: rest =>
      if py_in task_id (get_dependencies other_task)
      then count_dependents task_id rest (S dependent_count)
      else count_dependents task_id rest dependent_count
  end.

Definition calculate_dependency_boost (t : task) (all_tasks : list task)
    : res Q :=
  task_id <- getitem (id t) ;;
  Ok (inject_Z (Z.of_nat (count_dependents task_id all_tasks O)) * 2.0)%Q.

(** *** Strategy composer: [score_task] *)

Definition required_fields : list string :=
  ["title"; "due_date"; "estimated_hours"; "importance"].

(** [task.get(field)] for the four required keys. *)
Definition field_of (t : task) (field : string) : option pyval :=
  if String.eqb field "title" then title t
  else if String.eqb field "due_date" then due_date t
  else if String.eqb field "estimated_hours" then estimated_hours t
  else if String.eqb field "importance" then importance t
  else None.

(** [field not in task or task[field] is None]. *)
Definition is_missing (t : task) (field : string) : bool :=
  match field_of t field with
  | None | Some VNone => true
  | Some _ => false
  end.

Definition missing_fields (t : task) : list string :=
  filter (is_missing t) required_fields.

(** The weight vector, mode description and base reason of a
    strategy. *)
Definition strategy_table (strategy : string) (cfg : config)
    : weights * string * string :=
  if String.eqb strategy "fast_wins" then
    (config_get cfg "fast_wins_weights" (default_weights 0.25 0.15 0.50 0.10),
     "⚡ Speed Mode", "Quick completion for maximum momentum")
  else if String.eqb strategy "high_impact" then
    (config_get cfg "high_impact_weights"
       (default_weights 0.15 0.55 0.10 0.20),
     "🎯 Effective Mode", "High-value task for maximum impact")
  else if String.eqb strategy "deadline_driven" then
    (config_get cfg "deadline_driven_weights"
       (default_weights 0.65 0.15 0.10 0.10),
     "🚨 Deadline Crisis Mode",
     "Urgent deadline - immediate attention required")
  else
    (config_get cfg "smart_balance_weights"
       (default_weights 0.30 0.30 0.20 0.20),
     "⚖️ Balanced Mode",
     "Balanced prioritization for optimal productivity").

(** The weighted sum, read and multiplied left to right. *)
Definition weighted_sum (w : weights) (u i e d : Q) : res Q :=
  wu <- getitem (w_urgency w) ;;
  a <- mul_weight u wu ;;
  wi <- getitem (w_importance w) ;;
  b <- mul_weight i wi ;;
  we <- getitem (w_effort w) ;;
  c <- mul_weight e we ;;
  wd <- getitem (w_dependency w) ;;
  d' <- mul_weight d wd ;;
  Ok (a + b + c + d')%Q.

(** The contextual flags appended to the reason. *)
Definition urgency_detail (u_label : string) (u : Q) : list string :=
  if String.eqb u_label "OVERDUE" then ["⚠️ OVERDUE"]
  else if String.eqb u_label "Due Today" then ["🔥 Due today"]
  else if String.eqb u_label "Due Tomorrow" then ["⏰ Due tomorrow"]
  else if negb (Qle_bool u 7) then ["📅 " ++ u_label]
  else [].

Definition importance_detail (imp : Q) : list string :=
  if Qle_bool 9 imp then ["💎 Critical importance"]
  else if Qle_bool 7 imp then ["⭐ High importance"]
  else [].

Definition effort_detail (e : Q) : list string :=
  if negb (Qle_bool e 7) then ["⚡ Quick win"] else [].

Definition dependency_detail (boost : Q) : list string :=
  if negb (Qle_bool boost 0) then
    let blocking_count := int_of_Q (boost / 2) in
    ["🔗 Blocks " ++ str_of_int blocking_count ++ " task"
     ++ (if (1 <? blocking_count)%Z then "s" else "")]
  else [].

Definition details_of (u_label : string) (u imp e boost : Q)
    : list string :=
  (urgency_detail u_label u ++ importance_detail imp
   ++ effort_detail e ++ dependency_detail boost)%list.

(** [score_task(task, strategy, config, all_tasks, user_preferences)];
    [None] for an optional argument is Python's [None]. *)
Definition score_task (t : task) (strategy : string) (cfg : option config)
    (all_tasks : option (list task)) (prefs : option preferences)
    : res (Q * string * option metadata) :=
  let cfg := match cfg with Some c => c | None => [] end in
  let all_tasks := match all_tasks with Some l => l | None => [t] end in
  let prefs := match prefs with Some p => p | None => no_preferences end in
  let energy := match energy_level prefs with
                | Some v => v
                | None => VStr "medium"
                end in
  let crisis_mode := String.eqb strategy "deadline_driven" in
  let missing := missing_fields t in
  match missing with
  | _ :: _ =>
      Ok (0.0%Q, "Missing required fields: " ++ join ", " missing, None)
  | [] =>
      due <- getitem (due_date t) ;;
      u <- calculate_urgency_score due 10.0 crisis_mode ;;
      imp <- py_float (match importance t with
                       | Some v => v
                       | None => VInt 5
                       end) ;;
      hrs <- getitem (estimated_hours t) ;;
      e <- calculate_effort_score hrs strategy energy ;;
      boost <- calculate_dependency_boost t all_tasks ;;
      let '(w, desc, base_reason) := strategy_table strategy cfg in
      raw_score <- weighted_sum w (fst u) imp (fst e) boost ;;
      let final := Qminq (Qmaxq raw_score 0) 10 in
      let details := details_of (snd u) (fst u) imp (fst e) boost in
      let full_reason :=
        match details with
        | [] => base_reason
        | _ :: _ => base_reason ++ " | " ++ join " • " details
        end in
      Ok (round2 final, full_reason,
          Some (mkMetadata (snd u) (snd e) desc (round2 (fst u))
                  (round2 (fst e)) imp (round2 boost)))
  end.

(** *** Analysis orchestrator: [analyze_tasks] *)

Definition priority_of (sc : Q) : string :=
  if Qle_bool 9 sc then "Critical"
  else if Qle_bool 7 sc then "High"
  else if Qle_bool 5 sc then "Medium"
  else "Low".

(** [float(task.get('estimated_hours', 0))]. *)
Definition task_hours (t : task) : res Q :=
  py_float (match estimated_hours t with
            | Some v => v
            | None => VInt 0
            end).

(** The body of the [try] for one task: its row and its hours. *)
Definition try_score (all_tasks : list task) (strategy : string)
    (cfg : option config) (prefs : preferences) (t : task)
    : res (scored_task * Q) :=
  r <- score_task t strategy cfg (Some all_tasks) (Some prefs) ;;
  let '(sc, rsn, m) := r in
  h <- task_hours t ;;
  Ok (mkScored t sc rsn (priority_of sc) m None, h).

(** The accumulators of the scoring loop. *)
Record scoring_acc : Type := mkAcc {
  scored_tasks : list scored_task;
  total_hours : Q;
  acc_warnings : list warning
}.

(** [for task in tasks: try: ... except Exception as e: ...]. *)
Fixpoint score_all (all_tasks : list task) (strategy : string)
    (cfg : option config) (prefs : preferences) (tasks : list task)
    (acc : scoring_acc) : res scoring_acc :=
  match tasks with
  | [] => Ok acc
  | t :: ts =>
      match try_score all_tasks strategy cfg prefs t with
      | Ok (row, h) =>
          score_all all_tasks strategy cfg prefs ts
            (mkAcc (scored_tasks acc ++ [row])%list
               (total_hours acc + h)%Q (acc_warnings acc))
      | Raise e =>
          let ttl := match title t with
                     | Some v => v
                     | None => VStr "Unknown"
                     end in
          score_all all_tasks strategy cfg prefs ts
            (mkAcc (scored_tasks acc) (total_hours acc)
               (acc_warnings acc ++ [WScoring ttl e])%list)
      | NoFuel => NoFuel
      end
  end.

(** [scored_tasks.sort(key=lambda x: x['score'], reverse=True)]: the
    stable descending sort, as an insertion sort that lets a row pass
    only rows of strictly greater score. *)
Fixpoint insert_by_score (x : scored_task) (l : list scored_task)
    : list scored_task :=
  match l with
  | [] => [x]
  | y :: l' =>
      if Qle_bool (score y) (score x) then x :: y :: l'
      else y :: insert_by_score x l'
  end.

Definition sort_by_score (l : list scored_task) : list scored_task :=
  fold_right insert_by_score [] l.

Definition set_can_complete (b : bool) (st : scored_task) : scored_task :=
  mkScored (st_task st) (score st) (reason st) (priority_level st) (md st)
    (Some b).

(** The feasibility walk over the sorted rows: the flagged rows, the
    final [cumulative_hours] and [tasks_today]. *)
Fixpoint feasibility_walk (available : pyval) (sts : list scored_task)
    (cumulative_hours : Q) (tasks_today : nat)
    : res (list scored_task * Q * nat) :=
  match sts with
  | [] => Ok ([], cumulative_hours, tasks_today)
  | st :: rest =>
      h <- task_hours (st_task st) ;;
      fits <- le_pref (cumulative_hours + h) available ;;
      if (fits : bool) then
        r <- feasibility_walk available rest (cumulative_hours + h)%Q
               (S tasks_today) ;;
        let '(rows, c, n) := r in
        Ok (set_can_complete true st :: rows, c, n)
      else
        r <- feasibility_walk available rest cumulative_hours tasks_today ;;
        let '(rows, c, n) := r in
        Ok (set_can_complete false st :: rows, c, n)
  end.

(** [sum(1 for t in tasks if
    date.fromisoformat(t.get('due_date', str(today))) < today)]; the
    default [str(today)] parses back to [today]. *)
Fixpoint overdue_count (tasks : list task) : res nat :=
  match tasks with
  | [] => Ok O
  | t :: ts =>
      d <- match due_date t with
           | Some v => parse_date v
           | None => Ok today
           end ;;
      n <- overdue_count ts ;;
      Ok (if (d <? today)%Z then S n else n)
  end.

Definition urgent_count (sts : list scored_task) : nat :=
  List.length (filter (fun st => Qle_bool 7 (score st)) sts).

Definition strategy_description_of (strategy : string) : string :=
  if String.eqb strategy "fast_wins" then
    "Optimized for quick completions to build momentum"
  else if String.eqb strategy "high_impact" then
    "Focused on high-value tasks for maximum impact"
  else if String.eqb strategy "deadline_driven" then
    "Prioritized by deadline urgency to prevent overdue tasks"
  else if String.eqb strategy "smart_balance" then
    "Balanced approach considering urgency, importance, and effort"
  else "Custom strategy".

(** [round(cumulative_hours / available_hours * 100, 1)
    if available_hours > 0 else 0]. *)
Definition productivity_of (cumulative_hours : Q) (available : pyval)
    : res Q :=
  pos <- pref_positive available ;;
  if (pos : bool) then
    match num_of available with
    | Some a => Ok (round1 (cumulative_hours / a * 100))
    | None => Raise TypeError
    end
  else Ok 0%Q.

(** [analyze_tasks(tasks, strategy, config, user_preferences)]. *)
Definition analyze_tasks (tasks : list task) (strategy : string)
    (cfg : option config) (prefs : option preferences) : res analysis :=
  let prefs := match prefs with Some p => p | None => no_preferences end in
  match tasks with
  | [] =>
      Ok (mkAnalysis [] strategy None O None
            [WText "No tasks provided for analysis"] None None)
  | _ :: _ =>
      circular_deps <- detect_circular_dependencies tasks ;;
      warnings0 <-
        match circular_deps with
        | [] => Ok []
        | _ :: _ =>
            names <- as_strings circular_deps ;;
            Ok [WText ("Circular dependencies detected in: "
                       ++ join ", " names)]
        end ;;
      let available := match available_hours prefs with
                       | Some v => v
                       | None => VInt 8
                       end in
      let energy := match energy_level prefs with
                    | Some v => v
                    | None => VStr "medium"
                    end in
      acc <- score_all tasks strategy cfg prefs tasks
               (mkAcc [] 0 warnings0) ;;
      let sorted := sort_by_score (scored_tasks acc) in
      walked <- feasibility_walk available sorted 0 O ;;
      let '(rows, cumulative_hours, tasks_today) := walked in
      overdue <- overdue_count tasks ;;
      let urgent := urgent_count rows in
      ratio <- productivity_of cumulative_hours available ;;
      Ok (mkAnalysis rows strategy
            (Some (strategy_description_of strategy))
            (List.length rows) (Some circular_deps) (acc_warnings acc)
            (Some (mkInsights (round1 (total_hours acc)) available
                     tasks_today (round1 cumulative_hours) overdue urgent
                     energy ratio))
            (Some prefs))
  end.


End Engine.

(** ** A reference runtime

    Concrete instances of the runtime parameters, used to run the engine
    on concrete batches.  The theorems below hold for every instance. *)

Module Runtime.

Definition digit_of (c : ascii) : option Z :=
  let n := Z.of_nat (nat_of_ascii c) in
  if ((48 <=? n) && (n <=? 57))%Z then Some (n - 48)%Z else None.

(** Value of a string of decimal digits, most significant first. *)
Fixpoint digits_value (s : string) (acc : Z) : option Z :=
  match s with
  | EmptyString => Some acc
  | String c s' =>
      match digit_of c with
      | Some d => digits_value s' (10 * acc + d)%Z
      | None => None
      end
  end.

Definition number_of (s : string) : option Z :=
  match s with
  | EmptyString => None
  | _ => digits_value s 0
  end.

Definition is_leap (y : Z) : bool :=
  ((y mod 4 =? 0) && (negb (y mod 100 =? 0) || (y mod 400 =? 0)))%Z.

Definition days_in_month (y m : Z) : Z :=
  if (m =? 2)%Z then (if is_leap y then 29 else 28)%Z
  else if ((m =? 4) || (m =? 6) || (m =? 9) || (m =? 11))%Z then 30%Z
  else 31%Z.

(** Days of year [y] before the first of month [m]. *)
Fixpoint days_before_month (y : Z) (m : nat) : Z :=
  match m with
  | O => 0%Z
  | S m' =>
      match m' with
      | O => 0%Z
      | S _ => (days_before_month y m' + days_in_month y (Z.of_nat m'))%Z
      end
  end.

(** [date(y, m, d).toordinal()]. *)
Definition ordinal (y m d : Z) : Z :=
  let y1 := (y - 1)%Z in
  (y1 * 365 + y1 / 4 - y1 / 100 + y1 / 400
   + days_before_month y (Z.to_nat m) + d)%Z.

(** [date.fromisoformat] on the [YYYY-MM-DD] form. *)
Definition fromisoformat (s : string) : option Z :=
  if (String.length s =? 10)%nat
     && String.eqb (substring 4 1 s) "-"
     && String.eqb (substring 7 1 s) "-"
  then
    match number_of (substring 0 4 s), number_of (substring 5 2 s),
          number_of (substring 8 2 s) with
    | Some y, Some m, Some d =>
        if ((1 <=? y) && (1 <=? m) && (m <=? 12) && (1 <=? d)
            && (d <=? days_in_month y m))%Z
        then Some (ordinal y m d)
        else None
    | _, _, _ => None
    end
  else None.

(** [float] on a plain decimal literal: an optional sign, digits and an
    optional fractional part. *)
Fixpoint split_dot (s : string) : string * option string :=
  match s with
  | EmptyString => (EmptyString, None)
  | String c s' =>
      if Ascii.eqb c "."%char then (EmptyString, Some s')
      else let '(a, b) := split_dot s' in (String c a, b)
  end.

Definition unsigned_decimal (s : string) : option Q :=
  match split_dot s with
  | (ip, None) => option_map inject_Z (number_of ip)
  | (ip, Some fp) =>
      match number_of ip, number_of fp with
      | Some i, Some f =>
          Some (inject_Z i
                + Qmake f (Pos.pow 10 (Pos.of_nat (String.length fp))))%Q
      | _, _ => None
      end
  end.

Definition float_of_str (s : string) : option Q :=
  match s with
  | String "-"%char s' => option_map Qopp (unsigned_decimal s')
  | String "+"%char s' => unsigned_decimal s'
  | _ => unsigned_decimal s
  end.

(** [h ** 1.5] to ten decimal places. *)
Definition pow15 (h : Q) : Q :=
  let n := Qnum h in
  let d := Zpos (Qden h) in
  let root := Z.sqrt (n * d * 10 ^ 20) in
  (h * Qmake root (Z.to_pos (d * 10 ^ 10)))%Q.

(** The day the examples are evaluated on: 2025-06-15. *)
Definition today : Z := ordinal 2025 6 15.

End Runtime.

(** ** Notions used in the statements *)

(** The key is not in the dict, or its value is [None]. *)
Definition absent_or_null (field : option pyval) : Prop :=
  field = None \/ field = Some VNone.

(** The multiplier and the penalty per overdue day of the urgency
    scorer. *)
Definition crisis_multiplier (crisis_mode : bool) : Q :=
  if crisis_mode then 1.5%Q else 1.0%Q.

Definition overdue_rate (crisis_mode : bool) : Q :=
  if crisis_mode then 1.0%Q else 0.5%Q.

(** [lists_id task_id other]: [other]'s dependency list contains
    [task_id]. *)
Definition lists_id (task_id : pyval) (other : task) : bool :=
  py_in task_id (get_dependencies other).

(** The number of tasks of [l] whose dependency list contains
    [task_id]. *)
Definition dependents_in (task_id : pyval) (l : list task) : nat :=
  List.length (filter (lists_id task_id) l).

Module BoostExamples.
Definition self_dependent : task :=
  mkTask (Some (VInt 1)) (Some (VStr "A")) None None None (Some [VInt 1]).
Definition hub : task :=
  mkTask (Some (VInt 1)) (Some (VStr "hub")) None None None (Some []).
Definition spoke (i : Z) : task :=
  mkTask (Some (VInt i)) (Some (VStr "spoke")) None None None (Some [VInt 1]).
End BoostExamples.

(** [subsequence l1 l2]: [l1] is [l2] with some elements left out, the
    others in the same order. *)
Inductive subsequence {A : Type} : list A -> list A -> Prop :=
| subsequence_nil : subsequence [] []
| subsequence_skip (x : A) (l1 l2 : list A) :
    subsequence l1 l2 -> subsequence l1 (x :: l2)
| subsequence_take (x : A) (l1 l2 : list A) :
    subsequence l1 l2 -> subsequence (x :: l1) (x :: l2).



(** The preference [available_hours], 8 by default. *)
Definition available_of (prefs : option preferences) : pyval :=
  match prefs with
  | Some (mkPrefs (Some v) _) => v
  | _ => VInt 8
  end.

(** The task the dict holds for [d] once [tasks] are inserted: the last
    one whose id equals [d]. *)
Fixpoint last_with_id (d : pyval) (tasks : list task) (found : option task)
    : option task :=
  match tasks with
  | [] => found
  | t :: ts =>
      last_with_id d ts
        match id t with
        | Some k => if py_eqb k d then Some t else found
        | None => found
        end
  end.

(** [in_batch d tasks]: some task of the batch has the id [d]. *)
Definition in_batch (d : pyval) (tasks : list task) : bool :=
  existsb (fun t => match id t with
                    | Some k => py_eqb k d
                    | None => false
                    end) tasks.



(** Number of keys of the task map that are not yet in [vis]. *)
Definition unvisited (tm : dict task) (vis : list pyval) : nat :=
  List.length (filter (fun k => negb (py_in k vis)) (map fst tm)).

(** Every member of [v] is a member of [v']. *)
Definition visited_le (v v' : list pyval) : Prop :=
  forall x, py_in x v = true -> py_in x v' = true.

(** A call with enough fuel terminates, and only adds to [visited]. *)
Definition terminates (st : dfs_state) (r : res (bool * dfs_state)) : Prop :=
  match r with
  | Ok r' => visited_le (visited st) (visited (snd r'))
  | Raise _ => True
  | NoFuel => False
  end.

(** Both tasks have an id, and the two ids are equal. *)
Definition id_eqb (t1 t2 : task) : bool :=
  match id t1, id t2 with
  | Some a, Some b => py_eqb a b
  | _, _ => false
  end.

(** Every task has an id, and no two tasks share one. *)
Fixpoint unique_ids (tasks : list task) : Prop :=
  match tasks with
  | [] => True
  | t :: ts =>
      id t <> None
      /\ (forall t', In t' ts -> id_eqb t t' = false)
      /\ unique_ids ts
  end.


(** [depends_on tasks u v]: the batch has a task with id [u] whose
    dependency list contains [v], and [v] is the id of a task of the
    batch. *)
Definition depends_on (tasks : list task) (u v : pyval) : Prop :=
  (exists t, In t tasks /\ id t = Some u /\ py_in v (get_dependencies t) = true)
  /\ in_batch v tasks = true.

(** [on_cycle tasks u]: [u] reaches itself along dependency edges. *)
Definition on_cycle (tasks : list task) (u : pyval) : Prop :=
  clos_trans pyval (depends_on tasks) u u.

Module AnalysisExamples.
Definition item (i : Z) (name due : string) (hours : Q) (imp : Z)
    (deps : list Z) : task :=
  mkTask (Some (VInt i)) (Some (VStr name)) (Some (VStr due))
    (Some (VFloat hours)) (Some (VInt imp)) (Some (map VInt deps)).

(** A well-formed task, except that its due date does not parse. *)
Definition bad_date : task := item 1 "Write report" "not-a-date" 2 5 [].

(** A task whose due date is null. *)
Definition null_date : task :=
  mkTask (Some (VInt 1)) (Some (VStr "Write report")) (Some VNone)
    (Some (VFloat 2)) (Some (VInt 5)) (Some []).


Definition five_hours : preferences := mkPrefs (Some (VInt 5)) None.
End AnalysisExamples.

(** [hours_known row]: the duration of the row's task converts. *)
Definition hours_known (float_of_str : string -> option Q)
    (row : scored_task) : Prop :=
  exists h, task_hours float_of_str (st_task row) = Ok h.

(** ** Notions used in the further properties *)

(** The configuration key [score_task] reads for a strategy. *)
Definition weights_key (strategy : string) : string :=
  if String.eqb strategy "fast_wins" then "fast_wins_weights"
  else if String.eqb strategy "high_impact" then "high_impact_weights"
  else if String.eqb strategy "deadline_driven" then "deadline_driven_weights"
  else "smart_balance_weights".

(** [WScoring] warnings, as opposed to the texts about the batch. *)
Definition is_scoring_warning (w : warning) : bool :=
  match w with
  | WScoring _ _ => true
  | WText _ => false
  end.

(** The row is marked completable today. *)
Definition is_completable (row : scored_task) : bool :=
  match can_complete_today row with
  | Some true => true
  | _ => false
  end.

(** The preferences [analyze_tasks] works with. *)
Definition prefs_of (prefs : option preferences) : preferences :=
  match prefs with
  | Some p => p
  | None => no_preferences
  end.

(** The scoring of [t] inside [analyze_tasks] succeeds. *)
Definition scorable (today : Z) (fromisoformat : string -> option Z)
    (float_of_str : string -> option Q) (pow15 : Q -> Q)
    (all_tasks : list task) (strategy : string)
    (cfg : option config) (p : preferences) (t : task) : bool :=
  match try_score today fromisoformat float_of_str pow15 all_tasks strategy
          cfg p t with
  | Ok _ => true
  | _ => false
  end.

(** The row carries what [score_task] returns for its task. *)
Definition row_reports (today : Z) (fromisoformat : string -> option Z)
    (float_of_str : string -> option Q) (pow15 : Q -> Q)
    (all_tasks : list task) (strategy : string)
    (cfg : option config) (p : preferences) (row : scored_task) : Prop :=
  score_task today fromisoformat float_of_str pow15 (st_task row) strategy
    cfg (Some all_tasks) (Some p)
  = Ok (score row, reason row, md row)
  /\ priority_level row = priority_of (score row).

(** The urgency scorer labels the task's due date "OVERDUE". *)
Definition labelled_overdue (today : Z) (fromisoformat : string -> option Z)
    (t : task) : bool :=
  match due_date t with
  | Some v =>
      match calculate_urgency_score today fromisoformat v 10.0 false with
      | Ok (_, label) => String.eqb label "OVERDUE"
      | _ => false
      end
  | None => false
  end.

(** The row's priority tier is "Critical" or "High". *)
Definition is_urgent_tier (row : scored_task) : bool :=
  String.eqb (priority_level row) "Critical"
  || String.eqb (priority_level row) "High".

Module ScoreExamples.
(** A complete, overdue task. *)
Definition invoice : task :=
  AnalysisExamples.item 1 "Pay invoice" "2025-06-10" 2 9 [].

(** Overrides for one strategy only. *)
Definition speed_only : config :=
  [("fast_wins_weights", default_weights 0.4 0.1 0.4 0.1)].

Definition low_energy : preferences := mkPrefs None (Some (VStr "low")).
End ScoreExamples.

Module ReportExamples.
(** An overdue task, a task whose importance is not a number, and two
    tasks due later; the second cannot be scored. *)
Definition mixed : list task :=
  [AnalysisExamples.item 1 "Pay invoice" "2025-06-10" 2 9 [];
   mkTask (Some (VInt 2)) (Some (VStr "Plan trip")) (Some (VStr "2025-06-20"))
     (Some (VFloat 1)) (Some (VStr "high")) (Some []);
   AnalysisExamples.item 3 "Write report" "2025-06-16" 5 6 [1%Z];
   AnalysisExamples.item 4 "Read book" "2025-08-01" 4 3 []].
End ReportExamples.

(** *** The dependency graph the traversal walks *)

(** [edge tm u v]: the entry of [u] in the task map lists [v], and [v]
    has an entry. *)
Definition edge (tm : dict task) (u v : pyval) : Prop :=
  exists t, dict_get tm u = Some t
            /\ py_in v (get_dependencies t) = true
            /\ dict_mem v tm = true.

(** [u] reaches [v] along one or more edges. *)
Definition reach (tm : dict task) : pyval -> pyval -> Prop :=
  clos_trans pyval (edge tm).

(** [linked tm l]: every element of [l] has an edge to the next one. *)
Fixpoint linked (tm : dict task) (l : list pyval) : Prop :=
  match l with
  | [] => True
  | x :: l' =>
      match l' with
      | [] => True
      | y :: _ => edge tm x y
      end /\ linked tm l'
  end.

(** Every member of [c] lies on a cycle, and has an entry. *)
Definition sound (tm : dict task) (c : list pyval) : Prop :=
  forall x, py_in x c = true -> reach tm x x /\ dict_mem x tm = true.

(** The same edges, read off the batch: the task map holds for an id
    the last task that carries it. *)
Definition task_map_edge (tasks : list task) (u v : pyval) : Prop :=
  exists t, last_with_id u tasks None = Some t
            /\ py_in v (get_dependencies t) = true
            /\ in_batch v tasks = true.

(** [u] reaches itself along the edges of the task map. *)
Definition on_task_map_cycle (tasks : list task) (u : pyval) : Prop :=
  clos_trans pyval (task_map_edge tasks) u u.

(** What a call of [dfs] from [st] may do to [path] and
    [circular_tasks]. *)
Definition sound_post (tm : dict task) (st : dfs_state)
    (r : res (bool * dfs_state)) : Prop :=
  match r with
  | Ok (false, st') =>
      path st' = path st /\ circular_tasks st' = circular_tasks st
  | Ok (true, st') =>
      sound tm (circular_tasks st') /\ circular_tasks st' <> []
  | _ => True
  end.

(** [x] has an entry in the task map. *)
Definition has_entry (tm : dict task) (x : pyval) : Prop :=
  dict_mem x tm = true.

(** What holds when [dfs k] is called from [st]: [path] followed by [k]
    is a chain of edges between ids of the map, and the ids recorded so
    far lie on cycles. *)
Definition sound_pre (tm : dict task) (st : dfs_state) (k : pyval) : Prop :=
  linked tm (path st ++ [k]) /\ Forall (has_entry tm) (path st ++ [k])
  /\ sound tm (circular_tasks st).

(** [rec_stack] holds exactly the ids of [path]: no call has returned
    [True] so far. *)
Definition clean (st : dfs_state) : Prop :=
  forall x, py_in x (rec_stack st) = py_in x (path st).

(** [x] is visited and no longer on the stack. *)
Definition finished (st : dfs_state) (x : pyval) : Prop :=
  py_in x (visited st) = true /\ py_in x (rec_stack st) = false.

(** No finished id lies on a cycle. *)
Definition black (tm : dict task) (st : dfs_state) : Prop :=
  forall x, finished st x -> ~ reach tm x x.

(** What a call of [dfs k] from a clean state does. *)
Definition clean_post (tm : dict task) (st : dfs_state) (k : pyval)
    (r : res (bool * dfs_state)) : Prop :=
  match r with
  | Ok (false, st') =>
      rec_stack st' = rec_stack st /\ path st' = path st
      /\ visited_le (visited st) (visited st')
      /\ black tm st' /\ finished st' k
  | Ok (true, _) => True
  | Raise _ => False
  | NoFuel => True
  end.

(** What the loop over [deps] does from a clean state. *)
Definition clean_loop_post (tm : dict task) (st : dfs_state)
    (deps : list pyval) (r : res (bool * dfs_state)) : Prop :=
  match r with
  | Ok (false, st') =>
      rec_stack st' = rec_stack st /\ path st' = path st
      /\ visited_le (visited st) (visited st')
      /\ black tm st'
      /\ forall d, In d deps -> dict_mem d tm = true -> finished st' d
  | Ok (true, _) => True
  | Raise _ => False
  | NoFuel => True
  end.

(** ** The request layer of [backend/tasks/views.py] *)

Module Views.

(** [task_dict['dependencies'] = deps]. *)
Definition with_dependencies (t : task) (deps : list pyval) : task :=
  mkTask (id t) (title t) (due_date t) (estimated_hours t) (importance t)
    (Some deps).

Section Suggest.

(** [str.isdigit] and [int] on a string ([None] is a [ValueError]). *)
Variable isdigit : string -> bool.
Variable int_of_str : string -> option Z.

(** [int(dep) if isinstance(dep, str) and dep.isdigit() else dep]. *)
Definition convert_dep (dep : pyval) : res pyval :=
  match dep with
  | VStr s =>
      if isdigit s then
        match int_of_str s with
        | Some n => Ok (VInt n)
        | None => Raise ValueError
        end
      else Ok dep
  | _ => Ok dep
  end.

Fixpoint convert_deps (deps : list pyval) : res (list pyval) :=
  match deps with
  | [] => Ok []
  | dep :: rest =>
      d <- convert_dep dep ;;
      ds <- convert_deps rest ;;
      Ok (d :: ds)
  end.

(** The body of the loop of [SuggestTasksView.post] that prepares one
    task: a non-empty list of dependencies is converted, anything else
    becomes the empty list. *)
Definition suggest_task_dict (t : task) : res task :=
  match dependencies t with
  | Some (dep :: rest) =>
      deps <- convert_deps (dep :: rest) ;;
      Ok (with_dependencies t deps)
  | _ => Ok (with_dependencies t [])
  end.

Fixpoint suggest_task_dicts (tasks_data : list task) : res (list task) :=
  match tasks_data with
  | [] => Ok []
  | task_data :: rest =>
      d <- suggest_task_dict task_data ;;
      ds <- suggest_task_dicts rest ;;
      Ok (d :: ds)
  end.

End Suggest.

(** [str.isdigit] on ASCII text. *)
Definition ascii_isdigit (s : string) : bool :=
  match Runtime.number_of s with
  | Some _ => true
  | None => false
  end.

(** Two tasks that depend on each other, ids and dependencies given as
    strings. *)
Definition string_ids : list task :=
  [mkTask (Some (VStr "1")) (Some (VStr "A")) None None None
     (Some [VStr "2"]);
   mkTask (Some (VStr "2")) (Some (VStr "B")) None None None
     (Some [VStr "1"])].

End Views.

(** The id is a string. *)
Definition string_id (t : task) : Prop := exists s, id t = Some (VStr s).

(** Every dependency is an int. *)
Definition int_dependencies (t : task) : Prop :=
  Forall (fun d => exists n, d = VInt n) (get_dependencies t).

(** ** The CORS middleware of [backend/task_analyzer/cors_middleware.py] *)

Module Cors.

(** ASCII lower case, as Django folds header names. *)
Definition lower_ascii (c : ascii) : ascii :=
  let n := nat_of_ascii c in
  if (65 <=? n)%nat && (n <=? 90)%nat then ascii_of_nat (n + 32) else c.

Fixpoint lower (s : string) : string :=
  match s with
  | EmptyString => EmptyString
  | String c s' => String (lower_ascii c) (lower s')
  end.

(** What the middleware and the view read of a request: the method,
    [META['HTTP_ORIGIN']] when the key is there, and the rest. *)
Record request := mkRequest {
  method : string;
  http_origin : option string;
  path_info : string;
  body : string
}.

(** A response: the status, the headers and the content.  The headers
    are Django's case-insensitive mapping: one entry per lower-cased
    name, holding the name as last written and the value, in the order
    of first insertion. *)
Record response := mkResponse {
  status_code : Z;
  headers : list (string * (string * string));
  content : string
}.

Fixpoint store_set (k : string) (e : string * string)
    (h : list (string * (string * string)))
    : list (string * (string * string)) :=
  match h with
  | [] => [(k, e)]
  | (k', e') :: h' =>
      if String.eqb k' k then (k, e) :: h' else (k', e') :: store_set k e h'
  end.

Fixpoint store_get (k : string) (h : list (string * (string * string)))
    : option (string * string) :=
  match h with
  | [] => None
  | (k', e) :: h' => if String.eqb k' k then Some e else store_get k h'
  end.

(** [response[name] = value]. *)
Definition set_header (resp : response) (name value : string) : response :=
  mkResponse (status_code resp)
    (store_set (lower name) (name, value) (headers resp))
    (content resp).

(** [response.get(name)]. *)
Definition header (resp : response) (name : string) : option string :=
  match store_get (lower name) (headers resp) with
  | Some (_, v) => Some v
  | None => None
  end.

(** [response.status_code = code]. *)
Definition set_status (resp : response) (code : Z) : response :=
  mkResponse code (headers resp) (content resp).

(** The middleware object: the wrapped handler and the list
    [allowed_origins] that [__init__] stores. *)
Record middleware := mkMiddleware {
  get_response : request -> response;
  allowed_origins : list string
}.

Definition init (handler : request -> response) : middleware :=
  mkMiddleware handler
    ["http://localhost:3000"; "http://127.0.0.1:3000";
     "http://localhost:8080"; "http://127.0.0.1:8080";
     "http://localhost:8000"; "http://127.0.0.1:8000"].

Definition allow_methods : string :=
  "GET, POST, PUT, PATCH, DELETE, OPTIONS".

Definition allow_headers : string :=
  "Accept, Accept-Encoding, Authorization, Content-Type, DNT, "
  ++ "Origin, User-Agent, X-CSRFToken, X-Requested-With".

(** The five header names [_add_cors_headers] writes. *)
Definition cors_names : list string :=
  ["Access-Control-Allow-Origin"; "Access-Control-Allow-Methods";
   "Access-Control-Allow-Headers"; "Access-Control-Allow-Credentials";
   "Access-Control-Max-Age"].

Section Middleware.

(** [HttpResponse()], the empty response of the framework. *)
Variable HttpResponse : response.

Definition _add_cors_headers (self : middleware) (req : request)
    (resp : response) : response :=
  let origin := match http_origin req with
                | Some o => o
                | None => ""
                end in
  let resp :=
    if String.eqb origin ""
    then set_header resp "Access-Control-Allow-Origin" "*"
    else set_header resp "Access-Control-Allow-Origin" origin in
  let resp := set_header resp "Access-Control-Allow-Methods" allow_methods in
  let resp := set_header resp "Access-Control-Allow-Headers" allow_headers in
  let resp := set_header resp "Access-Control-Allow-Credentials" "true" in
  set_header resp "Access-Control-Max-Age" "86400".

Definition _create_preflight_response (self : middleware) (req : request)
    : response :=
  _add_cors_headers self req (set_status HttpResponse 200).

Definition __call__ (self : middleware) (req : request) : response :=
  if String.eqb (method req) "OPTIONS"
  then _create_preflight_response self req
  else _add_cors_headers self req (get_response self req).

End Middleware.

(** An origin that [allowed_origins] does not list, and a handler that
    sets a header of its own. *)
Definition foreign_request : request :=
  mkRequest "POST" (Some "https://elsewhere.example") "/api/tasks/analyze/"
    "{}".

Definition json_handler (req : request) : response :=
  mkResponse 200
    [("content-type", ("Content-Type", "application/json"));
     ("access-control-allow-origin",
      ("access-control-allow-origin", "http://localhost:3000"))]
    (body req).

Definition empty_response : response :=
  mkResponse 200
    [("content-type", ("Content-Type", "text/html; charset=utf-8"))] "".

End Cors.

(** ** The stored tasks of [backend/tasks/models.py] *)

Module Models.

(** A Python set of stored tasks.  Two [Task] objects are equal when
    their primary keys are, so a task is its key. *)
Definition mem (x : Z) (s : list Z) : bool := existsb (Z.eqb x) s.

Definition add (x : Z) (s : list Z) : list Z :=
  if mem x s then s else (s ++ [x])%list.

(** The two sets of [get_all_dependencies]. *)
Record deps_state := mkDeps {
  visited : list Z;
  dependencies : list Z
}.

Section Store.

(** [task.dependencies.all()]: the keys the many-to-many table holds
    for a task. *)
Variable dependencies_all : Z -> list Z.

(** The loop [for dep in task.dependencies.all()]; [None] is a
    [RecursionError]. *)
Fixpoint get_deps_loop (rec : Z -> deps_state -> option deps_state)
    (deps : list Z) (st : deps_state) : option deps_state :=
  match deps with
  | [] => Some st
  | dep :: rest =>
      match rec dep (mkDeps (visited st) (add dep (dependencies st))) with
      | Some st' => get_deps_loop rec rest st'
      | None => None
      end
  end.

(** The nested [_get_deps]; [depth] is the number of nested calls the
    interpreter still allows. *)
Fixpoint _get_deps (depth : nat) (task : Z) (st : deps_state)
    : option deps_state :=
  match depth with
  | O => None
  | S depth' =>
      if mem task (visited st) then Some st
      else get_deps_loop (_get_deps depth') (dependencies_all task)
             (mkDeps (add task (visited st)) (dependencies st))
  end.

Definition get_all_dependencies (limit : nat) (self : Z) : option (list Z) :=
  match _get_deps limit self (mkDeps [] []) with
  | Some st => Some (dependencies st)
  | None => None
  end.

Definition has_circular_dependency (limit : nat) (self : Z) : bool :=
  match get_all_dependencies limit self with
  | Some all_deps => mem self all_deps
  | None => true
  end.

(** [x] depends on [y] directly. *)
Definition depends (x y : Z) : Prop := In y (dependencies_all x).

(** [x] depends on [y] through one or more steps. *)
Definition needs : Z -> Z -> Prop := clos_trans Z depends.

(** The keys of [universe] that are not in [vis]. *)
Definition unvisited (universe vis : list Z) : nat :=
  List.length (filter (fun x => negb (mem x vis)) universe).

(** [universe] holds the dependencies of each of its tasks. *)
Definition closed (universe : list Z) : Prop :=
  forall x y, In x universe -> depends x y -> In y universe.

(** What a call adds: every task first visited by it has all its
    dependencies recorded and visited. *)
Definition saturated (st st' : deps_state) : Prop :=
  incl (visited st) (visited st')
  /\ incl (dependencies st) (dependencies st')
  /\ forall x, In x (visited st') -> ~ In x (visited st) ->
       forall y, depends x y ->
         In y (dependencies st') /\ In y (visited st').

End Store.

(** A chain [0 <- 1 <- ... <- n]: task [k] depends on [k - 1]. *)
Definition chain (x : Z) : list Z :=
  if (0 <? x)%Z then [(x - 1)%Z] else [].

(** Two tasks that depend on each other, and a third that depends on
    the first. *)
Definition pair (x : Z) : list Z :=
  if (x =? 1)%Z then [2%Z]
  else if (x =? 2)%Z then [1%Z]
  else if (x =? 3)%Z then [1%Z]
  else [].

End Models.

(** * Properties *)

(** ** The reference runtime on a few inputs *)

Lemma runtime_examples :
  Runtime.ordinal 1 1 1 = 1%Z
  /\ Runtime.ordinal 2000 3 1 = 730180%Z
  /\ Runtime.fromisoformat "2025-06-15" = Some 739417%Z
  /\ Runtime.fromisoformat "2024-02-29" = Some 738945%Z
  /\ Runtime.fromisoformat "2025-02-29" = None
  /\ Runtime.fromisoformat "not-a-date" = None
  /\ Runtime.float_of_str "abc" = None
  /\ option_map (Qeq_bool 3.25) (Runtime.float_of_str "3.25") = Some true
  /\ Qeq_bool (round2 3.2049) 3.2 = true
  /\ Qeq_bool (round2 0.125) 0.12 = true
  /\ str_of_int 12 = "12".
Proof. repeat split; vm_compute; reflexivity. Qed.

(** ** Equality of scalars is an equivalence *)

Lemma py_eqb_refl (a : pyval) : py_eqb a a = true.
Proof.
  destruct a as [ | [ | ] | z | q | s ]; simpl; try reflexivity.
  - apply Qeq_bool_iff. reflexivity.
  - apply Qeq_bool_iff. reflexivity.
  - apply String.eqb_refl.
Qed.

Lemma py_eqb_num (a b : pyval) :
  py_eqb a b = true ->
  (a = VNone /\ b = VNone)
  \/ (exists s, a = VStr s /\ b = VStr s)
  \/ (exists x y, num_of a = Some x /\ num_of b = Some y /\ (x == y)%Q).
Proof.
  destruct a as [ | [ | ] | z | q | s ], b as [ | [ | ] | z' | q' | s' ];
    simpl; intros H; try discriminate;
    try (left; split; reflexivity);
    try (right; right; do 2 eexists; split; [reflexivity | split; [reflexivity | apply Qeq_bool_iff; exact H]]).
  right; left. apply String.eqb_eq in H. subst. eauto.
Qed.

Lemma py_eqb_sym (a b : pyval) : py_eqb a b = py_eqb b a.
Proof.
  destruct a as [ | [ | ] | z | q | s ], b as [ | [ | ] | z' | q' | s' ];
    simpl; try reflexivity;
    try (apply eq_true_iff_eq; rewrite !Qeq_bool_iff; split; intros H; symmetry; exact H).
  apply String.eqb_sym.
Qed.

Lemma py_eqb_trans (a b c : pyval) :
  py_eqb a b = true -> py_eqb b c = true -> py_eqb a c = true.
Proof.
  intros Hab Hbc.
  destruct (py_eqb_num _ _ Hab) as [[-> ->] | [(s & -> & ->) | (x & y & Hx & Hy & Hxy)]];
    try exact Hbc.
  destruct (py_eqb_num _ _ Hbc) as [[-> _] | [(s & -> & _) | (y' & z & Hy' & Hz & Hyz)]];
    try discriminate.
  assert (y' = y) by congruence. subst y'.
  assert (Hxz : Qeq_bool x z = true) by (apply Qeq_bool_iff; rewrite Hxy; exact Hyz).
  destruct a as [ | [ | ] | ? | ? | ? ], c as [ | [ | ] | ? | ? | ? ];
    simpl in *; try discriminate; congruence.
Qed.

(** ** Effort scorer *)




(** ** Strategy composer: missing fields *)

Lemma is_missing_iff (t : task) (f : string) :
  is_missing t f = true <-> absent_or_null (field_of t f).
Proof.
  unfold is_missing, absent_or_null.
  destruct (field_of t f) as [[ | | | | ] | ]; split; intros H;
    try reflexivity; try discriminate; auto;
    destruct H as [H | H]; discriminate.
Qed.

(** C5: when one of [title], [due_date], [estimated_hours],
    [importance] is absent or null, [score_task] returns the score 0.0, the
    reason "Missing required fields: " followed by exactly the names of the
    absent or null fields, and empty metadata, whatever the strategy, the
    configuration, the batch and the preferences. *)
Theorem score_task_missing_fields
    (today : Z) (fromisoformat : string -> option Z)
    (float_of_str : string -> option Q) (pow15 : Q -> Q)
    (t : task) (strategy : string) (cfg : option config)
    (all_tasks : option (list task)) (prefs : option preferences) :
  absent_or_null (title t) \/ absent_or_null (due_date t)
  \/ absent_or_null (estimated_hours t) \/ absent_or_null (importance t) ->
  exists names : list string,
    score_task today fromisoformat float_of_str pow15 t strategy cfg
      all_tasks prefs
    = Ok (0.0%Q, "Missing required fields: " ++ join ", " names, None)
    /\ NoDup names
    /\ forall f : string,
         In f names <->
         (f = "title" /\ absent_or_null (title t))
         \/ (f = "due_date" /\ absent_or_null (due_date t))
         \/ (f = "estimated_hours" /\ absent_or_null (estimated_hours t))
         \/ (f = "importance" /\ absent_or_null (importance t)).
Proof.
  intros Hmiss.
  exists (missing_fields t).
  assert (Hchar : forall f : string,
             In f (missing_fields t) <->
             (f = "title" /\ absent_or_null (title t))
             \/ (f = "due_date" /\ absent_or_null (due_date t))
             \/ (f = "estimated_hours" /\ absent_or_null (estimated_hours t))
             \/ (f = "importance" /\ absent_or_null (importance t))).
  { intros f. unfold missing_fields. rewrite filter_In, is_missing_iff.
    unfold required_fields. simpl. split.
    - intros [[<- | [<- | [<- | [<- | []]]]] H]; auto 10.
    - intros [[-> H] | [[-> H] | [[-> H] | [-> H]]]]; auto 10. }
  split; [ | split; [ | exact Hchar]].
  - unfold score_task. fold (missing_fields t).
    destruct (missing_fields t) as [ | f fs] eqn:E; [ | reflexivity].
    exfalso.
    destruct Hmiss as [H | [H | [H | H]]].
    + apply (proj2 (Hchar "title")). auto.
    + apply (proj2 (Hchar "due_date")). auto.
    + apply (proj2 (Hchar "estimated_hours")). auto 10.
    + apply (proj2 (Hchar "importance")). auto 10.
  - unfold missing_fields. apply NoDup_filter.
    unfold required_fields.
    repeat constructor; simpl; intuition discriminate.
Qed.

Lemma score_task_missing_fields_witness :
  exists names : list string,
    score_task Runtime.today Runtime.fromisoformat Runtime.float_of_str
      Runtime.pow15
      (mkTask (Some (VInt 1)) None (Some (VStr "2025-06-20")) (Some VNone)
         (Some (VInt 7)) (Some []))
      "high_impact" None None None
    = Ok (0.0%Q, "Missing required fields: " ++ join ", " names, None)
    /\ In "title" names /\ In "estimated_hours" names
    /\ ~ In "due_date" names /\ ~ In "importance" names.
Proof.
  destruct (score_task_missing_fields Runtime.today Runtime.fromisoformat
              Runtime.float_of_str Runtime.pow15
              (mkTask (Some (VInt 1)) None (Some (VStr "2025-06-20"))
                 (Some VNone) (Some (VInt 7)) (Some []))
              "high_impact" None None None) as (names & Hres & _ & Hchar).
  - left. left. reflexivity.
  - exists names. split; [exact Hres | ].
    repeat split.
    + apply Hchar. left. split; [reflexivity | left; reflexivity].
    + apply Hchar. right; right; left.
      split; [reflexivity | right; reflexivity].
    + intros H. apply Hchar in H. unfold absent_or_null in H. simpl in H.
      intuition discriminate.
    + intros H. apply Hchar in H. unfold absent_or_null in H. simpl in H.
      intuition discriminate.
Defined.


(** ** Urgency scorer on overdue dates *)

Lemma Qminq_spec (a b : Q) :
  (a <= b /\ Qminq a b = a)%Q \/ (b < a /\ Qminq a b = b)%Q.
Proof.
  unfold Qminq. destruct (Qle_bool a b) eqn:E.
  - left. split; [apply Qle_bool_iff; exact E | reflexivity].
  - right. split; [ | reflexivity].
    apply Qnot_le_lt. intros H. apply Qle_bool_iff in H. congruence.
Qed.

Lemma urgency_overdue (today : Z) (fromisoformat : string -> option Z)
    (s : string) (due : Z) (max_score : Q) (crisis_mode : bool) :
  fromisoformat s = Some due -> (due < today)%Z ->
  calculate_urgency_score today fromisoformat (VStr s) max_score crisis_mode
  = Ok ((Qminq (max_score
                + inject_Z (today - due) * overdue_rate crisis_mode) 15.0
         * crisis_multiplier crisis_mode)%Q, "OVERDUE").
Proof.
  intros Hp Hlt. unfold calculate_urgency_score, parse_date. rewrite Hp.
  unfold urgency_of_days.
  assert (E : (due - today <? 0)%Z = true) by (apply Z.ltb_lt; lia).
  rewrite E.
  replace (Z.abs (due - today)) with (today - due)%Z by lia.
  reflexivity.
Qed.

(** Ten and eleven days overdue both reach the cap: the score does not
    increase any more. *)
Lemma calculate_urgency_score_capped :
  exists s10 s11 : Q,
    calculate_urgency_score Runtime.today Runtime.fromisoformat
      (VStr "2025-06-05") 10.0 false = Ok (s10, "OVERDUE")
    /\ calculate_urgency_score Runtime.today Runtime.fromisoformat
         (VStr "2025-06-04") 10.0 false = Ok (s11, "OVERDUE")
    /\ ~ (s10 < s11)%Q.
Proof.
  do 2 eexists. split; [vm_compute; reflexivity | ].
  split; [vm_compute; reflexivity | ].
  vm_compute. discriminate.
Qed.

(** C7, as the code has it: of two overdue dates the earlier one never
    scores lower; the score never exceeds 15.0 times the crisis multiplier;
    and the earlier date scores strictly higher exactly when the later one
    is still below the cap of 15.0 before the multiplier. *)
Theorem calculate_urgency_score_overdue_monotone
    (today : Z) (fromisoformat : string -> option Z)
    (d1 d2 : string) (due1 due2 : Z) (max_score : Q) (crisis_mode : bool) :
  fromisoformat d1 = Some due1 -> fromisoformat d2 = Some due2 ->
  (due1 < due2)%Z -> (due2 < today)%Z ->
  exists s1 s2 : Q,
    calculate_urgency_score today fromisoformat (VStr d1) max_score
      crisis_mode = Ok (s1, "OVERDUE")
    /\ calculate_urgency_score today fromisoformat (VStr d2) max_score
         crisis_mode = Ok (s2, "OVERDUE")
    /\ (s2 <= s1)%Q
    /\ (s1 <= 15.0 * crisis_multiplier crisis_mode)%Q
    /\ ((s2 < s1)%Q <->
        (max_score + inject_Z (today - due2) * overdue_rate crisis_mode
         < 15.0)%Q).
Proof.
  intros H1 H2 H12 H2t.
  do 2 eexists.
  split; [apply urgency_overdue; [exact H1 | lia] | ].
  split; [apply urgency_overdue; [exact H2 | lia] | ].
  assert (Hd : (inject_Z (today - due2) < inject_Z (today - due1))%Q).
  { rewrite <- Zlt_Qlt. lia. }
  set (p1 := inject_Z (today - due1)) in *.
  set (p2 := inject_Z (today - due2)) in *.
  assert (Hm : (0 < crisis_multiplier crisis_mode)%Q)
    by (destruct crisis_mode; reflexivity).
  assert (Hr : (0 < overdue_rate crisis_mode)%Q)
    by (destruct crisis_mode; reflexivity).
  set (m := crisis_multiplier crisis_mode) in *.
  set (r := overdue_rate crisis_mode) in *.
  assert (Hpr : (p2 * r < p1 * r)%Q) by nra.
  destruct (Qminq_spec (max_score + p1 * r) 15.0) as [[L1 ->] | [L1 ->]];
    destruct (Qminq_spec (max_score + p2 * r) 15.0) as [[L2 ->] | [L2 ->]].
  - repeat split; intros; nra.
  - exfalso. nra.
  - repeat split; intros; nra.
  - repeat split; intros; nra.
Qed.

Lemma calculate_urgency_score_overdue_monotone_witness :
  exists s1 s2 : Q,
    calculate_urgency_score Runtime.today Runtime.fromisoformat
      (VStr "2025-06-01") 10.0 true = Ok (s1, "OVERDUE")
    /\ calculate_urgency_score Runtime.today Runtime.fromisoformat
         (VStr "2025-06-12") 10.0 true = Ok (s2, "OVERDUE")
    /\ (s2 <= s1)%Q
    /\ (s1 <= 15.0 * crisis_multiplier true)%Q
    /\ ((s2 < s1)%Q <->
        (10.0 + inject_Z (Runtime.today - Runtime.ordinal 2025 6 12)
                * overdue_rate true < 15.0)%Q).
Proof.
  apply (calculate_urgency_score_overdue_monotone Runtime.today
           Runtime.fromisoformat "2025-06-01" "2025-06-12"
           (Runtime.ordinal 2025 6 1) (Runtime.ordinal 2025 6 12)
           10.0 true).
  - reflexivity.
  - reflexivity.
  - vm_compute. reflexivity.
  - vm_compute. reflexivity.
Defined.

(** ** Dependency-leverage scorer *)

Lemma count_dependents_spec (task_id : pyval) (l : list task) (n : nat) :
  count_dependents task_id l n = (n + dependents_in task_id l)%nat.
Proof.
  revert n. induction l as [ | other l IH]; intros n; simpl.
  - unfold dependents_in. simpl. lia.
  - unfold dependents_in, lists_id in *. simpl.
    destruct (py_in task_id (get_dependencies other)); rewrite IH; simpl; lia.
Qed.

Lemma dependents_in_app (task_id : pyval) (l1 l2 : list task) :
  dependents_in task_id (l1 ++ l2)
  = (dependents_in task_id l1 + dependents_in task_id l2)%nat.
Proof.
  unfold dependents_in. rewrite filter_app, length_app. reflexivity.
Qed.

(** A task that lists its own id counts itself: alone in its batch it
    has no other task depending on it, and a boost of 2.0. *)
Lemma calculate_dependency_boost_counts_self :
  match calculate_dependency_boost BoostExamples.self_dependent
          ([] ++ BoostExamples.self_dependent :: []) with
  | Ok boost =>
      ~ (boost == 2.0 * inject_Z (Z.of_nat (dependents_in (VInt 1) ([] ++ []))))%Q
  | _ => False
  end.
Proof.
  vm_compute. discriminate.
Qed.

(** C9, as the code has it: for a task [t] of the batch that has an id,
    the boost is 2.0 times the number of tasks of the batch whose
    dependency list contains that id, [t] itself included when it lists its
    own id; when it does not, this is 2.0 times the number of other tasks
    that list it. *)
Theorem calculate_dependency_boost_fan_in
    (t : task) (task_id : pyval) (before after : list task) :
  id t = Some task_id ->
  calculate_dependency_boost t (before ++ t :: after)
  = Ok (inject_Z (Z.of_nat (dependents_in task_id (before ++ after)
                            + (if lists_id task_id t then 1 else 0)))
        * 2.0)%Q
  /\ (lists_id task_id t = false ->
      calculate_dependency_boost t (before ++ t :: after)
      = Ok (inject_Z (Z.of_nat (dependents_in task_id (before ++ after)))
            * 2.0)%Q).
Proof.
  intros Hid.
  assert (E : count_dependents task_id (before ++ t :: after) 0
              = (dependents_in task_id (before ++ after)
                 + (if lists_id task_id t then 1 else 0))%nat).
  { rewrite count_dependents_spec. rewrite !dependents_in_app.
    replace (t :: after) with ([t] ++ after)%list by reflexivity.
    rewrite dependents_in_app.
    unfold dependents_in at 2. simpl.
    destruct (lists_id task_id t); simpl; lia. }
  unfold calculate_dependency_boost. rewrite Hid. simpl. rewrite E.
  split; [reflexivity | ].
  intros ->. rewrite Nat.add_0_r. reflexivity.
Qed.

Lemma calculate_dependency_boost_fan_in_witness :
  calculate_dependency_boost BoostExamples.hub
    ([BoostExamples.spoke 2] ++ BoostExamples.hub
       :: [BoostExamples.spoke 3; BoostExamples.spoke 4])
  = Ok (inject_Z (Z.of_nat 3) * 2.0)%Q.
Proof.
  apply (proj2 (calculate_dependency_boost_fan_in BoostExamples.hub
                  (VInt 1) [BoostExamples.spoke 2]
                  [BoostExamples.spoke 3; BoostExamples.spoke 4] eq_refl)).
  reflexivity.
Defined.


(** ** Tasks without an [id] *)

Lemma build_task_map_missing_id (tasks : list task) (m : dict task) :
  Exists (fun t => id t = None) tasks ->
  build_task_map tasks m = Raise KeyError.
Proof.
  intros H. revert m.
  induction H as [t ts Hid | t ts _ IH]; intros m; simpl.
  - rewrite Hid. reflexivity.
  - destruct (id t) as [k | ]; simpl; [apply IH | reflexivity].
Qed.

(** C10: when a task of the batch has no [id], cycle detection raises
    [KeyError] while building the task map, [analyze_tasks] raises it as a
    whole before any task is scored, and [calculate_dependency_boost] on a
    task without [id] raises it too. *)
Theorem analyze_tasks_requires_id
    (today : Z) (fromisoformat : string -> option Z)
    (float_of_str : string -> option Q) (pow15 : Q -> Q)
    (tasks : list task) (strategy : string) (cfg : option config)
    (prefs : option preferences) :
  Exists (fun t => id t = None) tasks ->
  detect_circular_dependencies tasks = Raise KeyError
  /\ analyze_tasks today fromisoformat float_of_str pow15 tasks strategy cfg
       prefs = Raise KeyError
  /\ forall t all_tasks,
       id t = None ->
       calculate_dependency_boost t all_tasks = Raise KeyError.
Proof.
  intros H.
  assert (D : detect_circular_dependencies tasks = Raise KeyError).
  { unfold detect_circular_dependencies.
    rewrite (build_task_map_missing_id tasks [] H). reflexivity. }
  split; [exact D | split].
  - unfold analyze_tasks. destruct tasks as [ | t ts].
    + inversion H.
    + rewrite D. reflexivity.
  - intros t all_tasks Hid. unfold calculate_dependency_boost.
    rewrite Hid. reflexivity.
Qed.

Lemma analyze_tasks_requires_id_witness :
  analyze_tasks Runtime.today Runtime.fromisoformat Runtime.float_of_str
    Runtime.pow15
    [mkTask (Some (VInt 1)) (Some (VStr "A")) (Some (VStr "2025-06-20"))
       (Some (VInt 2)) (Some (VInt 5)) (Some []);
     mkTask None (Some (VStr "B")) (Some (VStr "2025-06-21"))
       (Some (VInt 1)) (Some (VInt 6)) (Some [])]
    "smart_balance" None None
  = Raise KeyError.
Proof.
  apply (analyze_tasks_requires_id Runtime.today Runtime.fromisoformat
           Runtime.float_of_str Runtime.pow15
           [mkTask (Some (VInt 1)) (Some (VStr "A")) (Some (VStr "2025-06-20"))
              (Some (VInt 2)) (Some (VInt 5)) (Some []);
            mkTask None (Some (VStr "B")) (Some (VStr "2025-06-21"))
              (Some (VInt 1)) (Some (VInt 6)) (Some [])]
           "smart_balance" None None).
  apply Exists_cons_tl. apply Exists_cons_hd. reflexivity.
Defined.


Section Orchestrator.

Variable today : Z.
Variable fromisoformat : string -> option Z.
Variable float_of_str : string -> option Q.
Variable pow15 : Q -> Q.

Local Abbreviation task_hours := (task_hours float_of_str).
Local Abbreviation feasibility_walk := (feasibility_walk float_of_str).
Local Abbreviation analyze_tasks :=
  (analyze_tasks today fromisoformat float_of_str pow15).
Local Abbreviation score_all :=
  (score_all today fromisoformat float_of_str pow15).
Local Abbreviation try_score :=
  (try_score today fromisoformat float_of_str pow15).

(** *** What the walk does to the rows *)

Lemma feasibility_walk_rows (available : pyval) (sts : list scored_task) :
  forall cum n rows c k,
    feasibility_walk available sts cum n = Ok (rows, c, k) ->
    Forall2 (fun row st => exists b, row = set_can_complete b st) rows sts.
Proof.
  induction sts as [ | st rest IH]; intros cum n rows c k H; simpl in H.
  - injection H as <- _ _. constructor.
  - destruct (task_hours (st_task st)) as [h | e | ]; simpl in H;
      try discriminate.
    destruct (le_pref (cum + h) available) as [fits | e | ]; simpl in H;
      try discriminate.
    destruct fits.
    + destruct (feasibility_walk available rest (cum + h)%Q (S n))
        as [[[rows' c'] k'] | e | ] eqn:E; simpl in H; try discriminate.
      injection H as <- _ _. constructor; [eauto | eapply IH; exact E].
    + destruct (feasibility_walk available rest cum n)
        as [[[rows' c'] k'] | e | ] eqn:E; simpl in H; try discriminate.
      injection H as <- _ _. constructor; [eauto | eapply IH; exact E].
Qed.


(** *** What [analyze_tasks] returns on a non-empty batch *)


(** *** The feasibility walk, as [analyze_tasks] runs it *)


(** *** The sort *)

Lemma Forall_insert_by_score (P : scored_task -> Prop) (x : scored_task)
    (l : list scored_task) :
  P x -> Forall P l -> Forall P (insert_by_score x l).
Proof.
  intros Hx Hl. induction Hl as [ | y l Hy Hl IH]; simpl.
  - auto.
  - destruct (Qle_bool (score y) (score x)); auto.
Qed.





Lemma sort_by_score_permutation (l : list scored_task) :
  Permutation (sort_by_score l) l.
Proof.
  induction l as [ | x l IH]; [constructor | ].
  cbn [sort_by_score fold_right]. fold (sort_by_score l).
  transitivity (x :: sort_by_score l); [ | constructor; exact IH].
  clear IH. induction (sort_by_score l) as [ | y l' IH']; simpl.
  - reflexivity.
  - destruct (Qle_bool (score y) (score x)); [reflexivity | ].
    rewrite IH'. apply perm_swap.
Qed.

(** Rows of scores 5, 7, 5, 7 come out as 7, 7, 5, 5, each pair in its
    input order. *)
Lemma sort_by_score_example (t1 t2 t3 t4 : task) :
  let row t sc := mkScored t sc "" "" None None in
  sort_by_score [row t1 5; row t2 7; row t3 5; row t4 7]
  = [row t2 7; row t4 7; row t1 5; row t3 5].
Proof. reflexivity. Qed.

(** *** Subsequences *)

Lemma subsequence_refl {A : Type} (l : list A) : subsequence l l.
Proof. induction l; constructor; assumption. Qed.





(** *** The scoring loop keeps the input order *)





(** *** The order of the result *)


End Orchestrator.


Lemma dfs_eq (task_map : dict task) (fuel : nat) (task_id : pyval)
    (st : dfs_state) :
  dfs task_map (S fuel) task_id st
  = if py_in task_id (rec_stack st) then
      match list_index task_id (path st) with
      | None => Raise ValueError
      | Some cycle_start =>
          Ok (true,
              mkState (visited st) (rec_stack st)
                (set_update (circular_tasks st) (skipn cycle_start (path st)))
                (path st))
      end
    else if py_in task_id (visited st) then Ok (false, st)
    else
      r <- dfs_deps (dfs task_map fuel) task_map
             match dict_get task_map task_id with
             | Some t => get_dependencies t
             | None => []
             end
             (mkState (set_add task_id (visited st))
                (set_add task_id (rec_stack st))
                (circular_tasks st)
                (path st ++ [task_id])) ;;
      (if fst r then Ok (true, snd r)
       else
         rs <- set_remove task_id (rec_stack (snd r)) ;;
         Ok (false,
             mkState (visited (snd r)) rs (circular_tasks (snd r))
               (removelast (path (snd r))))).
Proof. reflexivity. Qed.








(** ** Sets and dicts keyed by scalars *)

Lemma py_eqb_congr_l (a b c : pyval) :
  py_eqb a b = true -> py_eqb a c = py_eqb b c.
Proof.
  intros Hab.
  destruct (py_eqb b c) eqn:Hbc.
  - eapply py_eqb_trans; eassumption.
  - destruct (py_eqb a c) eqn:Hac; [ | reflexivity].
    rewrite <- Hbc. symmetry.
    apply (py_eqb_trans b a c); [rewrite py_eqb_sym; exact Hab | exact Hac].
Qed.

Lemma py_eqb_congr_r (a b c : pyval) :
  py_eqb a b = true -> py_eqb c a = py_eqb c b.
Proof.
  intros H. rewrite (py_eqb_sym c a), (py_eqb_sym c b).
  apply py_eqb_congr_l. exact H.
Qed.

Lemma py_in_app (x : pyval) (l1 l2 : list pyval) :
  py_in x (l1 ++ l2) = py_in x l1 || py_in x l2.
Proof. unfold py_in. apply existsb_app. Qed.

Lemma py_in_congr (x y : pyval) (l : list pyval) :
  py_eqb x y = true -> py_in x l = py_in y l.
Proof.
  intros H. unfold py_in. induction l as [ | z l IH]; simpl.
  - reflexivity.
  - rewrite IH, (py_eqb_congr_l x y z H). reflexivity.
Qed.

Lemma dict_get_set {V : Type} (m : dict V) (k d : pyval) (v : V) :
  dict_get (dict_set m k v) d
  = if py_eqb k d then Some v else dict_get m d.
Proof.
  induction m as [ | [k' v'] m IH]; simpl.
  - reflexivity.
  - destruct (py_eqb k' k) eqn:E; simpl.
    + rewrite <- (py_eqb_congr_l k' k d E).
      destruct (py_eqb k' d); reflexivity.
    + rewrite IH.
      destruct (py_eqb k' d) eqn:E1; [ | reflexivity].
      destruct (py_eqb k d) eqn:E2; [ | reflexivity].
      exfalso.
      rewrite (py_eqb_congr_r k d k') in E; [ | exact E2].
      rewrite E1 in E. discriminate.
Qed.

Lemma dict_get_congr {V : Type} (m : dict V) (k d : pyval) :
  py_eqb k d = true -> dict_get m k = dict_get m d.
Proof.
  intros H. induction m as [ | [k' v'] m IH]; simpl.
  - reflexivity.
  - rewrite (py_eqb_congr_r k d k' H), IH. reflexivity.
Qed.

(** ** The task map *)

Lemma build_task_map_get (tasks : list task) :
  forall m tm d,
    build_task_map tasks m = Ok tm ->
    dict_get tm d = last_with_id d tasks (dict_get m d).
Proof.
  induction tasks as [ | t ts IH]; intros m tm d H; simpl in H.
  - injection H as <-. reflexivity.
  - destruct (id t) as [k | ] eqn:Ek; simpl in H; [ | discriminate].
    rewrite (IH _ _ d H). simpl. rewrite Ek, dict_get_set. reflexivity.
Qed.

Lemma last_with_id_found (d : pyval) (tasks : list task) (found : option task) :
  last_with_id d tasks found = found
  \/ exists t k, In t tasks /\ id t = Some k /\ py_eqb k d = true
                 /\ last_with_id d tasks found = Some t.
Proof.
  revert found. induction tasks as [ | t ts IH]; intros found; simpl.
  - left. reflexivity.
  - destruct (IH match id t with
                 | Some k => if py_eqb k d then Some t else found
                 | None => found
                 end) as [-> | (t' & k' & Hin & Hid & Hk & ->)].
    + destruct (id t) as [k | ] eqn:Ek; [ | left; reflexivity].
      destruct (py_eqb k d) eqn:E; [ | left; reflexivity].
      right. exists t, k. auto.
    + right. exists t', k'. auto.
Qed.

Lemma last_with_id_some (d : pyval) (tasks : list task) (t : task) (k : pyval) :
  In t tasks -> id t = Some k -> py_eqb k d = true ->
  forall found, last_with_id d tasks found <> None.
Proof.
  intros Hin Hid Hk. induction tasks as [ | t' ts IH]; intros found.
  - destruct Hin.
  - simpl. destruct Hin as [-> | Hin].
    + rewrite Hid, Hk.
      destruct (last_with_id_found d ts (Some t)) as [-> | (? & ? & _ & _ & _ & ->)];
        discriminate.
    + apply IH. exact Hin.
Qed.





Lemma in_batch_last_with_id (d : pyval) (tasks : list task) :
  in_batch d tasks
  = match last_with_id d tasks None with Some _ => true | None => false end.
Proof.
  destruct (in_batch d tasks) eqn:E.
  - apply existsb_exists in E. destruct E as (t & Hin & Ht).
    destruct (id t) as [k | ] eqn:Ek; [ | discriminate].
    pose proof (last_with_id_some d tasks t k Hin Ek Ht None) as Hn.
    destruct (last_with_id d tasks None); congruence.
  - destruct (last_with_id_found d tasks None)
      as [-> | (t & k & Hin & Hid & Hk & _)]; [reflexivity | ].
    exfalso.
    assert (C : in_batch d tasks = true).
    { apply existsb_exists. exists t. rewrite Hid. auto. }
    congruence.
Qed.

Lemma in_batch_task_map (tasks : list task) (tm : dict task) (d : pyval) :
  build_task_map tasks [] = Ok tm -> dict_mem d tm = in_batch d tasks.
Proof.
  intros H. unfold dict_mem.
  rewrite (build_task_map_get tasks [] tm d H), in_batch_last_with_id.
  reflexivity.
Qed.

Section Pruning.

Variable tm : dict task.
Variable f : task -> task.
Hypothesis f_id : forall t, id (f t) = id t.
Hypothesis f_title : forall t, title (f t) = title t.
Hypothesis f_deps : forall t,
  get_dependencies (f t)
  = filter (fun d => dict_mem d tm) (get_dependencies t).






End Pruning.



(** ** The fuel given to the traversal is enough *)

Lemma filter_length_mono {A : Type} (p p' : A -> bool) (l : list A) :
  (forall x, p' x = true -> p x = true) ->
  (List.length (filter p' l) <= List.length (filter p l))%nat.
Proof.
  intros H. induction l as [ | x l IH]; simpl; [lia | ].
  destruct (p' x) eqn:E'.
  - rewrite (H x E'). simpl. lia.
  - destruct (p x); simpl; lia.
Qed.

Lemma filter_length_lt {A : Type} (p p' : A -> bool) (l : list A) (y : A) :
  (forall x, p' x = true -> p x = true) ->
  In y l -> p y = true -> p' y = false ->
  (List.length (filter p' l) < List.length (filter p l))%nat.
Proof.
  intros H Hin Hp Hp'. induction l as [ | x l IH]; simpl; [destruct Hin | ].
  destruct Hin as [-> | Hin].
  - rewrite Hp, Hp'. simpl.
    pose proof (filter_length_mono p p' l H). lia.
  - specialize (IH Hin). destruct (p' x) eqn:E'.
    + rewrite (H x E'). simpl. lia.
    + destruct (p x); simpl; lia.
Qed.

Lemma unvisited_mono (tm : dict task) (v v' : list pyval) :
  visited_le v v' -> (unvisited tm v' <= unvisited tm v)%nat.
Proof.
  intros H. unfold unvisited. apply filter_length_mono.
  intros x Hx. apply negb_true_iff in Hx. apply negb_true_iff.
  destruct (py_in x v) eqn:E; [ | reflexivity].
  rewrite (H x E) in Hx. discriminate.
Qed.

Lemma dict_mem_key {V : Type} (m : dict V) (k : pyval) :
  dict_mem k m = true ->
  exists k', In k' (map fst m) /\ py_eqb k' k = true.
Proof.
  unfold dict_mem. induction m as [ | [k' v] m IH]; simpl; [discriminate | ].
  destruct (py_eqb k' k) eqn:E.
  - intros _. exists k'. auto.
  - intros H. destruct (IH H) as (k'' & Hin & Hk). exists k''. auto.
Qed.

Lemma visited_le_refl (v : list pyval) : visited_le v v.
Proof. intros x H. exact H. Qed.

Lemma visited_le_trans (v1 v2 v3 : list pyval) :
  visited_le v1 v2 -> visited_le v2 v3 -> visited_le v1 v3.
Proof. intros H12 H23 x H. apply H23, H12, H. Qed.

Lemma visited_le_add (k : pyval) (v : list pyval) :
  visited_le v (set_add k v).
Proof.
  intros x H. unfold set_add. destruct (py_in k v); [exact H | ].
  rewrite py_in_app, H. reflexivity.
Qed.

Lemma unvisited_add (tm : dict task) (k : pyval) (v : list pyval) :
  dict_mem k tm = true -> py_in k v = false ->
  (unvisited tm (set_add k v) < unvisited tm v)%nat.
Proof.
  intros Hm Hv. destruct (dict_mem_key tm k Hm) as (k' & Hin & Hk).
  unfold unvisited. apply filter_length_lt with (y := k').
  - intros x Hx. apply negb_true_iff in Hx. apply negb_true_iff.
    destruct (py_in x v) eqn:E; [ | reflexivity].
    rewrite (visited_le_add k v x E) in Hx. discriminate.
  - exact Hin.
  - rewrite (py_in_congr k' k v Hk), Hv. reflexivity.
  - unfold set_add. rewrite Hv, py_in_app. simpl.
    rewrite Hk, orb_true_r. reflexivity.
Qed.

Lemma dfs_deps_terminates (tm : dict task) (fuel : nat)
    (rec : pyval -> dfs_state -> res (bool * dfs_state)) :
  (forall k st, dict_mem k tm = true ->
                (unvisited tm (visited st) < fuel)%nat ->
                terminates st (rec k st)) ->
  forall deps st,
    (unvisited tm (visited st) < fuel)%nat ->
    terminates st (dfs_deps rec tm deps st).
Proof.
  intros Hrec. induction deps as [ | d deps IH]; intros st Hst; simpl.
  - apply visited_le_refl.
  - destruct (dict_mem d tm) eqn:E; [ | apply IH; exact Hst].
    specialize (Hrec d st E Hst).
    destruct (rec d st) as [[b st'] | e | ]; simpl in *; auto.
    destruct b; simpl; [exact Hrec | ].
    assert (Hst' : (unvisited tm (visited st') < fuel)%nat).
    { pose proof (unvisited_mono tm _ _ Hrec). lia. }
    specialize (IH st' Hst').
    destruct (dfs_deps rec tm deps st') as [[b' st''] | e | ]; simpl in *; auto.
    eapply visited_le_trans; eassumption.
Qed.

Lemma dfs_terminates (tm : dict task) (fuel : nat) :
  forall k st,
    dict_mem k tm = true ->
    (unvisited tm (visited st) < fuel)%nat ->
    terminates st (dfs tm fuel k st).
Proof.
  induction fuel as [ | fuel IH]; intros k st Hk Hst; [lia | ].
  rewrite dfs_eq.
  destruct (py_in k (rec_stack st)).
  { destruct (list_index k (path st)); simpl; auto. apply visited_le_refl. }
  destruct (py_in k (visited st)) eqn:Ev.
  { simpl. apply visited_le_refl. }
  set (st1 := mkState (set_add k (visited st)) (set_add k (rec_stack st))
                (circular_tasks st) (path st ++ [k])).
  assert (H1 : (unvisited tm (visited st1) < fuel)%nat).
  { simpl. pose proof (unvisited_add tm k (visited st) Hk Ev). lia. }
  pose proof (dfs_deps_terminates tm fuel (dfs tm fuel) IH
                match dict_get tm k with
                | Some t => get_dependencies t
                | None => []
                end st1 H1) as Hd.
  destruct (dfs_deps (dfs tm fuel) tm _ st1) as [[b st2] | e | ];
    simpl in *; auto.
  assert (Hle : visited_le (visited st) (visited st2)).
  { eapply visited_le_trans; [apply visited_le_add | exact Hd]. }
  destruct b; simpl; [exact Hle | ].
  unfold set_remove. destruct (py_in k (rec_stack st2)); simpl; auto.
Qed.

Lemma check_each_terminates (tm : dict task) (fuel : nat) (tasks : list task) :
  (forall t k, In t tasks -> id t = Some k -> dict_mem k tm = true) ->
  forall st,
    (unvisited tm (visited st) < fuel)%nat ->
    check_each tm fuel tasks st <> NoFuel.
Proof.
  induction tasks as [ | t ts IH]; intros Hids st Hst; simpl.
  - discriminate.
  - assert (Hts : forall t' k, In t' ts -> id t' = Some k ->
                               dict_mem k tm = true).
    { intros t' k Hin. apply Hids. right. exact Hin. }
    destruct (id t) as [k | ] eqn:Ek; simpl; [ | discriminate].
    destruct (py_in k (visited st)); [apply IH; assumption | ].
    pose proof (dfs_terminates tm fuel k
                  (mkState (visited st) (rec_stack st) (circular_tasks st) [])
                  (Hids t k (or_introl eq_refl) Ek) Hst) as Hd.
    destruct (dfs tm fuel k _) as [[b st'] | e | ]; simpl in *;
      [ | discriminate | destruct Hd].
    apply IH; [exact Hts | ].
    pose proof (unvisited_mono tm _ _ Hd). lia.
Qed.

Lemma circular_titles_terminates (tm : dict task) (ids : list pyval) :
  circular_titles tm ids <> NoFuel.
Proof.
  induction ids as [ | k ks IH]; simpl; [discriminate | ].
  destruct (dict_get tm k) as [t | ]; [ | exact IH].
  destruct (title t); simpl; [ | discriminate].
  destruct (circular_titles tm ks); simpl; congruence.
Qed.

Lemma build_task_map_length (tasks : list task) :
  forall m tm,
    build_task_map tasks m = Ok tm ->
    (List.length tm <= List.length m + List.length tasks)%nat.
Proof.
  induction tasks as [ | t ts IH]; intros m tm H; simpl in H.
  - injection H as <-. simpl. lia.
  - destruct (id t) as [k | ]; simpl in H; [ | discriminate].
    apply IH in H.
    assert (L : (List.length (dict_set m k t) <= S (List.length m))%nat).
    { clear. induction m as [ | [k' v'] m IHm]; simpl; [lia | ].
      destruct (py_eqb k' k); simpl; lia. }
    simpl. lia.
Qed.

(** The traversal never runs out of the fuel
    [detect_circular_dependencies] gives it. *)
Lemma detect_circular_dependencies_fuel (tasks : list task) :
  detect_circular_dependencies tasks <> NoFuel.
Proof.
  unfold detect_circular_dependencies.
  destruct (build_task_map tasks []) as [tm | e | ] eqn:E; simpl.
  - pose proof (check_each_terminates tm (S (List.length tasks)) tasks) as Hc.
    destruct (check_each tm _ tasks initial_state) as [st | e | ] eqn:Ec;
      simpl.
    + apply circular_titles_terminates.
    + discriminate.
    + exfalso. apply (fun H1 H2 => Hc H1 initial_state H2 Ec).
      * intros t k Hin Hid. rewrite (in_batch_task_map tasks tm k E).
        apply existsb_exists. exists t. rewrite Hid, py_eqb_refl. auto.
      * simpl. unfold unvisited.
        pose proof (build_task_map_length tasks [] tm E) as L. simpl in L.
        pose proof (List.filter_length_le (fun k => negb (py_in k []))
                      (map fst tm)) as F.
        rewrite length_map in F. lia.
  - discriminate.
  - clear -E. exfalso. revert E. generalize (@nil (pyval * task)).
    induction tasks as [ | t ts IH]; intros m; simpl; [discriminate | ].
    destruct (id t); simpl; [apply IH | discriminate].
Qed.


(** ** Batches with unique ids *)

Lemma id_eqb_sym (t1 t2 : task) : id_eqb t1 t2 = id_eqb t2 t1.
Proof.
  unfold id_eqb. destruct (id t1), (id t2); try reflexivity.
  apply py_eqb_sym.
Qed.


Lemma unique_ids_present (tasks : list task) (t : task) :
  unique_ids tasks -> In t tasks -> exists k, id t = Some k.
Proof.
  induction tasks as [ | t' ts IH]; simpl; [intros _ [] | ].
  intros (Hid & _ & Hu) [<- | Hin].
  - destruct (id t') as [k | ]; [eauto | congruence].
  - apply IH; assumption.
Qed.



(** ** A task without dependencies *)

Lemma filter_absent (k : pyval) (l : list pyval) :
  py_in k l = false -> filter (fun y => negb (py_eqb k y)) l = l.
Proof.
  unfold py_in. induction l as [ | y l IH]; simpl; [reflexivity | ].
  intros H. apply orb_false_iff in H. destruct H as [Hy Hl].
  rewrite Hy. simpl. rewrite IH; auto.
Qed.

Lemma set_remove_added (k : pyval) (l : list pyval) :
  py_in k l = false -> set_remove k (set_add k l) = Ok l.
Proof.
  intros H. unfold set_remove, set_add. rewrite H.
  rewrite py_in_app. simpl. rewrite py_eqb_refl, orb_true_r.
  rewrite filter_app. simpl. rewrite py_eqb_refl. simpl.
  rewrite filter_absent, app_nil_r; auto.
Qed.








(** C2, on two batches the code accepts: a call of [dfs] that finds a
    cycle returns without clearing [rec_stack], so a later traversal that
    reaches a member of the cycle looks it up in a fresh [path] and
    [detect_circular_dependencies] raises [ValueError]; and the same early
    return leaves the other dependencies of the visited tasks unexplored,
    so a task that lies on a cycle (task 1 of [nested_cycles]) is not
    reported. *)
Theorem detect_circular_dependencies_stale_stack :
  detect_circular_dependencies DetectExamples.cycle_then_user
  = Raise ValueError
  /\ detect_circular_dependencies DetectExamples.overlapping_cycles
     = Raise ValueError
  /\ (on_cycle DetectExamples.nested_cycles (VInt 1)
      /\ detect_circular_dependencies DetectExamples.nested_cycles
         = Ok [VStr "B"]).
Proof.
  split; [vm_compute; reflexivity | ].
  split; [vm_compute; reflexivity | ].
  split; [ | vm_compute; reflexivity].
  apply t_trans with (y := VInt 2); apply t_step; split; try reflexivity.
  - exists (DetectExamples.node 1 "A" [2%Z]). simpl. auto.
  - exists (DetectExamples.node 2 "B" [2%Z; 1%Z]). simpl. auto.
Qed.

(** What does work: the three-task cycle of the test suite and two
    cycles without a common task are reported in full. *)
Lemma detect_circular_dependencies_full_cycles :
  (exists titles,
     detect_circular_dependencies DetectExamples.triangle = Ok titles
     /\ Permutation titles [VStr "A"; VStr "B"; VStr "C"])
  /\ (exists titles,
        detect_circular_dependencies DetectExamples.disjoint_cycles
        = Ok titles
        /\ Permutation titles [VStr "A"; VStr "B"; VStr "C"; VStr "D"]).
Proof.
  split; eexists; (split; [vm_compute; reflexivity | ]).
  - apply perm_skip. apply perm_swap.
  - reflexivity.
Qed.


Section Totality.

Variable today : Z.
Variable fromisoformat : string -> option Z.
Variable float_of_str : string -> option Q.
Variable pow15 : Q -> Q.

Lemma bind_no_fuel {A B : Type} (m : res A) (k : A -> res B) :
  m <> NoFuel -> (forall a, k a <> NoFuel) -> bind m k <> NoFuel.
Proof.
  intros Hm Hk. destruct m; simpl; [apply Hk | discriminate | congruence].
Qed.

Lemma getitem_no_fuel {V : Type} (o : option V) : getitem o <> NoFuel.
Proof. destruct o; discriminate. Qed.

Lemma py_float_no_fuel (v : pyval) : py_float float_of_str v <> NoFuel.
Proof.
  destruct v as [ | [ | ] | z | q | s]; simpl; try discriminate.
  destruct (float_of_str s); discriminate.
Qed.

Lemma mul_weight_no_fuel (x : Q) (w : pyval) : mul_weight x w <> NoFuel.
Proof. unfold mul_weight. destruct (num_of w); discriminate. Qed.

Lemma calculate_urgency_score_no_fuel (v : pyval) (m : Q) (c : bool) :
  calculate_urgency_score today fromisoformat v m c <> NoFuel.
Proof.
  unfold calculate_urgency_score, parse_date.
  destruct v as [ | [ | ] | z | q | s]; try discriminate.
  destruct (fromisoformat s); discriminate.
Qed.

Lemma calculate_effort_score_no_fuel (v : pyval) (s : string) (e : pyval) :
  calculate_effort_score float_of_str pow15 v s e <> NoFuel.
Proof.
  unfold calculate_effort_score.
  destruct (py_float float_of_str v) as [h | [ | | ] | ] eqn:E;
    try discriminate.
  - destruct (Qle_bool h 0); [discriminate | ].
    destruct (String.eqb s "fast_wins"); [discriminate | ].
    destruct (String.eqb s "high_impact"); [discriminate | ].
    destruct (String.eqb s "deadline_driven"); discriminate.
  - exfalso. exact (py_float_no_fuel v E).
Qed.

Lemma score_task_no_fuel (t : task) (strategy : string) (cfg : option config)
    (all_tasks : option (list task)) (prefs : option preferences) :
  score_task today fromisoformat float_of_str pow15 t strategy cfg all_tasks
    prefs <> NoFuel.
Proof.
  unfold score_task, calculate_dependency_boost, weighted_sum.
  destruct (missing_fields t); [ | discriminate].
  repeat first
    [ apply bind_no_fuel; [ | intros ? ]
    | apply getitem_no_fuel
    | apply py_float_no_fuel
    | apply mul_weight_no_fuel
    | apply calculate_urgency_score_no_fuel
    | apply calculate_effort_score_no_fuel
    | discriminate
    | match goal with
      | |- context [strategy_table ?s ?c] =>
          destruct (strategy_table s c) as [[? ?] ?]
      end ].
Qed.

Lemma try_score_hours (all_tasks : list task) (strategy : string)
    (cfg : option config) (p : preferences) (t : task)
    (row : scored_task) (h : Q) :
  try_score today fromisoformat float_of_str pow15 all_tasks strategy cfg p t
  = Ok (row, h) ->
  hours_known float_of_str row.
Proof.
  unfold try_score. intros H.
  destruct (score_task today fromisoformat float_of_str pow15 t strategy cfg
              (Some all_tasks) (Some p)) as [[[sc rsn] m] | e | ];
    cbn [bind] in H; try discriminate.
  destruct (task_hours float_of_str t) as [h' | e | ] eqn:E;
    cbn [bind] in H; try discriminate.
  injection H as <- _. exists h'. exact E.
Qed.

Lemma try_score_no_fuel (all_tasks : list task) (strategy : string)
    (cfg : option config) (p : preferences) (t : task) :
  try_score today fromisoformat float_of_str pow15 all_tasks strategy cfg p t
  <> NoFuel.
Proof.
  unfold try_score. apply bind_no_fuel; [apply score_task_no_fuel | ].
  intros [[sc rsn] m].
  apply bind_no_fuel; [apply py_float_no_fuel | discriminate].
Qed.

(** The scoring loop always completes: every failure is caught. *)
Lemma score_all_returns (all_tasks : list task) (strategy : string)
    (cfg : option config) (p : preferences) (tasks : list task) :
  forall acc,
    Forall (hours_known float_of_str) (scored_tasks acc) ->
    exists acc',
      score_all today fromisoformat float_of_str pow15 all_tasks strategy cfg
        p tasks acc = Ok acc'
      /\ Forall (hours_known float_of_str) (scored_tasks acc').
Proof.
  induction tasks as [ | t ts IH]; intros acc Hacc; simpl.
  - eauto.
  - pose proof (try_score_no_fuel all_tasks strategy cfg p t) as Hn.
    destruct (try_score today fromisoformat float_of_str pow15 all_tasks
                strategy cfg p t) as [[row h] | e | ] eqn:E.
    + apply IH. simpl. apply Forall_app. split; [exact Hacc | ].
      constructor; [ | constructor].
      eapply try_score_hours. exact E.
    + apply IH. exact Hacc.
    + congruence.
Qed.

Lemma feasibility_walk_returns (available : pyval) (a : Q)
    (sts : list scored_task) :
  num_of available = Some a ->
  Forall (hours_known float_of_str) sts ->
  forall cum n,
    exists rows c k,
      feasibility_walk float_of_str available sts cum n = Ok (rows, c, k).
Proof.
  intros Ha H. induction H as [ | st sts [h Hh] _ IH]; intros cum n; simpl.
  - eauto.
  - rewrite Hh. simpl. unfold le_pref. rewrite Ha. simpl.
    destruct (Qle_bool (cum + h) a).
    + destruct (IH (cum + h)%Q (S n)) as (rows & c & k & ->). simpl. eauto.
    + destruct (IH cum n) as (rows & c & k & ->). simpl. eauto.
Qed.

Lemma sort_by_score_Forall (P : scored_task -> Prop) (l : list scored_task) :
  Forall P l -> Forall P (sort_by_score l).
Proof.
  induction 1 as [ | x l Hx _ IH]; simpl; [constructor | ].
  apply Forall_insert_by_score; assumption.
Qed.


(** [analyze_tasks] never runs out of fuel. *)
Lemma analyze_tasks_fuel (tasks : list task) (strategy : string)
    (cfg : option config) (prefs : option preferences) :
  analyze_tasks today fromisoformat float_of_str pow15 tasks strategy cfg
    prefs <> NoFuel.
Proof.
  unfold analyze_tasks.
  destruct tasks as [ | t ts]; [discriminate | ].
  remember (t :: ts) as batch eqn:Eb. clear Eb t ts.
  apply bind_no_fuel; [apply detect_circular_dependencies_fuel | ].
  intros titles. apply bind_no_fuel.
  { destruct titles as [ | x xs]; [discriminate | ].
    apply bind_no_fuel; [ | discriminate].
    generalize (x :: xs). clear. intros l.
    induction l as [ | [ | | | | s] l IH]; simpl; try discriminate.
    apply bind_no_fuel; [exact IH | discriminate]. }
  intros w0.
  destruct (score_all_returns batch strategy cfg
              match prefs with Some p => p | None => no_preferences end
              batch (mkAcc [] 0 w0)) as (acc & -> & Hacc); [constructor | ].
  cbn [bind].
  apply bind_no_fuel.
  { generalize 0%Q, O.
    induction (sort_by_score (scored_tasks acc)) as [ | st sts IH];
      intros cum n; simpl; [discriminate | ].
    apply bind_no_fuel; [apply py_float_no_fuel | intros h].
    apply bind_no_fuel.
    - unfold le_pref. destruct (num_of _); discriminate.
    - intros [ | ]; (apply bind_no_fuel; [apply IH | ]);
        intros [[rows c] k]; discriminate. }
  intros [[rows c] k].
  apply bind_no_fuel.
  { clear. induction batch as [ | t ts IH]; simpl; [discriminate | ].
    apply bind_no_fuel.
    - destruct (due_date t) as [v | ]; [ | discriminate].
      unfold parse_date. destruct v; try discriminate.
      destruct (fromisoformat s); discriminate.
    - intros d. apply bind_no_fuel; [exact IH | discriminate]. }
  intros ov. apply bind_no_fuel; [ | discriminate].
  unfold productivity_of, pref_positive.
  destruct (num_of _) as [a | ]; simpl; [ | discriminate].
  destruct (negb (Qle_bool a 0)); discriminate.
Qed.

(** A due date that is present and does not parse makes the overdue
    count, and with it the whole analysis, raise. *)
Lemma overdue_count_unparseable (tasks : list task) :
  Exists (fun t => exists v e, due_date t = Some v
                               /\ parse_date fromisoformat v = Raise e)
    tasks ->
  exists e,
    overdue_count today fromisoformat tasks = Raise e
    /\ (e = ValueError \/ e = TypeError).
Proof.
  assert (Hexn : forall v e, parse_date fromisoformat v = Raise e ->
                             e = ValueError \/ e = TypeError).
  { intros v e. unfold parse_date.
    destruct v as [ | b | z | q | s]; try (intros [= <-]; auto).
    destruct (fromisoformat s); [discriminate | intros [= <-]; auto]. }
  assert (Hnf : forall v, parse_date fromisoformat v <> NoFuel).
  { intros v. unfold parse_date. destruct v; try discriminate.
    destruct (fromisoformat s); discriminate. }
  induction tasks as [ | t ts IH]; intros H; [inversion H | ].
  simpl.
  destruct (due_date t) as [v | ] eqn:Ev.
  - destruct (parse_date fromisoformat v) as [d | e | ] eqn:Ep; simpl.
    + inversion H as [? ? (v' & e' & Hv' & He') | ? ? Hts]; subst.
      * congruence.
      * destruct (IH Hts) as (e & -> & He). simpl. eauto.
    + exists e. split; [reflexivity | eapply Hexn; exact Ep].
    + destruct (Hnf v Ep).
  - simpl. inversion H as [? ? (v' & e' & Hv' & He') | ? ? Hts]; subst.
    + congruence.
    + destruct (IH Hts) as (e & -> & He). simpl. eauto.
Qed.

Lemma analyze_tasks_unparseable (tasks : list task) (strategy : string)
    (cfg : option config) (prefs : option preferences)
    (titles : list pyval) (names : list string) (a : Q) :
  detect_circular_dependencies tasks = Ok titles ->
  as_strings titles = Ok names ->
  num_of (available_of prefs) = Some a ->
  Exists (fun t => exists v e, due_date t = Some v
                               /\ parse_date fromisoformat v = Raise e)
    tasks ->
  exists e,
    analyze_tasks today fromisoformat float_of_str pow15 tasks strategy cfg
      prefs = Raise e
    /\ (e = ValueError \/ e = TypeError).
Proof.
  intros Hd Hn Ha Hbad. unfold analyze_tasks.
  destruct tasks as [ | t ts]; [inversion Hbad | ].
  remember (t :: ts) as batch eqn:Eb. clear Eb t ts.
  rewrite Hd. cbn [bind].
  set (p := match prefs with Some p => p | None => no_preferences end).
  assert (Hav : match available_hours p with Some v => v | None => VInt 8 end
                = available_of prefs).
  { unfold available_of, p. destruct prefs as [[[v | ] ?] | ]; reflexivity. }
  rewrite Hav.
  assert (Hw0 : exists w0,
             match titles with
             | [] => Ok []
             | _ :: _ =>
                 names <- as_strings titles ;;
                 Ok [WText ("Circular dependencies detected in: "
                            ++ join ", " names)]
             end = Ok w0).
  { destruct titles; [eauto | ]. rewrite Hn. simpl. eauto. }
  destruct Hw0 as [w0 ->]. cbn [bind].
  destruct (score_all_returns batch strategy cfg p batch (mkAcc [] 0 w0))
    as (acc & -> & Hacc); [constructor | ].
  cbn [bind].
  destruct (feasibility_walk_returns (available_of prefs) a
              (sort_by_score (scored_tasks acc)) Ha
              (sort_by_score_Forall _ _ Hacc) 0%Q O)
    as (rows & c & k & ->).
  cbn [bind].
  destruct (overdue_count_unparseable batch Hbad) as (e & -> & He).
  exists e. auto.
Qed.

End Totality.


(** C1, on a batch the code accepts: the urgency scorer falls back to
    "No deadline" on a due date that does not parse and the task is
    scored without any error; the insights computation then parses the
    same field outside every [try], so [analyze_tasks] as a whole raises
    [ValueError] (and [TypeError] when the due date is null) instead of
    counting the task as not overdue. *)
Theorem analyze_tasks_unparseable_due_date :
  calculate_urgency_score Runtime.today Runtime.fromisoformat
    (VStr "not-a-date") 10.0 false = Ok (1.0%Q, "No deadline")
  /\ (exists row h,
        try_score Runtime.today Runtime.fromisoformat Runtime.float_of_str
          Runtime.pow15 [AnalysisExamples.bad_date] "smart_balance" None
          no_preferences AnalysisExamples.bad_date = Ok (row, h))
  /\ analyze_tasks Runtime.today Runtime.fromisoformat Runtime.float_of_str
       Runtime.pow15 [AnalysisExamples.bad_date] "smart_balance" None None
     = Raise ValueError
  /\ analyze_tasks Runtime.today Runtime.fromisoformat Runtime.float_of_str
       Runtime.pow15 [AnalysisExamples.null_date] "smart_balance" None None
     = Raise TypeError.
Proof.
  split; [reflexivity | split; [ | split]].
  - do 2 eexists. vm_compute. reflexivity.
  - vm_compute. reflexivity.
  - vm_compute. reflexivity.
Qed.



(** * Further properties *)

(** ** Urgency scorer: totality and monotonicity *)


(** X1: the urgency scorer returns a pair for every scalar value of
    [due_date], of any type; when the value is not a string that parses
    as a date, the pair is [(1.0, "No deadline")]. *)
Theorem calculate_urgency_score_never_raises
    (today : Z) (fromisoformat : string -> option Z)
    (v : pyval) (max_score : Q) (crisis_mode : bool) :
  exists r,
    calculate_urgency_score today fromisoformat v max_score crisis_mode = Ok r
    /\ ((forall s, v = VStr s -> fromisoformat s = None) ->
        r = (1.0%Q, "No deadline")).
Proof.
  unfold calculate_urgency_score, parse_date.
  destruct v as [ | b | z | q | s]; try (eexists; split; [reflexivity | auto]).
  destruct (fromisoformat s) as [d | ] eqn:E.
  - eexists. split; [reflexivity | ]. intros H.
    specialize (H s eq_refl). congruence.
  - eexists. split; [reflexivity | auto].
Qed.

Lemma Qmaxq_spec (a b : Q) :
  (b <= a /\ Qmaxq a b = a)%Q \/ (a < b /\ Qmaxq a b = b)%Q.
Proof.
  unfold Qmaxq. destruct (Qle_bool b a) eqn:E.
  - left. split; [apply Qle_bool_iff; exact E | reflexivity].
  - right. split; [ | reflexivity].
    apply Qnot_le_lt. intros H. apply Qle_bool_iff in H. congruence.
Qed.

Ltac z_tests :=
  repeat match goal with
  | |- context [(?a <? ?b)%Z] =>
      let E := fresh "E" in
      destruct (a <? b)%Z eqn:E;
      [apply Z.ltb_lt in E | apply Z.ltb_ge in E]
  | |- context [(?a =? ?b)%Z] =>
      let E := fresh "E" in
      destruct (a =? b)%Z eqn:E;
      [apply Z.eqb_eq in E | apply Z.eqb_neq in E]
  | |- context [(?a <=? ?b)%Z] =>
      let E := fresh "E" in
      destruct (a <=? b)%Z eqn:E;
      [apply Z.leb_le in E | apply Z.leb_gt in E]
  end.

Lemma urgency_of_days_antitone (d1 d2 : Z) (max_score : Q) (crisis : bool) :
  (d1 <= d2)%Z -> (0 <= max_score)%Q -> (max_score <= 15)%Q ->
  (fst (urgency_of_days d2 max_score crisis)
   <= fst (urgency_of_days d1 max_score crisis))%Q.
Proof.
  intros Hd H0 H15. unfold urgency_of_days.
  assert (Hp1 : (0 <= inject_Z (Z.abs d1))%Q).
  { change 0%Q with (inject_Z 0). rewrite <- Zle_Qle. lia. }
  assert (Hp2 : (0 <= inject_Z (Z.abs d2))%Q).
  { change 0%Q with (inject_Z 0). rewrite <- Zle_Qle. lia. }
  assert (Hpp : (d2 < 0)%Z -> (inject_Z (Z.abs d2) <= inject_Z (Z.abs d1))%Q).
  { intros. rewrite <- Zle_Qle. lia. }
  destruct crisis; z_tests; cbn [fst]; try lia;
    repeat match goal with
    | |- context [Qminq ?a ?b] =>
        let L := fresh "L" in
        destruct (Qminq_spec a b) as [[L ->] | [L ->]]
    end;
    try specialize (Hpp ltac:(assumption)); lra.
Qed.

(** X2: with a maximum score between 0 and 15, a later due date never
    gets a higher urgency score than an earlier one, in normal and in
    crisis mode. *)
Theorem calculate_urgency_score_later_never_higher
    (today : Z) (fromisoformat : string -> option Z)
    (d1 d2 : string) (due1 due2 : Z) (max_score : Q) (crisis_mode : bool) :
  fromisoformat d1 = Some due1 -> fromisoformat d2 = Some due2 ->
  (due1 <= due2)%Z -> (0 <= max_score)%Q -> (max_score <= 15)%Q ->
  exists r1 r2,
    calculate_urgency_score today fromisoformat (VStr d1) max_score
      crisis_mode = Ok r1
    /\ calculate_urgency_score today fromisoformat (VStr d2) max_score
         crisis_mode = Ok r2
    /\ (fst r2 <= fst r1)%Q.
Proof.
  intros H1 H2 Hd H0 H15.
  unfold calculate_urgency_score, parse_date. rewrite H1, H2.
  do 2 eexists. split; [reflexivity | split; [reflexivity | ]].
  apply urgency_of_days_antitone; [lia | assumption | assumption].
Qed.

Lemma calculate_urgency_score_later_never_higher_witness :
  exists r1 r2,
    calculate_urgency_score Runtime.today Runtime.fromisoformat
      (VStr "2025-06-10") 10.0 true = Ok r1
    /\ calculate_urgency_score Runtime.today Runtime.fromisoformat
         (VStr "2025-07-30") 10.0 true = Ok r2
    /\ (fst r2 <= fst r1)%Q.
Proof.
  apply (calculate_urgency_score_later_never_higher Runtime.today
           Runtime.fromisoformat "2025-06-10" "2025-07-30"
           (Runtime.ordinal 2025 6 10) (Runtime.ordinal 2025 7 30) 10.0 true).
  - reflexivity.
  - reflexivity.
  - vm_compute. discriminate.
  - vm_compute. discriminate.
  - vm_compute. discriminate.
Defined.

(** ** Effort scorer: range and monotonicity *)

Lemma energy_modifier_range (energy : pyval) :
  (0.7 <= energy_modifier_of energy /\ energy_modifier_of energy <= 1.3)%Q.
Proof.
  unfold energy_modifier_of.
  destruct (py_eqb (VStr "low") energy);
    [ | destruct (py_eqb (VStr "medium") energy);
        [ | destruct (py_eqb (VStr "high") energy)]];
    split; vm_compute; discriminate.
Qed.

Section Effort.

Variable float_of_str : string -> option Q.
Variable pow15 : Q -> Q.



(** X4: for positive durations given as floats, a longer task never
    gets a higher effort score than a shorter one, under every strategy
    and energy level, as long as [h ** 1.5] does not decrease between
    the two durations. *)
Theorem calculate_effort_score_shorter_never_lower
    (h1 h2 : Q) (strategy : string) (energy : pyval) :
  (0 < h1)%Q -> (h1 <= h2)%Q -> (pow15 h1 <= pow15 h2)%Q ->
  exists s1 s2 l1 l2,
    calculate_effort_score float_of_str pow15 (VFloat h1) strategy energy
    = Ok (s1, l1)
    /\ calculate_effort_score float_of_str pow15 (VFloat h2) strategy energy
       = Ok (s2, l2)
    /\ (s2 <= s1)%Q.
Proof.
  intros H1 H12 Hp. unfold calculate_effort_score. simpl py_float. cbv iota.
  assert (E1 : Qle_bool h1 0 = false).
  { destruct (Qle_bool h1 0) eqn:E; [ | reflexivity].
    apply Qle_bool_iff in E. lra. }
  assert (E2 : Qle_bool h2 0 = false).
  { destruct (Qle_bool h2 0) eqn:E; [ | reflexivity].
    apply Qle_bool_iff in E. lra. }
  rewrite E1, E2.
  destruct (energy_modifier_range energy) as [Em1 Em2].
  destruct (String.eqb strategy "fast_wins");
    [ | destruct (String.eqb strategy "high_impact");
        [ | destruct (String.eqb strategy "deadline_driven")]];
    do 4 eexists; (split; [reflexivity | split; [reflexivity | ]]);
    repeat match goal with
    | |- context [Qmaxq ?a ?b] =>
        let L := fresh "L" in
        destruct (Qmaxq_spec a b) as [[L ->] | [L ->]]
    end; nra.
Qed.

End Effort.

Lemma calculate_effort_score_shorter_never_lower_witness :
  exists s1 s2 l1 l2,
    calculate_effort_score Runtime.float_of_str Runtime.pow15 (VFloat 1)
      "fast_wins" (VStr "high") = Ok (s1, l1)
    /\ calculate_effort_score Runtime.float_of_str Runtime.pow15 (VFloat 4)
         "fast_wins" (VStr "high") = Ok (s2, l2)
    /\ (s2 <= s1)%Q.
Proof.
  apply (calculate_effort_score_shorter_never_lower Runtime.float_of_str
           Runtime.pow15 1 4 "fast_wins" (VStr "high")).
  - reflexivity.
  - vm_compute. discriminate.
  - vm_compute. discriminate.
Defined.

(** ** Strategy composer: range, defaults and overrides *)

Lemma round_half_even_bounds (q : Q) (lo hi : Z) :
  (inject_Z lo <= q)%Q -> (q <= inject_Z hi)%Q ->
  (lo <= round_half_even q <= hi)%Z.
Proof.
  destruct q as [n d]. unfold Qle, round_half_even.
  cbn [Qnum Qden inject_Z]. rewrite !Z.mul_1_r. intros Hlo Hhi.
  pose proof (Z.div_mod n (Zpos d) ltac:(lia)) as Hdm.
  pose proof (Z.mod_pos_bound n (Zpos d) ltac:(lia)) as Hr.
  set (f := (n / Zpos d)%Z) in *. set (r := (n mod Zpos d)%Z) in *.
  clearbody f r.
  assert (Hf1 : (lo <= f)%Z) by nia.
  assert (Hf2 : (f <= hi)%Z) by nia.
  assert (Hf3 : (0 < r -> f + 1 <= hi)%Z).
  { intros Hr0.
    assert (Hlt : (Z.pos d * f < Z.pos d * hi)%Z) by lia.
    apply Z.mul_lt_mono_pos_l in Hlt; lia. }
  destruct (2 * r ?= Zpos d)%Z eqn:C.
  - apply Z.compare_eq in C. destruct (Z.even f); lia.
  - lia.
  - apply Z.compare_gt_iff in C. lia.
Qed.

Lemma round_digits_bounds (q : Q) (scale : positive) (lo hi : Z) :
  (inject_Z lo <= q)%Q -> (q <= inject_Z hi)%Q ->
  (inject_Z lo <= round_digits q scale
   /\ round_digits q scale <= inject_Z hi)%Q.
Proof.
  intros Hlo Hhi. unfold round_digits.
  assert (B : (lo * Zpos scale <= round_half_even (q * inject_Z (Zpos scale))
               <= hi * Zpos scale)%Z).
  { apply round_half_even_bounds.
    - rewrite inject_Z_mult. apply Qmult_le_compat_r; [exact Hlo | ].
      unfold Qle. simpl. lia.
    - rewrite inject_Z_mult. apply Qmult_le_compat_r; [exact Hhi | ].
      unfold Qle. simpl. lia. }
  unfold Qle. simpl. lia.
Qed.

Section Composer.

Variable today : Z.
Variable fromisoformat : string -> option Z.
Variable float_of_str : string -> option Q.
Variable pow15 : Q -> Q.






(** X7: under ["high_impact"] and ["deadline_driven"] the user
    preferences, scalars as they are here, play no part in what
    [score_task] returns. *)
Theorem score_task_energy_independent (t : task) (strategy : string)
    (cfg : option config) (all_tasks : option (list task))
    (prefs1 prefs2 : option preferences) :
  strategy = "high_impact" \/ strategy = "deadline_driven" ->
  score_task today fromisoformat float_of_str pow15 t strategy cfg all_tasks
    prefs1
  = score_task today fromisoformat float_of_str pow15 t strategy cfg
      all_tasks prefs2.
Proof.
  intros Hs. unfold score_task.
  assert (He : forall hv e1 e2,
             calculate_effort_score float_of_str pow15 hv strategy e1
             = calculate_effort_score float_of_str pow15 hv strategy e2).
  { intros hv e1 e2. unfold calculate_effort_score.
    destruct Hs as [-> | ->]; reflexivity. }
  destruct (missing_fields t); [ | reflexivity].
  destruct (getitem (due_date t)); cbn [bind]; try reflexivity.
  destruct (calculate_urgency_score _ _ _ _ _); cbn [bind]; try reflexivity.
  destruct (py_float _ _); cbn [bind]; try reflexivity.
  destruct (getitem (estimated_hours t)); cbn [bind]; try reflexivity.
  rewrite (He a2 _ (VStr "medium")). symmetry.
  rewrite (He a2 _ (VStr "medium")). reflexivity.
Qed.

(** X8: a strategy name that is none of ["fast_wins"], ["high_impact"]
    and ["deadline_driven"] is scored exactly as ["smart_balance"]. *)
Theorem score_task_unknown_strategy (t : task) (strategy : string)
    (cfg : option config) (all_tasks : option (list task))
    (prefs : option preferences) :
  strategy <> "fast_wins" -> strategy <> "high_impact" ->
  strategy <> "deadline_driven" ->
  score_task today fromisoformat float_of_str pow15 t strategy cfg all_tasks
    prefs
  = score_task today fromisoformat float_of_str pow15 t "smart_balance" cfg
      all_tasks prefs.
Proof.
  intros H1 H2 H3.
  apply String.eqb_neq in H1, H2, H3.
  unfold score_task, calculate_effort_score, strategy_table.
  rewrite H1, H2, H3. reflexivity.
Qed.

Lemma config_get_absent (cfg : config) (key : string) (default : weights) :
  (forall w, ~ In (key, w) cfg) -> config_get cfg key default = default.
Proof.
  induction cfg as [ | [k w] cfg IH]; intros H; simpl; [reflexivity | ].
  destruct (String.eqb k key) eqn:E.
  - apply String.eqb_eq in E. subst. exfalso. apply (H w). left. reflexivity.
  - apply IH. intros w' Hin. apply (H w'). right. exact Hin.
Qed.

(** X9: a configuration without an entry under the weights key of the
    strategy changes nothing: entries for other strategies are
    ignored. *)
Theorem score_task_foreign_overrides (t : task) (strategy : string)
    (cfg : config) (all_tasks : option (list task))
    (prefs : option preferences) :
  (forall w, ~ In (weights_key strategy, w) cfg) ->
  score_task today fromisoformat float_of_str pow15 t strategy (Some cfg)
    all_tasks prefs
  = score_task today fromisoformat float_of_str pow15 t strategy None
      all_tasks prefs.
Proof.
  intros H. unfold score_task, strategy_table, weights_key in *.
  destruct (String.eqb strategy "fast_wins");
    [ | destruct (String.eqb strategy "high_impact");
        [ | destruct (String.eqb strategy "deadline_driven")]];
    rewrite (config_get_absent cfg _ _ H); reflexivity.
Qed.

End Composer.



Lemma score_task_energy_independent_witness :
  score_task Runtime.today Runtime.fromisoformat Runtime.float_of_str
    Runtime.pow15 ScoreExamples.invoice "high_impact" None None
    (Some ScoreExamples.low_energy)
  = score_task Runtime.today Runtime.fromisoformat Runtime.float_of_str
      Runtime.pow15 ScoreExamples.invoice "high_impact" None None None.
Proof.
  apply (score_task_energy_independent Runtime.today Runtime.fromisoformat
           Runtime.float_of_str Runtime.pow15 ScoreExamples.invoice
           "high_impact" None None (Some ScoreExamples.low_energy) None).
  left. reflexivity.
Defined.

Lemma score_task_unknown_strategy_witness :
  score_task Runtime.today Runtime.fromisoformat Runtime.float_of_str
    Runtime.pow15 ScoreExamples.invoice "eisenhower" None None None
  = score_task Runtime.today Runtime.fromisoformat Runtime.float_of_str
      Runtime.pow15 ScoreExamples.invoice "smart_balance" None None None.
Proof.
  apply (score_task_unknown_strategy Runtime.today Runtime.fromisoformat
           Runtime.float_of_str Runtime.pow15 ScoreExamples.invoice
           "eisenhower" None None None);
    discriminate.
Defined.

Lemma score_task_foreign_overrides_witness :
  score_task Runtime.today Runtime.fromisoformat Runtime.float_of_str
    Runtime.pow15 ScoreExamples.invoice "high_impact"
    (Some ScoreExamples.speed_only) None None
  = score_task Runtime.today Runtime.fromisoformat Runtime.float_of_str
      Runtime.pow15 ScoreExamples.invoice "high_impact" None None None.
Proof.
  apply (score_task_foreign_overrides Runtime.today Runtime.fromisoformat
           Runtime.float_of_str Runtime.pow15 ScoreExamples.invoice
           "high_impact" ScoreExamples.speed_only None None).
  intros w [C | []]. discriminate.
Defined.

(** ** Analysis orchestrator: rows, warnings and insights *)

Section Insights.

Variable today : Z.
Variable fromisoformat : string -> option Z.
Variable float_of_str : string -> option Q.
Variable pow15 : Q -> Q.

Lemma try_score_reports (all_tasks : list task) (strategy : string)
    (cfg : option config) (p : preferences) (t : task)
    (row : scored_task) (h : Q) :
  try_score today fromisoformat float_of_str pow15 all_tasks strategy cfg p t
  = Ok (row, h) ->
  st_task row = t
  /\ row_reports today fromisoformat float_of_str pow15 all_tasks strategy
       cfg p row
  /\ can_complete_today row = None.
Proof.
  unfold try_score, row_reports. intros H.
  destruct (score_task today fromisoformat float_of_str pow15 t strategy cfg
              (Some all_tasks) (Some p)) as [[[sc rsn] m] | e | ] eqn:E;
    cbn [bind] in H; try discriminate.
  destruct (task_hours float_of_str t) as [h' | e | ];
    cbn [bind] in H; try discriminate.
  injection H as <- _. simpl. rewrite E. auto.
Qed.

Lemma score_all_shape (all_tasks : list task) (strategy : string)
    (cfg : option config) (p : preferences) (tasks : list task) :
  forall acc acc',
    score_all today fromisoformat float_of_str pow15 all_tasks strategy cfg p
      tasks acc = Ok acc' ->
    exists rows ws,
      scored_tasks acc' = (scored_tasks acc ++ rows)%list
      /\ acc_warnings acc' = (acc_warnings acc ++ ws)%list
      /\ map st_task rows
         = filter (scorable today fromisoformat float_of_str pow15
                     all_tasks strategy cfg p) tasks
      /\ Forall (row_reports today fromisoformat float_of_str pow15 all_tasks
                   strategy cfg p) rows
      /\ forallb is_scoring_warning ws = true
      /\ (List.length rows + List.length ws = List.length tasks)%nat.
Proof.
  induction tasks as [ | t ts IH]; intros acc acc' H; simpl in H.
  - injection H as <-. exists [], []. rewrite !app_nil_r.
    repeat split; auto.
  - unfold scorable. simpl filter.
    destruct (try_score today fromisoformat float_of_str pow15 all_tasks
                strategy cfg p t) as [[row h] | e | ] eqn:E; try discriminate.
    + destruct (IH _ _ H) as (rows & ws & Hr & Hw & Hm & Hf & Hs & Hl).
      destruct (try_score_reports _ _ _ _ _ _ _ E) as (Ht & Hrep & _).
      exists (row :: rows), ws. simpl in Hr, Hw.
      rewrite <- app_assoc in Hr. simpl in Hr.
      repeat split; auto.
      * simpl. rewrite Ht. f_equal. exact Hm.
      * simpl. lia.
    + destruct (IH _ _ H) as (rows & ws & Hr & Hw & Hm & Hf & Hs & Hl).
      exists rows, (WScoring match title t with
                             | Some v => v
                             | None => VStr "Unknown"
                             end e :: ws).
      simpl in Hr, Hw. rewrite <- app_assoc in Hw. simpl in Hw.
      repeat split; auto. simpl. lia.
Qed.

(** Everything [analyze_tasks] computes on a non-empty batch. *)
Lemma analyze_tasks_shape (tasks : list task) (strategy : string)
    (cfg : option config) (prefs : option preferences) (r : analysis) :
  tasks <> [] ->
  analyze_tasks today fromisoformat float_of_str pow15 tasks strategy cfg
    prefs = Ok r ->
  exists titles w0 acc rows c k ov ratio,
    detect_circular_dependencies tasks = Ok titles
    /\ filter is_scoring_warning w0 = []
    /\ (titles = [] -> w0 = [])
    /\ score_all today fromisoformat float_of_str pow15 tasks strategy cfg
         (prefs_of prefs) tasks (mkAcc [] 0 w0) = Ok acc
    /\ feasibility_walk float_of_str (available_of prefs)
         (sort_by_score (scored_tasks acc)) 0 O = Ok (rows, c, k)
    /\ overdue_count today fromisoformat tasks = Ok ov
    /\ productivity_of c (available_of prefs) = Ok ratio
    /\ r = mkAnalysis rows strategy (Some (strategy_description_of strategy))
             (List.length rows) (Some titles) (acc_warnings acc)
             (Some (mkInsights (round1 (total_hours acc))
                      (available_of prefs) k (round1 c) ov
                      (urgent_count rows)
                      match energy_level (prefs_of prefs) with
                      | Some v => v
                      | None => VStr "medium"
                      end ratio))
             (Some (prefs_of prefs)).
Proof.
  intros Hne H. unfold analyze_tasks in H. fold (prefs_of prefs) in H.
  destruct tasks as [ | t ts]; [congruence | ].
  remember (t :: ts) as batch eqn:Et. clear Et Hne t ts.
  destruct (detect_circular_dependencies batch) as [cd | e | ];
    cbn [bind] in H; try discriminate.
  assert (Hav : match available_hours (prefs_of prefs) with
                | Some v => v
                | None => VInt 8
                end = available_of prefs).
  { unfold available_of, prefs_of.
    destruct prefs as [[[v | ] ?] | ]; reflexivity. }
  rewrite Hav in H.
  match type of H with
  | bind ?w0 _ = _ => destruct w0 as [warnings0 | e | ] eqn:Ew0
  end; cbn [bind] in H; try discriminate.
  destruct (score_all today fromisoformat float_of_str pow15 batch strategy
              cfg (prefs_of prefs) batch (mkAcc [] 0 warnings0))
    as [acc | e | ] eqn:Es; cbn [bind] in H; try discriminate.
  destruct (feasibility_walk float_of_str (available_of prefs)
              (sort_by_score (scored_tasks acc)) 0 0)
    as [[[rows c] k] | e | ] eqn:Ew; cbn [bind] in H; try discriminate.
  destruct (overdue_count today fromisoformat batch) as [ov | e | ];
    cbn [bind] in H; try discriminate.
  destruct (productivity_of c (available_of prefs)) as [ratio | e | ] eqn:Ep;
    cbn [bind] in H; try discriminate.
  injection H as <-.
  exists cd, warnings0, acc, rows, c, k, ov, ratio.
  split; [reflexivity | ].
  split; [ | split; [ | repeat split; auto]].
  - destruct cd as [ | x xs].
    + injection Ew0 as <-. reflexivity.
    + destruct (as_strings (x :: xs)); cbn [bind] in Ew0; try discriminate.
      injection Ew0 as <-. reflexivity.
  - intros ->. injection Ew0 as <-. reflexivity.
Qed.

End Insights.

Lemma urgency_label_overdue (d : Z) (m : Q) (c : bool) :
  String.eqb (snd (urgency_of_days d m c)) "OVERDUE" = (d <? 0)%Z.
Proof.
  unfold urgency_of_days. z_tests; reflexivity.
Qed.

Lemma walk_rows_length (rows sts : list scored_task) :
  Forall2 (fun row st => exists b, row = set_can_complete b st) rows sts ->
  List.length rows = List.length sts.
Proof. induction 1; simpl; congruence. Qed.

Lemma walk_rows_fields (rows sts : list scored_task) (P : scored_task -> Prop) :
  (forall b st, P st -> P (set_can_complete b st)) ->
  Forall2 (fun row st => exists b, row = set_can_complete b st) rows sts ->
  Forall P sts -> Forall P rows.
Proof.
  intros HP H. induction H as [ | row st rows sts [b ->] _ IH]; intros HF.
  - constructor.
  - inversion HF; subst. constructor; auto.
Qed.

Lemma walk_rows_tasks (rows sts : list scored_task) :
  Forall2 (fun row st => exists b, row = set_can_complete b st) rows sts ->
  map st_task rows = map st_task sts
  /\ Forall (fun row => exists b, can_complete_today row = Some b) rows.
Proof.
  induction 1 as [ | row st rows sts [b ->] _ [IH1 IH2]]; simpl.
  - auto.
  - split; [rewrite IH1; reflexivity | ].
    constructor; [exists b; reflexivity | exact IH2].
Qed.

Section Report.

Variable today : Z.
Variable fromisoformat : string -> option Z.
Variable float_of_str : string -> option Q.
Variable pow15 : Q -> Q.

Lemma feasibility_walk_count (available : pyval) (a : Q) :
  num_of available = Some a ->
  forall sts c0 k0 rows c k,
    feasibility_walk float_of_str available sts c0 k0 = Ok (rows, c, k) ->
    k = (k0 + List.length (filter is_completable rows))%nat
    /\ ((c0 <= a)%Q \/ c0 = 0%Q -> (c <= a)%Q \/ c = 0%Q).
Proof.
  intros Ha.
  induction sts as [ | st rest IH]; intros c0 k0 rows c k H; simpl in H.
  - injection H as <- <- <-. simpl. split; [lia | auto].
  - destruct (task_hours float_of_str (st_task st)) as [h | e | ];
      cbn [bind] in H; try discriminate.
    unfold le_pref in H. rewrite Ha in H. cbn [bind] in H.
    destruct (Qle_bool (c0 + h) a) eqn:Efit.
    + destruct (feasibility_walk float_of_str available rest (c0 + h)%Q
                  (S k0)) as [[[rows' c'] k'] | e | ] eqn:Ew;
        cbn [bind] in H; try discriminate.
      injection H as <- <- <-.
      destruct (IH _ _ _ _ _ Ew) as [Hk Hc].
      split.
      * cbn [filter].
        change (is_completable (set_can_complete true st)) with true.
        cbn [List.length]. lia.
      * intros _. apply Hc. left. apply Qle_bool_iff. exact Efit.
    + destruct (feasibility_walk float_of_str available rest c0 k0)
        as [[[rows' c'] k'] | e | ] eqn:Ew;
        cbn [bind] in H; try discriminate.
      injection H as <- <- <-.
      destruct (IH _ _ _ _ _ Ew) as [Hk Hc].
      split; [ | exact Hc].
      cbn [filter].
      change (is_completable (set_can_complete false st)) with false.
      exact Hk.
Qed.

Lemma overdue_count_labelled (tasks : list task) (n : nat) :
  overdue_count today fromisoformat tasks = Ok n ->
  n = List.length (filter (labelled_overdue today fromisoformat) tasks).
Proof.
  revert n. induction tasks as [ | t ts IH]; intros n H; simpl in H.
  - injection H as <-. reflexivity.
  - unfold labelled_overdue at 1. simpl filter.
    unfold calculate_urgency_score.
    destruct (due_date t) as [v | ] eqn:Ev.
    + destruct (parse_date fromisoformat v) as [d | e | ] eqn:Ep;
        cbn [bind] in H; try discriminate.
      destruct (overdue_count today fromisoformat ts) as [m | e | ];
        cbn [bind] in H; try discriminate.
      injection H as <-.
      pose proof (urgency_label_overdue (d - today) 10.0 false) as L.
      destruct (urgency_of_days (d - today) 10.0 false) as [s l].
      simpl in L. rewrite L.
      replace (d - today <? 0)%Z with (d <? today)%Z
        by (destruct (Z.ltb_spec d today), (Z.ltb_spec (d - today) 0); lia).
      destruct (d <? today)%Z; simpl; rewrite (IH m eq_refl); reflexivity.
    + cbn [bind] in H.
      destruct (overdue_count today fromisoformat ts) as [m | e | ];
        cbn [bind] in H; try discriminate.
      injection H as <-. rewrite Z.ltb_irrefl. apply IH. reflexivity.
Qed.

End Report.


Lemma priority_of_urgent (sc : Q) :
  String.eqb (priority_of sc) "Critical" || String.eqb (priority_of sc) "High"
  = Qle_bool 7 sc.
Proof.
  unfold priority_of.
  destruct (Qle_bool 9 sc) eqn:E9.
  - apply Qle_bool_iff in E9. symmetry. apply Qle_bool_iff. lra.
  - destruct (Qle_bool 7 sc); [reflexivity | ].
    destruct (Qle_bool 5 sc); reflexivity.
Qed.

Section Analysis.

Variable today : Z.
Variable fromisoformat : string -> option Z.
Variable float_of_str : string -> option Q.
Variable pow15 : Q -> Q.

Local Abbreviation analyze_tasks :=
  (analyze_tasks today fromisoformat float_of_str pow15).

Lemma analyze_tasks_empty (strategy : string) (cfg : option config)
    (prefs : option preferences) :
  analyze_tasks [] strategy cfg prefs
  = Ok (mkAnalysis [] strategy None O None
          [WText "No tasks provided for analysis"] None None).
Proof. reflexivity. Qed.

(** What the rows of a result are, for a non-empty batch. *)
Lemma analyze_tasks_rows (tasks : list task) (strategy : string)
    (cfg : option config) (prefs : option preferences) (r : analysis) :
  tasks <> [] ->
  analyze_tasks tasks strategy cfg prefs = Ok r ->
  exists scored ws,
    Forall2 (fun row st => exists b, row = set_can_complete b st)
      (analyzed_tasks r) (sort_by_score scored)
    /\ map st_task scored
       = filter (scorable today fromisoformat float_of_str pow15 tasks
                   strategy cfg (prefs_of prefs)) tasks
    /\ Forall (row_reports today fromisoformat float_of_str pow15 tasks
                 strategy cfg (prefs_of prefs)) scored
    /\ (List.length scored + List.length ws = List.length tasks)%nat
    /\ filter is_scoring_warning (warnings r) = ws
    /\ total_tasks r = List.length (analyzed_tasks r).
Proof.
  intros Hne H.
  destruct (analyze_tasks_shape today fromisoformat float_of_str pow15
              tasks strategy cfg prefs r Hne H)
    as (titles & w0 & acc & rows & c & k & ov & ratio
        & _ & Hw0 & _ & Hs & Hw & _ & _ & ->).
  destruct (score_all_shape today fromisoformat float_of_str pow15 tasks
              strategy cfg (prefs_of prefs) tasks _ _ Hs)
    as (scored & ws & Hr & Hws & Hm & Hf & Hsw & Hl).
  simpl in Hr, Hws. rewrite Hr in Hw.
  exists scored, ws. cbn [analyzed_tasks warnings total_tasks].
  repeat split; auto.
  - eapply feasibility_walk_rows. exact Hw.
  - rewrite Hws, filter_app, Hw0. simpl.
    clear - Hsw. induction ws as [ | w ws IH]; [reflexivity | ].
    simpl in *. apply andb_true_iff in Hsw. destruct Hsw as [-> Hsw].
    rewrite IH; auto.
Qed.

(** X10: every task of the batch is accounted for once: the number of
    rows, which is [total_tasks], plus the number of scoring warnings is
    the size of the batch. *)
Theorem analyze_tasks_accounting (tasks : list task) (strategy : string)
    (cfg : option config) (prefs : option preferences) (r : analysis) :
  analyze_tasks tasks strategy cfg prefs = Ok r ->
  (total_tasks r + List.length (filter is_scoring_warning (warnings r))
   = List.length tasks)%nat.
Proof.
  intros H. destruct tasks as [ | t ts].
  - rewrite analyze_tasks_empty in H. injection H as <-. reflexivity.
  - destruct (analyze_tasks_rows (t :: ts) strategy cfg prefs r)
      as (scored & ws & Hf2 & _ & _ & Hl & Hws & Ht);
      [discriminate | exact H | ].
    rewrite Ht, Hws, (walk_rows_length _ _ Hf2).
    rewrite (Permutation_length (sort_by_score_permutation scored)).
    exact Hl.
Qed.

(** X11: every row of the result is about a task of the batch, carries
    the score, the reason and the metadata [score_task] returns for that
    task, has the priority level of its score, and carries the
    completable-today flag. *)
Theorem analyze_tasks_rows_report (tasks : list task) (strategy : string)
    (cfg : option config) (prefs : option preferences) (r : analysis)
    (row : scored_task) :
  analyze_tasks tasks strategy cfg prefs = Ok r ->
  In row (analyzed_tasks r) ->
  In (st_task row) tasks
  /\ score_task today fromisoformat float_of_str pow15 (st_task row) strategy
       cfg (Some tasks) (Some (prefs_of prefs))
     = Ok (score row, reason row, md row)
  /\ priority_level row = priority_of (score row)
  /\ exists b, can_complete_today row = Some b.
Proof.
  intros H Hin. destruct tasks as [ | t ts].
  - rewrite analyze_tasks_empty in H. injection H as <-. destruct Hin.
  - destruct (analyze_tasks_rows (t :: ts) strategy cfg prefs r)
      as (scored & ws & Hf2 & Hm & Hrep & _ & _ & _);
      [discriminate | exact H | ].
    destruct (walk_rows_tasks _ _ Hf2) as [Htasks Hflags].
    assert (Hrows : Forall (row_reports today fromisoformat float_of_str
                              pow15 (t :: ts) strategy cfg (prefs_of prefs))
                      (analyzed_tasks r)).
    { eapply walk_rows_fields; [ | exact Hf2 | ].
      - intros b st Hst. exact Hst.
      - apply sort_by_score_Forall. exact Hrep. }
    rewrite Forall_forall in Hrows, Hflags.
    destruct (Hrows row Hin) as [Hs Hp].
    repeat split; auto.
    assert (Hin' : In (st_task row) (map st_task (analyzed_tasks r)))
      by (apply in_map; exact Hin).
    rewrite Htasks in Hin'.
    apply (Permutation_in _ (Permutation_map st_task
                               (sort_by_score_permutation scored))) in Hin'.
    rewrite Hm in Hin'. apply filter_In in Hin'. tauto.
Qed.

(** X12: the tasks of the rows are, up to order, exactly the tasks of
    the batch whose scoring succeeded. *)
Theorem analyze_tasks_rows_permutation (tasks : list task)
    (strategy : string) (cfg : option config) (prefs : option preferences)
    (r : analysis) :
  analyze_tasks tasks strategy cfg prefs = Ok r ->
  Permutation (map st_task (analyzed_tasks r))
    (filter (scorable today fromisoformat float_of_str pow15 tasks strategy
               cfg (prefs_of prefs)) tasks).
Proof.
  intros H. destruct tasks as [ | t ts].
  - rewrite analyze_tasks_empty in H. injection H as <-. constructor.
  - destruct (analyze_tasks_rows (t :: ts) strategy cfg prefs r)
      as (scored & ws & Hf2 & Hm & _); [discriminate | exact H | ].
    destruct (walk_rows_tasks _ _ Hf2) as [-> _].
    rewrite <- Hm. apply Permutation_map. apply sort_by_score_permutation.
Qed.

(** X13: on a non-empty batch the insights agree with the rest of
    the result: [tasks_completable_today] counts the rows flagged
    completable, [overdue_tasks] the tasks of the batch whose due date
    the urgency scorer labels OVERDUE, [urgent_tasks] the rows of level
    Critical or High, and [productivity_ratio] never exceeds 100. *)
Theorem analyze_tasks_insights (tasks : list task) (strategy : string)
    (cfg : option config) (prefs : option preferences) (r : analysis) :
  tasks <> [] ->
  analyze_tasks tasks strategy cfg prefs = Ok r ->
  exists i,
    ins r = Some i
    /\ tasks_completable_today i
       = List.length (filter is_completable (analyzed_tasks r))
    /\ overdue_tasks i
       = List.length (filter (labelled_overdue today fromisoformat) tasks)
    /\ urgent_tasks i
       = List.length (filter is_urgent_tier (analyzed_tasks r))
    /\ (productivity_ratio i <= 100)%Q.
Proof.
  intros Hne H.
  destruct (analyze_tasks_rows tasks strategy cfg prefs r Hne H)
    as (scored & ws & Hf2 & _ & Hrep & _ & _ & _).
  destruct (analyze_tasks_shape today fromisoformat float_of_str pow15
              tasks strategy cfg prefs r Hne H)
    as (titles & w0 & acc & rows & c & k & ov & ratio
        & _ & _ & _ & _ & Hw & Ho & Hp & ->).
  cbn [analyzed_tasks] in Hf2.
  eexists. split; [reflexivity | ].
  cbn [tasks_completable_today overdue_tasks urgent_tasks productivity_ratio
         analyzed_tasks].
  unfold productivity_of, pref_positive in Hp.
  destruct (num_of (available_of prefs)) as [a | ] eqn:Ea;
    cbn [bind] in Hp; try discriminate.
  destruct (feasibility_walk_count float_of_str (available_of prefs) a Ea
              _ _ _ _ _ _ Hw) as [Hk Hc].
  split; [exact Hk | ].
  split; [apply overdue_count_labelled; exact Ho | ].
  split.
  - unfold urgent_count. f_equal.
    assert (Hrows : Forall (fun row => priority_level row
                                       = priority_of (score row)) rows).
    { eapply walk_rows_fields; [ | exact Hf2 | ].
      - intros b st Hst. exact Hst.
      - apply sort_by_score_Forall.
        eapply Forall_impl; [ | exact Hrep]. intros x [_ Hx]. exact Hx. }
    clear - Hrows. induction Hrows as [ | row rows Hrow _ IH];
      [reflexivity | ].
    simpl. unfold is_urgent_tier at 1.
    rewrite Hrow, priority_of_urgent, IH. reflexivity.
  - destruct (negb (Qle_bool a 0)) eqn:Epos.
    + injection Hp as <-.
      assert (Ha : (0 < a)%Q).
      { apply negb_true_iff in Epos. apply Qnot_le_lt. intros C.
        apply Qle_bool_iff in C. congruence. }
      assert (Hq : (c / a * 100 <= inject_Z 100)%Q).
      { destruct (Hc (or_intror eq_refl)) as [Hle | ->].
        - assert (c / a <= 1)%Q.
          { apply Qle_shift_div_r; [exact Ha | lra]. }
          change (inject_Z 100) with 100%Q. lra.
        - unfold Qdiv. rewrite Qmult_0_l, Qmult_0_l.
          vm_compute. discriminate. }
      apply (round_digits_bounds _ 10 (Qfloor (c / a * 100)) 100).
      * apply Qfloor_le.
      * exact Hq.
    + injection Hp as <-. vm_compute. discriminate.
Qed.


End Analysis.

Lemma analyze_tasks_accounting_witness :
  exists r,
    analyze_tasks Runtime.today Runtime.fromisoformat Runtime.float_of_str
      Runtime.pow15 ReportExamples.mixed "smart_balance" None None = Ok r
    /\ (total_tasks r
        + List.length (filter is_scoring_warning (warnings r)) = 4)%nat.
Proof.
  assert (H : exists r,
             analyze_tasks Runtime.today Runtime.fromisoformat
               Runtime.float_of_str Runtime.pow15 ReportExamples.mixed
               "smart_balance" None None = Ok r)
    by (eexists; vm_compute; reflexivity).
  destruct H as (r & H). exists r. split; [exact H | ].
  apply (analyze_tasks_accounting Runtime.today Runtime.fromisoformat
           Runtime.float_of_str Runtime.pow15 ReportExamples.mixed
           "smart_balance" None None r H).
Defined.

Lemma analyze_tasks_rows_report_witness :
  exists r row,
    analyze_tasks Runtime.today Runtime.fromisoformat Runtime.float_of_str
      Runtime.pow15 ReportExamples.mixed "smart_balance" None None = Ok r
    /\ In row (analyzed_tasks r)
    /\ In (st_task row) ReportExamples.mixed
    /\ score_task Runtime.today Runtime.fromisoformat Runtime.float_of_str
         Runtime.pow15 (st_task row) "smart_balance" None
         (Some ReportExamples.mixed) (Some (prefs_of None))
       = Ok (score row, reason row, md row)
    /\ priority_level row = priority_of (score row)
    /\ exists b, can_complete_today row = Some b.
Proof.
  assert (H : exists r row,
             analyze_tasks Runtime.today Runtime.fromisoformat
               Runtime.float_of_str Runtime.pow15 ReportExamples.mixed
               "smart_balance" None None = Ok r
             /\ hd_error (analyzed_tasks r) = Some row)
    by (do 2 eexists; split; vm_compute; reflexivity).
  destruct H as (r & row & H & Hhd).
  assert (Hin : In row (analyzed_tasks r)).
  { destruct (analyzed_tasks r) as [ | x xs]; [discriminate | ].
    injection Hhd as ->. left. reflexivity. }
  exists r, row. split; [exact H | split; [exact Hin | ]].
  apply (analyze_tasks_rows_report Runtime.today Runtime.fromisoformat
           Runtime.float_of_str Runtime.pow15 ReportExamples.mixed
           "smart_balance" None None r row H Hin).
Defined.

Lemma analyze_tasks_rows_permutation_witness :
  exists r,
    analyze_tasks Runtime.today Runtime.fromisoformat Runtime.float_of_str
      Runtime.pow15 ReportExamples.mixed "smart_balance" None None = Ok r
    /\ Permutation (map st_task (analyzed_tasks r))
         (filter (scorable Runtime.today Runtime.fromisoformat
                    Runtime.float_of_str Runtime.pow15 ReportExamples.mixed
                    "smart_balance" None (prefs_of None))
            ReportExamples.mixed).
Proof.
  assert (H : exists r,
             analyze_tasks Runtime.today Runtime.fromisoformat
               Runtime.float_of_str Runtime.pow15 ReportExamples.mixed
               "smart_balance" None None = Ok r)
    by (eexists; vm_compute; reflexivity).
  destruct H as (r & H). exists r. split; [exact H | ].
  apply (analyze_tasks_rows_permutation Runtime.today Runtime.fromisoformat
           Runtime.float_of_str Runtime.pow15 ReportExamples.mixed
           "smart_balance" None None r H).
Defined.

Lemma analyze_tasks_insights_witness :
  exists r i,
    analyze_tasks Runtime.today Runtime.fromisoformat Runtime.float_of_str
      Runtime.pow15 ReportExamples.mixed "deadline_driven" None
      (Some AnalysisExamples.five_hours) = Ok r
    /\ ins r = Some i
    /\ tasks_completable_today i
       = List.length (filter is_completable (analyzed_tasks r))
    /\ overdue_tasks i
       = List.length
           (filter (labelled_overdue Runtime.today Runtime.fromisoformat)
              ReportExamples.mixed)
    /\ urgent_tasks i
       = List.length (filter is_urgent_tier (analyzed_tasks r))
    /\ (productivity_ratio i <= 100)%Q.
Proof.
  assert (H : exists r,
             analyze_tasks Runtime.today Runtime.fromisoformat
               Runtime.float_of_str Runtime.pow15 ReportExamples.mixed
               "deadline_driven" None (Some AnalysisExamples.five_hours)
             = Ok r)
    by (eexists; vm_compute; reflexivity).
  destruct H as (r & H).
  destruct (analyze_tasks_insights Runtime.today Runtime.fromisoformat
              Runtime.float_of_str Runtime.pow15 ReportExamples.mixed
              "deadline_driven" None (Some AnalysisExamples.five_hours) r)
    as (i & Hi); [discriminate | exact H | ].
  exists r, i. split; [exact H | exact Hi].
Defined.


(** ** Cycle detector: what a reported title means *)

Lemma dict_mem_congr {V : Type} (m : dict V) (k d : pyval) :
  py_eqb k d = true -> dict_mem k m = dict_mem d m.
Proof.
  intros H. unfold dict_mem. rewrite (dict_get_congr m k d H). reflexivity.
Qed.

Lemma edge_congr (tm : dict task) (u u' v v' : pyval) :
  py_eqb u u' = true -> py_eqb v v' = true ->
  edge tm u v -> edge tm u' v'.
Proof.
  intros Hu Hv (t & Hg & Hin & Hm). exists t.
  rewrite <- (dict_get_congr tm u u' Hu).
  rewrite <- (py_in_congr v v' _ Hv), <- (dict_mem_congr tm v v' Hv). auto.
Qed.

Lemma reach_congr (tm : dict task) (u v : pyval) :
  reach tm u v ->
  forall u' v', py_eqb u u' = true -> py_eqb v v' = true -> reach tm u' v'.
Proof.
  induction 1 as [u v He | u w v _ IH1 _ IH2]; intros u' v' Hu Hv.
  - apply t_step. eapply edge_congr; eassumption.
  - apply t_trans with (y := w).
    + apply IH1; [exact Hu | apply py_eqb_refl].
    + apply IH2; [apply py_eqb_refl | exact Hv].
Qed.

Lemma py_in_In (x : pyval) (l : list pyval) : In x l -> py_in x l = true.
Proof.
  intros H. unfold py_in. apply existsb_exists. exists x.
  split; [exact H | apply py_eqb_refl].
Qed.

Lemma py_in_witness (x : pyval) (l : list pyval) :
  py_in x l = true -> exists y, In y l /\ py_eqb x y = true.
Proof. unfold py_in. apply existsb_exists. Qed.

Lemma linked_snoc (tm : dict task) (l : list pyval) (x y : pyval) :
  linked tm (l ++ [x]) -> edge tm x y -> linked tm ((l ++ [x]) ++ [y]).
Proof.
  intros H He. induction l as [ | a l IH]; simpl in *.
  - auto.
  - destruct H as [Ha Hl]. split; [ | apply IH; exact Hl].
    destruct l; simpl in *; exact Ha.
Qed.

Lemma linked_suffix (tm : dict task) (l1 l2 : list pyval) :
  linked tm (l1 ++ l2) -> linked tm l2.
Proof.
  induction l1 as [ | a l1 IH]; simpl; [auto | ].
  intros [_ H]. apply IH. exact H.
Qed.

(** Along a linked list every element reaches the last one, and the
    first one reaches every other. *)
Lemma linked_reach_last (tm : dict task) (l : list pyval) (k : pyval) :
  linked tm (l ++ [k]) -> forall x, In x l -> reach tm x k.
Proof.
  induction l as [ | a l IH]; intros H x Hx; [destruct Hx | ].
  simpl in H. destruct H as [Ha Hl].
  destruct l as [ | c l].
  - simpl in Ha. destruct Hx as [-> | []]. apply t_step. exact Ha.
  - simpl in Ha.
    assert (Hck : reach tm c k) by (apply IH; [exact Hl | left; reflexivity]).
    destruct Hx as [-> | Hx].
    + eapply t_trans; [apply t_step; exact Ha | exact Hck].
    + apply IH; assumption.
Qed.

Lemma linked_reach_first (tm : dict task) (l : list pyval) (y : pyval) :
  linked tm (y :: l) -> forall x, In x l -> reach tm y x.
Proof.
  revert y. induction l as [ | a l IH]; intros y H x Hx; [destruct Hx | ].
  destruct H as [Hya Hl].
  destruct Hx as [-> | Hx].
  - apply t_step. exact Hya.
  - eapply t_trans; [apply t_step; exact Hya | apply IH; assumption].
Qed.

Lemma list_index_split (x : pyval) (l : list pyval) (i : nat) :
  list_index x l = Some i ->
  exists l1 y l2, l = (l1 ++ y :: l2)%list /\ skipn i l = y :: l2
                  /\ py_eqb y x = true.
Proof.
  revert i. induction l as [ | a l IH]; intros i H; simpl in H;
    [discriminate | ].
  destruct (py_eqb a x) eqn:E.
  - injection H as <-. exists [], a, l. auto.
  - destruct (list_index x l) as [j | ] eqn:Ej; simpl in H; [ | discriminate].
    injection H as <-.
    destruct (IH j eq_refl) as (l1 & y & l2 & -> & Hs & Hy).
    exists (a :: l1), y, l2. auto.
Qed.

Lemma list_index_none (x : pyval) (l : list pyval) :
  list_index x l = None -> py_in x l = false.
Proof.
  induction l as [ | a l IH]; simpl; [reflexivity | ].
  destruct (py_eqb a x) eqn:E; [discriminate | ].
  destruct (list_index x l); simpl; [discriminate | ].
  intros _. rewrite py_eqb_sym, E. apply IH. reflexivity.
Qed.

Lemma set_add_in (k x : pyval) (s : list pyval) :
  py_in x (set_add k s) = py_in x s || py_eqb x k.
Proof.
  unfold set_add. destruct (py_in k s) eqn:E.
  - destruct (py_eqb x k) eqn:Ex; [ | rewrite orb_false_r; reflexivity].
    rewrite (py_in_congr x k s Ex), E. reflexivity.
  - rewrite py_in_app. simpl. rewrite orb_false_r. reflexivity.
Qed.

Lemma set_update_in (x : pyval) (l s : list pyval) :
  py_in x (set_update s l) = py_in x s || py_in x l.
Proof.
  unfold set_update. revert s. induction l as [ | a l IH]; intros s; simpl.
  - rewrite orb_false_r. reflexivity.
  - rewrite IH, set_add_in. rewrite <- orb_assoc. reflexivity.
Qed.

Lemma set_add_nonempty (k : pyval) (s : list pyval) : set_add k s <> [].
Proof.
  unfold set_add. destruct (py_in k s) eqn:E.
  - destruct s; [discriminate | discriminate].
  - destruct s; discriminate.
Qed.

Lemma set_update_nonempty (l s : list pyval) :
  s <> [] \/ l <> [] -> set_update s l <> [].
Proof.
  unfold set_update. revert s. induction l as [ | a l IH]; intros s H; simpl.
  - destruct H; congruence.
  - apply IH. left. apply set_add_nonempty.
Qed.

Lemma linked_prefix (tm : dict task) (l1 l2 : list pyval) :
  linked tm (l1 ++ l2) -> linked tm l1.
Proof.
  induction l1 as [ | a l1 IH]; simpl; [auto | ].
  intros [Ha H]. split; [ | apply IH; exact H].
  destruct l1; simpl in *; [exact I | exact Ha].
Qed.

Lemma detection_sound (tm : dict task) (p c : list pyval) (k : pyval)
    (i : nat) :
  linked tm (p ++ [k]) -> Forall (has_entry tm) p ->
  list_index k p = Some i -> sound tm c ->
  sound tm (set_update c (skipn i p)) /\ set_update c (skipn i p) <> [].
Proof.
  intros Hl Hp Hi Hc.
  destruct (list_index_split k p i Hi) as (l1 & y & l2 & -> & -> & Hy).
  split; [ | apply set_update_nonempty; right; discriminate].
  assert (Hl' : linked tm ((y :: l2) ++ [k])).
  { apply (linked_suffix tm l1). rewrite <- app_assoc in Hl. exact Hl. }
  assert (Hyk : py_eqb k y = true) by (rewrite py_eqb_sym; exact Hy).
  intros x Hx. rewrite set_update_in in Hx. apply orb_true_iff in Hx.
  destruct Hx as [Hx | Hx]; [apply Hc; exact Hx | ].
  destruct (py_in_witness x _ Hx) as (z & Hz & Hxz).
  assert (Hzx : py_eqb z x = true) by (rewrite py_eqb_sym; exact Hxz).
  assert (Hzk : reach tm z k) by (apply (linked_reach_last tm _ k Hl' z Hz)).
  assert (Hzz : reach tm z z).
  { destruct Hz as [<- | Hz].
    - apply (reach_congr tm y k Hzk); [apply py_eqb_refl | exact Hyk].
    - apply t_trans with (y := y).
      + apply (reach_congr tm z k Hzk); [apply py_eqb_refl | exact Hyk].
      + apply (linked_reach_first tm l2 y); [ | exact Hz].
        apply (linked_prefix tm (y :: l2) [k]). exact Hl'. }
  split.
  - apply (reach_congr tm z z Hzz); exact Hzx.
  - rewrite <- (dict_mem_congr tm z x Hzx).
    rewrite Forall_forall in Hp. apply Hp. apply in_or_app. right. exact Hz.
Qed.

Section Soundness.

Variable tm : dict task.

Lemma dfs_deps_sound (rec : pyval -> dfs_state -> res (bool * dfs_state))
    (k : pyval) :
  (forall d st, sound_pre tm st d -> sound_post tm st (rec d st)) ->
  forall deps st p,
    path st = (p ++ [k])%list ->
    linked tm (p ++ [k]) -> Forall (has_entry tm) (p ++ [k]) ->
    sound tm (circular_tasks st) ->
    (forall d, In d deps -> dict_mem d tm = true -> edge tm k d) ->
    sound_post tm st (dfs_deps rec tm deps st).
Proof.
  intros Hrec. induction deps as [ | d deps IH];
    intros st p Hp Hl Hf Hc He; simpl.
  - auto.
  - assert (He' : forall d', In d' deps -> dict_mem d' tm = true ->
                             edge tm k d').
    { intros d' Hin. apply He. right. exact Hin. }
    destruct (dict_mem d tm) eqn:Ed; [ | apply (IH st p); assumption].
    assert (Hpre : sound_pre tm st d).
    { unfold sound_pre. rewrite Hp. split; [ | split].
      - apply linked_snoc; [exact Hl | ].
        apply He; [left; reflexivity | exact Ed].
      - apply Forall_app. split; [exact Hf | ].
        constructor; [exact Ed | constructor].
      - exact Hc. }
    specialize (Hrec d st Hpre).
    destruct (rec d st) as [[[ | ] st'] | e | ]; simpl in *; auto.
    destruct Hrec as [Hp' Hc'].
    assert (Hpost : sound_post tm st' (dfs_deps rec tm deps st')).
    { apply (IH st' p); try assumption.
      - rewrite Hp'. exact Hp.
      - rewrite Hc'. exact Hc. }
    destruct (dfs_deps rec tm deps st') as [[[ | ] st''] | e | ];
      simpl in *; auto.
    destruct Hpost as [Hp'' Hc'']. split; congruence.
Qed.

Lemma dfs_sound (fuel : nat) :
  forall k st, sound_pre tm st k -> sound_post tm st (dfs tm fuel k st).
Proof.
  induction fuel as [ | fuel IH]; intros k st (Hl & Hf & Hc); [exact I | ].
  rewrite dfs_eq.
  destruct (py_in k (rec_stack st)).
  { destruct (list_index k (path st)) as [i | ] eqn:Ei; [ | exact I].
    simpl. apply (detection_sound tm (path st) _ k i); auto.
    apply Forall_app in Hf. tauto. }
  destruct (py_in k (visited st)); [simpl; auto | ].
  set (st1 := mkState (set_add k (visited st)) (set_add k (rec_stack st))
                (circular_tasks st) (path st ++ [k])).
  assert (Hd : sound_post tm st1
                 (dfs_deps (dfs tm fuel) tm
                    match dict_get tm k with
                    | Some t => get_dependencies t
                    | None => []
                    end st1)).
  { apply (dfs_deps_sound (dfs tm fuel) k IH _ st1 (path st)); auto.
    intros d Hin Hm.
    destruct (dict_get tm k) as [t | ] eqn:Eg; [ | destruct Hin].
    exists t. split; [exact Eg | ].
    split; [apply py_in_In; exact Hin | exact Hm]. }
  destruct (dfs_deps (dfs tm fuel) tm _ st1) as [[[ | ] st2] | e | ];
    simpl in *; auto.
  destruct Hd as [Hp2 Hc2].
  destruct (set_remove k (rec_stack st2)) as [rs | e | ]; simpl; auto.
  rewrite Hp2, removelast_last. auto.
Qed.

(** The outer loop keeps the recorded ids sound, and never empties
    them. *)
Lemma check_each_sound (fuel : nat) (tasks : list task) :
  (forall t k, In t tasks -> id t = Some k -> dict_mem k tm = true) ->
  forall st st',
    sound tm (circular_tasks st) ->
    check_each tm fuel tasks st = Ok st' ->
    sound tm (circular_tasks st')
    /\ (circular_tasks st <> [] -> circular_tasks st' <> []).
Proof.
  induction tasks as [ | t ts IH]; intros Hids st st' Hc H; simpl in H.
  - injection H as <-. auto.
  - assert (Hts : forall t' k, In t' ts -> id t' = Some k ->
                               dict_mem k tm = true).
    { intros t' k Hin. apply Hids. right. exact Hin. }
    destruct (id t) as [k | ] eqn:Ek; cbn [getitem bind] in H;
      [ | discriminate].
    destruct (py_in k (visited st)); [apply (IH Hts st st'); assumption | ].
    set (st0 := mkState (visited st) (rec_stack st) (circular_tasks st) [])
      in *.
    assert (Hpost : sound_post tm st0 (dfs tm fuel k st0)).
    { apply dfs_sound. unfold sound_pre. simpl.
      split; [auto | split; [ | exact Hc]].
      constructor; [ | constructor].
      apply (Hids t k); [left; reflexivity | exact Ek]. }
    destruct (dfs tm fuel k st0) as [[[ | ] st1] | e | ]; cbn [bind snd] in H;
      try discriminate; simpl in Hpost.
    + destruct Hpost as [Hs1 Hn1].
      destruct (IH Hts st1 st' Hs1 H) as [Hs' Hn'].
      split; [exact Hs' | intros _; apply Hn'; exact Hn1].
    + destruct Hpost as [_ Hc1].
      assert (Hs1 : sound tm (circular_tasks st1)) by (rewrite Hc1; exact Hc).
      destruct (IH Hts st1 st' Hs1 H) as [Hs' Hn'].
      split; [exact Hs' | ]. intros Hn. apply Hn'. rewrite Hc1. exact Hn.
Qed.

End Soundness.

Lemma task_map_lookup (tasks : list task) (tm : dict task) (u : pyval) :
  build_task_map tasks [] = Ok tm ->
  dict_get tm u = last_with_id u tasks None.
Proof. intros H. apply (build_task_map_get tasks [] tm u H). Qed.

Lemma edge_task_map (tasks : list task) (tm : dict task) (u v : pyval) :
  build_task_map tasks [] = Ok tm ->
  (edge tm u v <-> task_map_edge tasks u v).
Proof.
  intros H. unfold edge, task_map_edge.
  split; intros (t & Hg & Hin & Hm); exists t.
  - rewrite <- (task_map_lookup tasks tm u H).
    rewrite <- (in_batch_task_map tasks tm v H). auto.
  - rewrite (task_map_lookup tasks tm u H).
    rewrite (in_batch_task_map tasks tm v H). auto.
Qed.

Lemma reach_task_map (tasks : list task) (tm : dict task) (u v : pyval) :
  build_task_map tasks [] = Ok tm ->
  (reach tm u v <-> clos_trans pyval (task_map_edge tasks) u v).
Proof.
  intros H. split; induction 1 as [x y He | x y z _ IH1 _ IH2].
  - apply t_step. apply (edge_task_map tasks tm x y H). exact He.
  - eapply t_trans; eassumption.
  - apply t_step. apply (edge_task_map tasks tm x y H). exact He.
  - eapply t_trans; eassumption.
Qed.

Lemma circular_titles_in (tm : dict task) (ids : list pyval) :
  forall titles,
    circular_titles tm ids = Ok titles ->
    forall ttl, In ttl titles ->
      exists x t, In x ids /\ dict_get tm x = Some t /\ title t = Some ttl.
Proof.
  induction ids as [ | k ks IH]; intros titles H ttl Hin; simpl in H.
  - injection H as <-. destruct Hin.
  - destruct (dict_get tm k) as [t | ] eqn:Eg.
    + destruct (title t) as [a | ] eqn:Et; cbn [getitem bind] in H;
        [ | discriminate].
      destruct (circular_titles tm ks) as [rest | e | ]; cbn [bind] in H;
        try discriminate.
      injection H as <-. destruct Hin as [<- | Hin].
      * exists k, t. simpl. auto.
      * destruct (IH rest eq_refl ttl Hin) as (x & t' & Hx & Hg & Ht).
        exists x, t'. simpl. auto.
    + destruct (IH titles H ttl Hin) as (x & t' & Hx & Hg & Ht).
      exists x, t'. simpl. auto.
Qed.

Lemma task_ids_in_map (tasks : list task) (tm : dict task) :
  build_task_map tasks [] = Ok tm ->
  forall t k, In t tasks -> id t = Some k -> dict_mem k tm = true.
Proof.
  intros E t k Hin Hid. rewrite (in_batch_task_map tasks tm k E).
  apply existsb_exists. exists t. rewrite Hid, py_eqb_refl. auto.
Qed.

(** X15: no false positive: every title the detector returns is the
    title of a task of the batch, the one the task map holds for its
    id, and that id lies on a dependency cycle. *)
Theorem detect_circular_dependencies_sound (tasks : list task)
    (titles : list pyval) (ttl : pyval) :
  detect_circular_dependencies tasks = Ok titles ->
  In ttl titles ->
  exists x t,
    In t tasks /\ last_with_id x tasks None = Some t
    /\ title t = Some ttl /\ on_task_map_cycle tasks x.
Proof.
  unfold detect_circular_dependencies. intros H Hin.
  destruct (build_task_map tasks []) as [tm | e | ] eqn:E;
    cbn [bind] in H; try discriminate.
  destruct (check_each tm (S (List.length tasks)) tasks initial_state)
    as [st | e | ] eqn:Ec; cbn [bind] in H; try discriminate.
  destruct (check_each_sound tm (S (List.length tasks)) tasks
              (task_ids_in_map tasks tm E)
              initial_state st) as [Hs _]; [ | exact Ec | ].
  { intros x Hx. discriminate. }
  destruct (circular_titles_in tm _ titles H ttl Hin) as (x & t & Hx & Hg & Ht).
  exists x, t.
  rewrite (task_map_lookup tasks tm x E) in Hg.
  repeat split; auto.
  - destruct (last_with_id_found x tasks None)
      as [C | (t' & k' & Hin' & _ & _ & Hl)]; congruence.
  - apply (reach_task_map tasks tm x x E).
    apply Hs. apply py_in_In. exact Hx.
Qed.

Lemma detect_circular_dependencies_sound_witness :
  exists titles ttl x t,
    detect_circular_dependencies DetectExamples.triangle = Ok titles
    /\ In ttl titles
    /\ In t DetectExamples.triangle
    /\ last_with_id x DetectExamples.triangle None = Some t
    /\ title t = Some ttl
    /\ on_task_map_cycle DetectExamples.triangle x.
Proof.
  assert (H : exists titles ttl,
             detect_circular_dependencies DetectExamples.triangle
             = Ok titles
             /\ hd_error titles = Some ttl)
    by (do 2 eexists; split; vm_compute; reflexivity).
  destruct H as (titles & ttl & H & Hhd).
  assert (Hin : In ttl titles).
  { destruct titles as [ | a l]; [discriminate | ].
    injection Hhd as ->. left. reflexivity. }
  destruct (detect_circular_dependencies_sound DetectExamples.triangle
              titles ttl H Hin) as (x & t & Hx).
  exists titles, ttl, x, t. split; [exact H | split; [exact Hin | exact Hx]].
Defined.

(** ** Cycle detector: runs that detect nothing *)

Lemma reach_first (tm : dict task) (x z : pyval) :
  reach tm x z -> exists v, edge tm x v /\ (v = z \/ reach tm v z).
Proof.
  intros H. apply clos_trans_t1n in H.
  destruct H as [y He | y z He Hv].
  - exists y. split; [exact He | left; reflexivity].
  - exists y. split; [exact He | right].
    apply clos_t1n_trans. exact Hv.
Qed.

Lemma cycle_step (tm : dict task) (k : pyval) :
  reach tm k k -> exists v, edge tm k v /\ reach tm v v.
Proof.
  intros H. destruct (reach_first tm k k H) as (v & He & [-> | Hv]).
  - exists k. split; [exact He | exact H].
  - exists v. split; [exact He | ].
    eapply t_trans; [exact Hv | apply t_step; exact He].
Qed.

Lemma finished_later (st st' : dfs_state) (x : pyval) :
  finished st x -> visited_le (visited st) (visited st') ->
  rec_stack st' = rec_stack st -> finished st' x.
Proof.
  intros [Hv Hr] Hle Hrs. split; [apply Hle; exact Hv | rewrite Hrs; exact Hr].
Qed.

Section CleanRun.

Variable tm : dict task.

Lemma dfs_deps_clean (rec : pyval -> dfs_state -> res (bool * dfs_state)) :
  (forall d st, clean st -> black tm st -> clean_post tm st d (rec d st)) ->
  forall deps st,
    clean st -> black tm st ->
    clean_loop_post tm st deps (dfs_deps rec tm deps st).
Proof.
  intros Hrec. induction deps as [ | d deps IH]; intros st Hc Hb; simpl.
  - split; [reflexivity | split; [reflexivity | ]].
    split; [intros x H; exact H | split; [exact Hb | intros d []]].
  - destruct (dict_mem d tm) eqn:Ed.
    + specialize (Hrec d st Hc Hb).
      destruct (rec d st) as [[[ | ] st'] | e | ]; simpl in *; auto.
      destruct Hrec as (Hr & Hp & Hle & Hb' & Hfin).
      assert (Hc' : clean st').
      { intros x. rewrite Hr, Hp. apply Hc. }
      specialize (IH st' Hc' Hb').
      destruct (dfs_deps rec tm deps st') as [[[ | ] st''] | e | ];
        simpl in *; auto.
      destruct IH as (Hr2 & Hp2 & Hle2 & Hb2 & Hfin2).
      repeat split; try congruence.
      * intros x Hx. apply Hle2, Hle, Hx.
      * exact Hb2.
      * destruct H as [<- | Hin].
        -- apply (finished_later st' st'' d Hfin Hle2 Hr2).
        -- apply Hfin2; assumption.
      * destruct H as [<- | Hin].
        -- apply (finished_later st' st'' d Hfin Hle2 Hr2).
        -- apply Hfin2; assumption.
    + specialize (IH st Hc Hb).
      destruct (dfs_deps rec tm deps st) as [[[ | ] st''] | e | ];
        simpl in *; auto.
      destruct IH as (Hr2 & Hp2 & Hle2 & Hb2 & Hfin2).
      repeat split; auto.
      * destruct H as [<- | Hin]; [congruence | apply Hfin2; assumption].
      * destruct H as [<- | Hin]; [congruence | apply Hfin2; assumption].
Qed.

Lemma dfs_clean (fuel : nat) :
  forall k st, clean st -> black tm st -> clean_post tm st k (dfs tm fuel k st).
Proof.
  induction fuel as [ | fuel IH]; intros k st Hc Hb; [exact I | ].
  rewrite dfs_eq.
  destruct (py_in k (rec_stack st)) eqn:Er.
  { destruct (list_index k (path st)) as [i | ] eqn:Ei; [exact I | ].
    apply list_index_none in Ei. rewrite <- Hc in Ei. simpl. congruence. }
  destruct (py_in k (visited st)) eqn:Ev.
  { simpl. repeat split; auto. intros x H. exact H. }
  set (st1 := mkState (set_add k (visited st)) (set_add k (rec_stack st))
                (circular_tasks st) (path st ++ [k])).
  assert (Hc1 : clean st1).
  { intros x. simpl. rewrite set_add_in, py_in_app, Hc. simpl.
    rewrite orb_false_r. reflexivity. }
  assert (Hb1 : black tm st1).
  { intros x [Hxv Hxr]. simpl in Hxv, Hxr.
    rewrite set_add_in in Hxv, Hxr.
    apply orb_false_iff in Hxr. destruct Hxr as [Hxr Hxk].
    rewrite Hxk, orb_false_r in Hxv. apply Hb. split; assumption. }
  pose proof (dfs_deps_clean (dfs tm fuel) IH
                match dict_get tm k with
                | Some t => get_dependencies t
                | None => []
                end st1 Hc1 Hb1) as Hd.
  destruct (dfs_deps (dfs tm fuel) tm _ st1) as [[[ | ] st2] | e | ];
    simpl in Hd; cbn [bind fst snd]; auto.
  destruct Hd as (Hr2 & Hp2 & Hle2 & Hb2 & Hfin2).
  rewrite Hr2. simpl rec_stack.
  rewrite (set_remove_added k (rec_stack st) Er). cbn [bind].
  assert (Hle : visited_le (visited st) (visited st2)).
  { intros x Hx. apply Hle2. simpl. apply visited_le_add. exact Hx. }
  assert (Hkv : py_in k (visited st2) = true).
  { apply Hle2. simpl. rewrite set_add_in, py_eqb_refl, orb_true_r.
    reflexivity. }
  assert (Hnk : ~ reach tm k k).
  { intros Hcyc.
    destruct (cycle_step tm k Hcyc) as (v & (t & Hg & Hin & Hm) & Hv).
    rewrite Hg in Hfin2.
    destruct (py_in_witness v _ Hin) as (d & Hd & Hvd).
    assert (Hdm : dict_mem d tm = true).
    { rewrite <- (dict_mem_congr tm v d Hvd). exact Hm. }
    apply (Hb2 d (Hfin2 d Hd Hdm)).
    apply (reach_congr tm v v Hv); exact Hvd. }
  simpl. repeat split; auto.
  - rewrite Hp2. simpl. apply removelast_last.
  - intros x [Hxv Hxr]. simpl in Hxv, Hxr.
    destruct (py_eqb x k) eqn:Exk.
    + intros Hcyc. apply Hnk. apply (reach_congr tm x x Hcyc); exact Exk.
    + apply Hb2. split; [exact Hxv | ].
      rewrite Hr2. simpl. rewrite set_add_in, Hxr, Exk. reflexivity.
Qed.

(** The outer loop from a state in which nothing has been detected. *)
Lemma check_each_clean (fuel : nat) (tasks : list task) :
  (forall t, In t tasks -> exists k, id t = Some k /\ dict_mem k tm = true) ->
  forall st,
    rec_stack st = [] -> circular_tasks st = [] -> black tm st ->
    match check_each tm fuel tasks st with
    | Ok st' =>
        (circular_tasks st' = [] /\ rec_stack st' = [] /\ black tm st'
         /\ visited_le (visited st) (visited st')
         /\ forall t k, In t tasks -> id t = Some k ->
                        py_in k (visited st') = true)
        \/ (circular_tasks st' <> [] /\ sound tm (circular_tasks st'))
    | Raise _ => exists x, reach tm x x
    | NoFuel => True
    end.
Proof.
  induction tasks as [ | t ts IH]; intros Hids st Hr Hcirc Hb; simpl.
  - left. split; [exact Hcirc | split; [exact Hr | split; [exact Hb | ]]].
    split; [intros x H; exact H | intros t k []].
  - assert (Hts : forall t', In t' ts ->
                    exists k, id t' = Some k /\ dict_mem k tm = true).
    { intros t' Hin. apply Hids. right. exact Hin. }
    destruct (Hids t (or_introl eq_refl)) as (k & Ek & Hkm).
    rewrite Ek. cbn [getitem bind].
    destruct (py_in k (visited st)) eqn:Ev.
    + specialize (IH Hts st Hr Hcirc Hb).
      destruct (check_each tm fuel ts st) as [st' | e | ]; auto.
      destruct IH as [(H1 & H2 & H3 & H4 & H5) | H]; [left | right; exact H].
      repeat split; auto.
      intros t' k' [<- | Hin] Hk'.
      * rewrite Ek in Hk'. injection Hk' as <-. apply H4. exact Ev.
      * apply (H5 t'); assumption.
    + set (st0 := mkState (visited st) (rec_stack st) (circular_tasks st) []).
      assert (Hc0 : clean st0) by (intros x; simpl; rewrite Hr; reflexivity).
      assert (Hb0 : black tm st0) by exact Hb.
      assert (Hpre : sound_pre tm st0 k).
      { unfold sound_pre. simpl. split; [auto | split].
        - constructor; [exact Hkm | constructor].
        - rewrite Hcirc. intros x Hx. discriminate. }
      pose proof (dfs_clean fuel k st0 Hc0 Hb0) as Hclean.
      pose proof (dfs_sound tm fuel k st0 Hpre) as Hsound.
      destruct (dfs tm fuel k st0) as [[[ | ] st1] | e | ];
        simpl in Hclean, Hsound; cbn [bind snd]; auto;
        [ | | destruct Hclean].
      * destruct Hsound as [Hs1 Hn1].
        assert (Hcyc : exists x, reach tm x x).
        { destruct (circular_tasks st1) as [ | x c] eqn:Ec; [congruence | ].
          exists x. apply Hs1. simpl. rewrite py_eqb_refl. reflexivity. }
        destruct (check_each tm fuel ts st1) as [st' | e | ] eqn:Ece; auto.
        right.
        destruct (check_each_sound tm fuel ts) with (st := st1) (st' := st')
          as [Hs' Hn']; auto.
        intros t' k' Hin Hk'. destruct (Hts t' Hin) as (k'' & Hk'' & Hm).
        congruence.
      * destruct Hclean as (Hr1 & Hp1 & Hle1 & Hb1 & Hfin1).
        destruct Hsound as [_ Hc1].
        specialize (IH Hts st1).
        simpl in Hr1, Hc1.
        specialize (IH ltac:(congruence) ltac:(congruence) Hb1).
        destruct (check_each tm fuel ts st1) as [st' | e | ]; auto.
        destruct IH as [(H1 & H2 & H3 & H4 & H5) | H]; [left | right; exact H].
        repeat split; auto.
        -- intros x Hx. apply H4, Hle1. exact Hx.
        -- intros t' k' [<- | Hin] Hk'.
           ++ rewrite Ek in Hk'. injection Hk' as <-. apply H4.
              destruct Hfin1 as [Hv _]. exact Hv.
           ++ apply (H5 t'); assumption.
Qed.

End CleanRun.

Lemma build_task_map_ok (tasks : list task) :
  (forall t, In t tasks -> id t <> None) ->
  forall m, exists tm, build_task_map tasks m = Ok tm.
Proof.
  induction tasks as [ | t ts IH]; intros Hids m; simpl.
  - exists m. reflexivity.
  - destruct (id t) as [k | ] eqn:Ek.
    + cbn [getitem bind]. apply IH. intros t' Hin. apply Hids. right. exact Hin.
    + exfalso. apply (Hids t); [left; reflexivity | exact Ek].
Qed.




(** The outer loop started by [detect_circular_dependencies] on a batch
    whose tasks all carry an id. *)
Lemma check_each_initial (tasks : list task) :
  (forall t, In t tasks -> id t <> None) ->
  exists tm,
    build_task_map tasks [] = Ok tm
    /\ match check_each tm (S (List.length tasks)) tasks initial_state with
       | Ok st =>
           (circular_tasks st = [] /\ rec_stack st = [] /\ black tm st
            /\ forall t k, In t tasks -> id t = Some k ->
                           py_in k (visited st) = true)
           \/ (circular_tasks st <> [] /\ sound tm (circular_tasks st))
       | Raise _ => exists x, reach tm x x
       | NoFuel => False
       end.
Proof.
  intros Hids.
  pose proof (detect_circular_dependencies_fuel tasks) as Hfuel.
  unfold detect_circular_dependencies in Hfuel.
  destruct (build_task_map_ok tasks Hids []) as (tm & E).
  rewrite E in Hfuel. cbn [bind] in Hfuel.
  exists tm. split; [exact E | ].
  assert (Hmap : forall t, In t tasks ->
                   exists k, id t = Some k /\ dict_mem k tm = true).
  { intros t Hin. destruct (id t) as [k | ] eqn:Ek.
    - exists k. split; [reflexivity | ].
      apply (task_ids_in_map tasks tm E t k Hin Ek).
    - destruct (Hids t Hin Ek). }
  assert (Hb0 : black tm initial_state).
  { intros x [Hv _]. discriminate. }
  pose proof (check_each_clean tm (S (List.length tasks)) tasks Hmap
                initial_state eq_refl eq_refl Hb0) as Hclean.
  destruct (check_each tm (S (List.length tasks)) tasks initial_state)
    as [st | e | ]; cbn [bind] in Hfuel.
  - destruct Hclean as [(Hc & Hr & Hb & _ & Hall) | H]; [left | right]; auto.
  - exact Hclean.
  - congruence.
Qed.

(** Without a cycle the detector returns the empty list. *)
Lemma detect_circular_dependencies_acyclic (tasks : list task) :
  (forall t, In t tasks -> id t <> None) ->
  (forall x, ~ on_task_map_cycle tasks x) ->
  detect_circular_dependencies tasks = Ok [].
Proof.
  intros Hids Hno.
  destruct (check_each_initial tasks Hids) as (tm & E & Hrun).
  unfold detect_circular_dependencies. rewrite E. cbn [bind].
  destruct (check_each tm (S (List.length tasks)) tasks initial_state)
    as [st | e | ]; cbn [bind].
  - destruct Hrun as [(Hc & _) | [Hne Hs]].
    + rewrite Hc. reflexivity.
    + exfalso.
      destruct (circular_tasks st) as [ | x c] eqn:Ec; [congruence | ].
      apply (Hno x). apply (reach_task_map tasks tm x x E).
      apply Hs. simpl. rewrite py_eqb_refl. reflexivity.
  - exfalso. destruct Hrun as (x & Hx).
    apply (Hno x). apply (reach_task_map tasks tm x x E). exact Hx.
  - destruct Hrun.
Qed.




(** ** Analysis of batches without cycles *)

Section Robustness.

Variable today : Z.
Variable fromisoformat : string -> option Z.
Variable float_of_str : string -> option Q.
Variable pow15 : Q -> Q.



End Robustness.


(** ** Request layer: the batch handed to the engine *)

Lemma py_in_ints (s : string) (l : list pyval) :
  Forall (fun d => exists n, d = VInt n) l -> py_in (VStr s) l = false.
Proof.
  induction 1 as [ | d l [n ->] _ IH]; [reflexivity | ].
  unfold py_in in *. simpl. exact IH.
Qed.

Lemma count_dependents_ints (s : string) (all_tasks : list task) :
  Forall int_dependencies all_tasks ->
  forall n, count_dependents (VStr s) all_tasks n = n.
Proof.
  induction 1 as [ | t ts Ht _ IH]; intros n; simpl; [reflexivity | ].
  rewrite (py_in_ints s _ Ht). apply IH.
Qed.

Lemma string_int_batch_acyclic (tasks : list task) :
  Forall string_id tasks -> Forall int_dependencies tasks ->
  forall x, ~ on_task_map_cycle tasks x.
Proof.
  intros Hs Hi x Hx. unfold on_task_map_cycle in Hx.
  assert (Hfirst : forall a b,
             clos_trans pyval (task_map_edge tasks) a b ->
             exists v, task_map_edge tasks a v).
  { intros a b H. induction H as [a b He | a b c _ IH _ _];
      [exists b; exact He | exact IH]. }
  pose proof (Hfirst x x Hx) as He.
  destruct He as (v & t & Hl & Hin & Hb).
  destruct (last_with_id_found x tasks None)
    as [C | (t' & k & Ht' & _ & _ & Hl')]; [congruence | ].
  rewrite Hl in Hl'. injection Hl' as <-.
  rewrite Forall_forall in Hs, Hi.
  destruct (py_in_witness v _ Hin) as (d & Hd & Hvd).
  pose proof (Hi t Ht') as Hti. unfold int_dependencies in Hti.
  rewrite Forall_forall in Hti. destruct (Hti d Hd) as [n ->].
  unfold in_batch in Hb. apply existsb_exists in Hb.
  destruct Hb as (u & Hu & Hk).
  destruct (Hs u Hu) as [s Hsu]. rewrite Hsu in Hk.
  pose proof (py_eqb_trans _ _ _ Hk Hvd) as C. discriminate.
Qed.

Section SuggestFacts.

Variable isdigit : string -> bool.
Variable int_of_str : string -> option Z.

Lemma convert_deps_ints (deps deps' : list pyval) :
  Forall (fun d => exists s, d = VStr s /\ isdigit s = true) deps ->
  Views.convert_deps isdigit int_of_str deps = Ok deps' ->
  Forall (fun d => exists n, d = VInt n) deps'.
Proof.
  intros H. revert deps'.
  induction H as [ | d l (s & -> & Hs) _ IH]; intros deps' E; simpl in E.
  - injection E as <-. constructor.
  - rewrite Hs in E. destruct (int_of_str s) as [n | ]; cbn [bind] in E;
      [ | discriminate].
    destruct (Views.convert_deps isdigit int_of_str l) as [ds | e | ];
      cbn [bind] in E; try discriminate.
    injection E as <-. constructor; [exists n; reflexivity | ].
    apply IH. reflexivity.
Qed.

Lemma suggest_task_dict_ints (t t' : task) :
  Forall (fun d => exists s, d = VStr s /\ isdigit s = true)
    (get_dependencies t) ->
  Views.suggest_task_dict isdigit int_of_str t = Ok t' ->
  id t' = id t /\ int_dependencies t'.
Proof.
  unfold Views.suggest_task_dict, get_dependencies, int_dependencies.
  intros H E. destruct (dependencies t) as [[ | d l] | ].
  - injection E as <-. split; [reflexivity | constructor].
  - destruct (Views.convert_deps isdigit int_of_str (d :: l))
      as [ds | e | ] eqn:Ec; cbn [bind] in E; try discriminate.
    injection E as <-. split; [reflexivity | ].
    simpl. apply (convert_deps_ints (d :: l) ds H Ec).
  - injection E as <-. split; [reflexivity | constructor].
Qed.

Lemma suggest_task_dicts_ints (tasks dicts : list task) :
  Forall string_id tasks ->
  Forall (fun t => Forall (fun d => exists s, d = VStr s /\ isdigit s = true)
                     (get_dependencies t)) tasks ->
  Views.suggest_task_dicts isdigit int_of_str tasks = Ok dicts ->
  Forall string_id dicts /\ Forall int_dependencies dicts.
Proof.
  intros Hs. revert dicts.
  induction Hs as [ | t ts Ht _ IH]; intros dicts Hd E; simpl in E.
  - injection E as <-. split; constructor.
  - inversion Hd as [ | ? ? Hdt Hdts]; subst.
    destruct (Views.suggest_task_dict isdigit int_of_str t) as [t' | e | ]
      eqn:Et; cbn [bind] in E; try discriminate.
    destruct (Views.suggest_task_dicts isdigit int_of_str ts)
      as [ds | e | ]; cbn [bind] in E; try discriminate.
    injection E as <-.
    destruct (suggest_task_dict_ints t t' Hdt Et) as [Hid Hint].
    destruct (IH ds Hdts eq_refl) as [IH1 IH2].
    split; constructor; auto.
    unfold string_id in *. rewrite Hid. exact Ht.
Qed.

(** X25: when the ids of a batch are strings and its dependencies are
    strings of digits, the conversion of [SuggestTasksView.post] turns every
    dependency into an int that equals no id: the batch it hands to the
    engine has no cycle to report and no task with a dependency
    boost. *)
Theorem suggest_string_ids_lose_dependencies (tasks dicts : list task) :
  Forall string_id tasks ->
  Forall (fun t => Forall (fun d => exists s, d = VStr s /\ isdigit s = true)
                     (get_dependencies t)) tasks ->
  Views.suggest_task_dicts isdigit int_of_str tasks = Ok dicts ->
  detect_circular_dependencies dicts = Ok []
  /\ forall t, In t dicts ->
       exists boost,
         calculate_dependency_boost t dicts = Ok boost /\ (boost == 0)%Q.
Proof.
  intros Hs Hd E.
  destruct (suggest_task_dicts_ints tasks dicts Hs Hd E) as [Hs' Hi'].
  split.
  - apply detect_circular_dependencies_acyclic.
    + intros t Hin. rewrite Forall_forall in Hs'.
      destruct (Hs' t Hin) as [s ->]. discriminate.
    + apply string_int_batch_acyclic; assumption.
  - intros t Hin. rewrite Forall_forall in Hs'.
    destruct (Hs' t Hin) as [s Hid].
    unfold calculate_dependency_boost. rewrite Hid. cbn [getitem bind].
    rewrite (count_dependents_ints s dicts Hi' O).
    eexists. split; reflexivity.
Qed.

End SuggestFacts.

Lemma suggest_string_ids_lose_dependencies_witness :
  (exists titles,
     detect_circular_dependencies Views.string_ids = Ok titles
     /\ Permutation titles [VStr "A"; VStr "B"])
  /\ exists dicts,
       Views.suggest_task_dicts Views.ascii_isdigit Runtime.number_of
         Views.string_ids = Ok dicts
       /\ detect_circular_dependencies dicts = Ok []
       /\ forall t, In t dicts ->
            exists boost,
              calculate_dependency_boost t dicts = Ok boost
              /\ (boost == 0)%Q.
Proof.
  split.
  - eexists. split; [vm_compute; reflexivity | reflexivity].
  - assert (H : exists dicts,
               Views.suggest_task_dicts Views.ascii_isdigit
                 Runtime.number_of Views.string_ids = Ok dicts)
      by (eexists; vm_compute; reflexivity).
    destruct H as (dicts & H). exists dicts. split; [exact H | ].
    apply (suggest_string_ids_lose_dependencies Views.ascii_isdigit
             Runtime.number_of Views.string_ids dicts).
    + repeat constructor; eexists; reflexivity.
    + repeat constructor; eexists; (split; [reflexivity | reflexivity]).
    + exact H.
Defined.

(** ** CORS middleware *)

Lemma store_get_set (k k' : string) (e : string * string)
    (h : list (string * (string * string))) :
  Cors.store_get k' (Cors.store_set k e h)
  = if String.eqb k k' then Some e else Cors.store_get k' h.
Proof.
  induction h as [ | [k0 e0] h IH]; simpl.
  - reflexivity.
  - destruct (String.eqb k0 k) eqn:E0; simpl.
    + apply String.eqb_eq in E0. subst k0.
      destruct (String.eqb k k'); reflexivity.
    + destruct (String.eqb k0 k') eqn:E1.
      * apply String.eqb_eq in E1. subst k0.
        rewrite String.eqb_sym in E0. rewrite E0. reflexivity.
      * exact IH.
Qed.

Lemma header_set_header (resp : Cors.response) (name value name' : string) :
  Cors.header (Cors.set_header resp name value) name'
  = if String.eqb (Cors.lower name) (Cors.lower name') then Some value
    else Cors.header resp name'.
Proof.
  unfold Cors.header, Cors.set_header. simpl. rewrite store_get_set.
  destruct (String.eqb (Cors.lower name) (Cors.lower name')); reflexivity.
Qed.

Lemma add_cors_headers_fixed (self : Cors.middleware) (req : Cors.request)
    (resp : Cors.response) :
  Cors.status_code (Cors._add_cors_headers self req resp)
  = Cors.status_code resp
  /\ Cors.content (Cors._add_cors_headers self req resp) = Cors.content resp.
Proof.
  unfold Cors._add_cors_headers.
  destruct (String.eqb _ ""); split; reflexivity.
Qed.

(** X18: whatever the handler answered and whatever [allowed_origins] holds,
    the response names the caller's origin and allows credentials. *)
Theorem cors_any_origin_allowed (fresh : Cors.response)
    (self : Cors.middleware) (req : Cors.request) (origin : string) :
  Cors.http_origin req = Some origin -> origin <> "" ->
  Cors.header (Cors.__call__ fresh self req) "Access-Control-Allow-Origin"
  = Some origin
  /\ Cors.header (Cors.__call__ fresh self req)
       "Access-Control-Allow-Credentials" = Some "true".
Proof.
  intros Ho Hne. apply String.eqb_neq in Hne.
  unfold Cors.__call__, Cors._create_preflight_response,
    Cors._add_cors_headers.
  rewrite Ho, Hne.
  destruct (String.eqb (Cors.method req) "OPTIONS");
    rewrite !header_set_header; split; reflexivity.
Qed.

Lemma cors_any_origin_allowed_witness :
  ~ In "https://elsewhere.example"
      (Cors.allowed_origins (Cors.init Cors.json_handler))
  /\ Cors.header
       (Cors.__call__ Cors.empty_response (Cors.init Cors.json_handler)
          Cors.foreign_request) "Access-Control-Allow-Origin"
     = Some "https://elsewhere.example"
  /\ Cors.header
       (Cors.__call__ Cors.empty_response (Cors.init Cors.json_handler)
          Cors.foreign_request) "Access-Control-Allow-Credentials"
     = Some "true".
Proof.
  split.
  - simpl. intros H. repeat (destruct H as [H | H]; [discriminate | ]).
    exact H.
  - apply (cors_any_origin_allowed Cors.empty_response
             (Cors.init Cors.json_handler) Cors.foreign_request
             "https://elsewhere.example").
    + reflexivity.
    + discriminate.
Defined.

(** X19: a preflight request never reaches the handler: the response
    to [OPTIONS] is the same for every handler and every list of allowed
    origins, with status 200 and the content of an empty response. *)
Theorem cors_preflight_skips_handler (fresh : Cors.response)
    (self other : Cors.middleware) (req : Cors.request) :
  Cors.method req = "OPTIONS" ->
  Cors.__call__ fresh self req = Cors.__call__ fresh other req
  /\ Cors.status_code (Cors.__call__ fresh self req) = 200%Z
  /\ Cors.content (Cors.__call__ fresh self req) = Cors.content fresh.
Proof.
  intros Hm. unfold Cors.__call__, Cors._create_preflight_response.
  rewrite Hm. simpl String.eqb. cbv iota.
  split; [reflexivity | ].
  destruct (add_cors_headers_fixed self req (Cors.set_status fresh 200))
    as [-> ->].
  split; reflexivity.
Qed.

(** X20: for any other method the handler's answer goes out with its status,
    its content and every header but the five CORS ones. *)
Theorem cors_keeps_handler_response (fresh : Cors.response)
    (self : Cors.middleware) (req : Cors.request) (name : string) :
  Cors.method req <> "OPTIONS" ->
  ~ In (Cors.lower name) (map Cors.lower Cors.cors_names) ->
  Cors.status_code (Cors.__call__ fresh self req)
  = Cors.status_code (Cors.get_response self req)
  /\ Cors.content (Cors.__call__ fresh self req)
     = Cors.content (Cors.get_response self req)
  /\ Cors.header (Cors.__call__ fresh self req) name
     = Cors.header (Cors.get_response self req) name.
Proof.
  intros Hm Hn. apply String.eqb_neq in Hm.
  unfold Cors.__call__. rewrite Hm.
  destruct (add_cors_headers_fixed self req (Cors.get_response self req))
    as [-> ->].
  split; [reflexivity | split; [reflexivity | ]].
  assert (Hneq : forall n, In n Cors.cors_names ->
                   String.eqb (Cors.lower n) (Cors.lower name) = false).
  { intros n Hin. apply String.eqb_neq. intros E. apply Hn.
    rewrite <- E. apply in_map. exact Hin. }
  unfold Cors._add_cors_headers.
  destruct (String.eqb _ "");
    rewrite !header_set_header;
    rewrite !Hneq by (simpl; tauto); reflexivity.
Qed.

Lemma cors_preflight_skips_handler_witness :
  Cors.__call__ Cors.empty_response (Cors.init Cors.json_handler)
    (Cors.mkRequest "OPTIONS" None "/api/tasks/analyze/" "")
  = Cors.__call__ Cors.empty_response (Cors.init (fun _ => Cors.empty_response))
      (Cors.mkRequest "OPTIONS" None "/api/tasks/analyze/" "")
  /\ Cors.status_code
       (Cors.__call__ Cors.empty_response (Cors.init Cors.json_handler)
          (Cors.mkRequest "OPTIONS" None "/api/tasks/analyze/" ""))
     = 200%Z
  /\ Cors.content
       (Cors.__call__ Cors.empty_response (Cors.init Cors.json_handler)
          (Cors.mkRequest "OPTIONS" None "/api/tasks/analyze/" ""))
     = Cors.content Cors.empty_response.
Proof.
  apply (cors_preflight_skips_handler Cors.empty_response
           (Cors.init Cors.json_handler)
           (Cors.init (fun _ => Cors.empty_response))
           (Cors.mkRequest "OPTIONS" None "/api/tasks/analyze/" "")).
  reflexivity.
Defined.

Lemma cors_keeps_handler_response_witness :
  Cors.status_code
    (Cors.__call__ Cors.empty_response (Cors.init Cors.json_handler)
       Cors.foreign_request)
  = Cors.status_code (Cors.json_handler Cors.foreign_request)
  /\ Cors.content
       (Cors.__call__ Cors.empty_response (Cors.init Cors.json_handler)
          Cors.foreign_request)
     = Cors.content (Cors.json_handler Cors.foreign_request)
  /\ Cors.header
       (Cors.__call__ Cors.empty_response (Cors.init Cors.json_handler)
          Cors.foreign_request) "content-type"
     = Cors.header (Cors.json_handler Cors.foreign_request) "content-type".
Proof.
  apply (cors_keeps_handler_response Cors.empty_response
           (Cors.init Cors.json_handler) Cors.foreign_request
           "content-type").
  - discriminate.
  - vm_compute. intros H.
    repeat (destruct H as [H | H]; [discriminate | ]). exact H.
Defined.

(** ** Stored tasks: transitive dependencies *)

Lemma mem_In (x : Z) (s : list Z) : Models.mem x s = true <-> In x s.
Proof.
  unfold Models.mem. rewrite existsb_exists. split.
  - intros (y & Hy & E). apply Z.eqb_eq in E. subst. exact Hy.
  - intros H. exists x. split; [exact H | apply Z.eqb_refl].
Qed.

Lemma add_In (x y : Z) (s : list Z) :
  In y (Models.add x s) <-> y = x \/ In y s.
Proof.
  unfold Models.add. destruct (Models.mem x s) eqn:E.
  - apply mem_In in E. split; [auto | ]. intros [-> | H]; assumption.
  - rewrite in_app_iff. simpl. split; intros H; intuition auto.
Qed.

Lemma mem_false (x : Z) (s : list Z) : Models.mem x s = false <-> ~ In x s.
Proof.
  rewrite <- mem_In. destruct (Models.mem x s); split; intros H;
    congruence || (exfalso; apply H; reflexivity) || reflexivity.
Qed.

Section StoreFacts.

Variable dependencies_all : Z -> list Z.

Local Abbreviation _get_deps := (Models._get_deps dependencies_all).
Local Abbreviation get_deps_loop := (Models.get_deps_loop).
Local Abbreviation depends := (Models.depends dependencies_all).
Local Abbreviation needs := (Models.needs dependencies_all).
Local Abbreviation saturated := (Models.saturated dependencies_all).

Lemma saturated_refl (st : Models.deps_state) : saturated st st.
Proof.
  split; [apply incl_refl | split; [apply incl_refl | ]].
  intros x H C. contradiction.
Qed.

Lemma saturated_trans (st1 st2 st3 : Models.deps_state) :
  saturated st1 st2 -> saturated st2 st3 -> saturated st1 st3.
Proof.
  intros (V1 & D1 & C1) (V2 & D2 & C2).
  split; [eapply incl_tran; eassumption | ].
  split; [eapply incl_tran; eassumption | ].
  intros x Hx Hn y Hy.
  destruct (Models.mem x (Models.visited st2)) eqn:E.
  - apply mem_In in E. destruct (C1 x E Hn y Hy) as [Hd Hv].
    split; [apply D2, Hd | apply V2, Hv].
  - apply mem_false in E. apply (C2 x Hx E y Hy).
Qed.

(** The loop records and visits each dependency it goes through. *)
Lemma get_deps_loop_saturated
    (rec : Z -> Models.deps_state -> option Models.deps_state) :
  (forall t st st', rec t st = Some st' ->
     saturated st st' /\ In t (Models.visited st')) ->
  forall deps st st',
    get_deps_loop rec deps st = Some st' ->
    saturated st st'
    /\ forall d, In d deps ->
         In d (Models.dependencies st') /\ In d (Models.visited st').
Proof.
  intros Hrec. induction deps as [ | d deps IH]; intros st st' H; simpl in H.
  - injection H as <-. split; [apply saturated_refl | intros d []].
  - destruct (rec d _) as [st1 | ] eqn:E; [ | discriminate].
    destruct (Hrec _ _ _ E) as [S1 Hd].
    destruct (IH _ _ H) as [S2 Hall].
    assert (S0 : saturated st
                   (Models.mkDeps (Models.visited st)
                      (Models.add d (Models.dependencies st)))).
    { split; [apply incl_refl | split].
      - intros y Hy. apply add_In. right. exact Hy.
      - intros x Hx C. contradiction. }
    split.
    + apply (saturated_trans _ _ _ S0). apply (saturated_trans _ _ _ S1 S2).
    + intros d' [<- | Hin]; [ | apply Hall; exact Hin].
      destruct S1 as (_ & D1 & _). destruct S2 as (V2 & D2 & _).
      split; [ | apply V2, Hd].
      apply D2, D1. simpl. apply add_In. left. reflexivity.
Qed.

Lemma get_deps_saturated (depth : nat) :
  forall t st st',
    _get_deps depth t st = Some st' ->
    saturated st st' /\ In t (Models.visited st').
Proof.
  induction depth as [ | depth IH]; intros t st st' H; simpl in H;
    [discriminate | ].
  destruct (Models.mem t (Models.visited st)) eqn:Ev.
  - injection H as <-. split; [apply saturated_refl | ].
    apply mem_In. exact Ev.
  - apply mem_false in Ev.
    destruct (get_deps_loop_saturated (_get_deps depth) IH _ _ _ H)
      as [(V & D & C) Hall].
    simpl in V, D, C.
    assert (Ht : In t (Models.visited st')).
    { apply V. apply add_In. left. reflexivity. }
    split; [ | exact Ht].
    split; [ | split; [exact D | ]].
    + intros y Hy. apply V. apply add_In. right. exact Hy.
    + intros x Hx Hn y Hy.
      destruct (Z.eq_dec x t) as [-> | Hne].
      * apply Hall. exact Hy.
      * apply (C x Hx); [ | exact Hy].
        intros Hc. apply add_In in Hc. destruct Hc as [-> | Hc]; contradiction.
Qed.

(** Only tasks the root needs are recorded. *)
Lemma get_deps_loop_needed (root : Z)
    (rec : Z -> Models.deps_state -> option Models.deps_state) :
  (forall t st st', rec t st = Some st' ->
     needs root t ->
     (forall y, In y (Models.dependencies st) -> needs root y) ->
     forall y, In y (Models.dependencies st') -> needs root y) ->
  forall deps st st',
    get_deps_loop rec deps st = Some st' ->
    (forall d, In d deps -> needs root d) ->
    (forall y, In y (Models.dependencies st) -> needs root y) ->
    forall y, In y (Models.dependencies st') -> needs root y.
Proof.
  intros Hrec. induction deps as [ | d deps IH]; intros st st' H Hd Hst;
    simpl in H.
  - injection H as <-. exact Hst.
  - destruct (rec d _) as [st1 | ] eqn:E; [ | discriminate].
    apply (IH _ _ H).
    + intros d' Hin. apply Hd. right. exact Hin.
    + apply (Hrec _ _ _ E).
      * apply Hd. left. reflexivity.
      * simpl. intros y Hy. apply add_In in Hy.
        destruct Hy as [-> | Hy]; [apply Hd; left; reflexivity | auto].
Qed.

Lemma get_deps_needed (root : Z) (depth : nat) :
  forall t st st',
    _get_deps depth t st = Some st' ->
    t = root \/ needs root t ->
    (forall y, In y (Models.dependencies st) -> needs root y) ->
    forall y, In y (Models.dependencies st') -> needs root y.
Proof.
  induction depth as [ | depth IH]; intros t st st' H Ht Hst; simpl in H;
    [discriminate | ].
  destruct (Models.mem t (Models.visited st)).
  - injection H as <-. exact Hst.
  - assert (Hrec : forall t' s s', _get_deps depth t' s = Some s' ->
               needs root t' ->
               (forall y, In y (Models.dependencies s) -> needs root y) ->
               forall y, In y (Models.dependencies s') -> needs root y).
    { intros t' s s' E Hn. apply (IH t' s s' E). right. exact Hn. }
    apply (get_deps_loop_needed root (_get_deps depth) Hrec _ _ _ H).
    + intros d Hd. destruct Ht as [-> | Ht].
      * apply t_step. exact Hd.
      * eapply t_trans; [exact Ht | apply t_step; exact Hd].
    + exact Hst.
Qed.

Lemma needs_saturated (st' : Models.deps_state) (x y : Z) :
  saturated (Models.mkDeps [] []) st' ->
  needs x y -> In x (Models.visited st') ->
  In y (Models.dependencies st') /\ In y (Models.visited st').
Proof.
  intros (_ & _ & C) H. induction H as [x y He | x y z _ IH1 _ IH2];
    intros Hx.
  - apply (C x Hx); [intros [] | exact He].
  - apply IH2. apply IH1. exact Hx.
Qed.

(** X21: when no call overflows, the result is the set of the tasks [self]
    needs, no more and no less. *)
Theorem get_all_dependencies_exact (limit : nat) (self : Z)
    (all_deps : list Z) :
  Models.get_all_dependencies dependencies_all limit self = Some all_deps ->
  forall y, In y all_deps <-> needs self y.
Proof.
  unfold Models.get_all_dependencies. intros H y.
  destruct (_get_deps limit self (Models.mkDeps [] [])) as [st | ] eqn:E;
    [ | discriminate].
  injection H as <-. split.
  - apply (get_deps_needed self limit self _ _ E); [left; reflexivity | ].
    intros z [].
  - intros Hn. destruct (get_deps_saturated limit self _ _ E) as [S Hs].
    apply (needs_saturated st self y S Hn Hs).
Qed.

(** X22: a task on a cycle is never reported as free of one. *)
Theorem has_circular_dependency_no_miss (limit : nat) (self : Z) :
  needs self self ->
  Models.has_circular_dependency dependencies_all limit self = true.
Proof.
  intros Hn. unfold Models.has_circular_dependency.
  destruct (Models.get_all_dependencies dependencies_all limit self)
    as [all_deps | ] eqn:E; [ | reflexivity].
  apply mem_In.
  destruct (_get_deps limit self (Models.mkDeps [] [])) as [st | ] eqn:E1;
    unfold Models.get_all_dependencies in E; rewrite E1 in E;
    [ | discriminate].
  injection E as <-.
  destruct (get_deps_saturated limit self _ _ E1) as [S Hs].
  apply (needs_saturated st self self S Hn Hs).
Qed.

Lemma unvisited_le (universe v v' : list Z) :
  incl v v' ->
  (Models.unvisited universe v' <= Models.unvisited universe v)%nat.
Proof.
  intros H. unfold Models.unvisited. apply filter_length_mono.
  intros x Hx. apply negb_true_iff in Hx. apply negb_true_iff.
  apply mem_false. apply mem_false in Hx. intros C. apply Hx, H, C.
Qed.

Lemma unvisited_lt (universe v : list Z) (t : Z) :
  In t universe -> ~ In t v ->
  (Models.unvisited universe (Models.add t v)
   < Models.unvisited universe v)%nat.
Proof.
  intros Hu Hv. unfold Models.unvisited.
  apply filter_length_lt with (y := t).
  - intros x Hx. apply negb_true_iff in Hx. apply negb_true_iff.
    apply mem_false. apply mem_false in Hx. intros C. apply Hx.
    apply add_In. right. exact C.
  - exact Hu.
  - apply negb_true_iff. apply mem_false. exact Hv.
  - apply negb_false_iff. apply mem_In. apply add_In. left. reflexivity.
Qed.

Section Depth.

Variable universe : list Z.
Hypothesis universe_closed : Models.closed dependencies_all universe.

Lemma get_deps_loop_returns (depth : nat)
    (rec : Z -> Models.deps_state -> option Models.deps_state) :
  (forall t st, In t universe ->
     (Models.unvisited universe (Models.visited st) < depth)%nat ->
     exists st', rec t st = Some st'
                 /\ incl (Models.visited st) (Models.visited st')) ->
  forall deps st,
    (forall d, In d deps -> In d universe) ->
    (Models.unvisited universe (Models.visited st) < depth)%nat ->
    exists st', get_deps_loop rec deps st = Some st'
                /\ incl (Models.visited st) (Models.visited st').
Proof.
  intros Hrec. induction deps as [ | d deps IH]; intros st Hd Hst; simpl.
  - exists st. split; [reflexivity | apply incl_refl].
  - destruct (Hrec d (Models.mkDeps (Models.visited st)
                        (Models.add d (Models.dependencies st))))
      as (st1 & -> & V1); [apply Hd; left; reflexivity | exact Hst | ].
    simpl in V1.
    destruct (IH st1) as (st' & -> & V2).
    + intros d' Hin. apply Hd. right. exact Hin.
    + pose proof (unvisited_le universe _ _ V1). lia.
    + exists st'. split; [reflexivity | eapply incl_tran; eassumption].
Qed.

Lemma get_deps_returns (depth : nat) :
  forall t st, In t universe ->
    (Models.unvisited universe (Models.visited st) < depth)%nat ->
    exists st', _get_deps depth t st = Some st'
                /\ incl (Models.visited st) (Models.visited st').
Proof.
  induction depth as [ | depth IH]; intros t st Ht Hst; [lia | ].
  simpl. destruct (Models.mem t (Models.visited st)) eqn:Ev.
  - exists st. split; [reflexivity | apply incl_refl].
  - apply mem_false in Ev.
    pose proof (unvisited_lt universe _ t Ht Ev) as Hlt.
    destruct (get_deps_loop_returns depth (_get_deps depth) IH
                (dependencies_all t)
                (Models.mkDeps (Models.add t (Models.visited st))
                   (Models.dependencies st)))
      as (st' & -> & V).
    + intros d Hd. apply (universe_closed t d Ht Hd).
    + simpl. lia.
    + exists st'. split; [reflexivity | ].
      intros y Hy. apply V. simpl. apply add_In. right. exact Hy.
Qed.

(** X23: with room for one call per stored task and one more, the check
    answers [True] exactly for the tasks that need themselves. *)
Theorem has_circular_dependency_exact (limit : nat) (self : Z) :
  In self universe -> (List.length universe < limit)%nat ->
  (Models.has_circular_dependency dependencies_all limit self = true
   <-> needs self self).
Proof.
  intros Hs Hl. unfold Models.has_circular_dependency.
  destruct (get_deps_returns limit self (Models.mkDeps [] []) Hs)
    as (st & E & _).
  { unfold Models.unvisited.
    apply Nat.le_lt_trans with (m := List.length universe);
      [apply filter_length_le | exact Hl]. }
  unfold Models.get_all_dependencies. rewrite E. rewrite mem_In. split.
  - apply (get_deps_needed self limit self _ _ E); [left; reflexivity | ].
    intros z [].
  - intros Hn. destruct (get_deps_saturated limit self _ _ E) as [S Hin].
    apply (needs_saturated st self self S Hn Hin).
Qed.

End Depth.

End StoreFacts.

Lemma get_all_dependencies_exact_witness :
  exists all_deps,
    Models.get_all_dependencies Models.pair 10 3 = Some all_deps
    /\ forall y, In y all_deps <-> Models.needs Models.pair 3 y.
Proof.
  exists [1%Z; 2%Z]. split; [reflexivity | ].
  apply (get_all_dependencies_exact Models.pair 10 3 [1%Z; 2%Z]).
  reflexivity.
Defined.

Lemma has_circular_dependency_no_miss_witness :
  Models.has_circular_dependency Models.pair 5 1 = true.
Proof.
  apply (has_circular_dependency_no_miss Models.pair 5 1).
  apply t_trans with (y := 2%Z); apply t_step; left; reflexivity.
Defined.

Lemma has_circular_dependency_exact_witness :
  Models.has_circular_dependency Models.pair 4 3 = true
  <-> Models.needs Models.pair 3 3.
Proof.
  apply (has_circular_dependency_exact Models.pair [1%Z; 2%Z; 3%Z]).
  - intros x y Hx Hy. unfold Models.depends in Hy. simpl in Hx.
    destruct Hx as [<- | [<- | [<- | []]]]; simpl in Hy;
      destruct Hy as [<- | []]; simpl; auto.
  - simpl. auto.
  - simpl. lia.
Defined.

Lemma chain_needs_lower (x y : Z) : Models.needs Models.chain x y -> (y < x)%Z.
Proof.
  induction 1 as [x y He | x y z _ IH1 _ IH2]; [ | lia].
  unfold Models.depends, Models.chain in He.
  destruct (0 <? x)%Z; simpl in He; [ | destruct He].
  destruct He as [<- | []]. lia.
Qed.

Lemma chain_overflows (depth : nat) :
  forall x st,
    (Z.of_nat depth <= x)%Z ->
    (forall y, (y <= x)%Z -> ~ In y (Models.visited st)) ->
    Models._get_deps Models.chain depth x st = None.
Proof.
  induction depth as [ | depth IH]; intros x st Hx Hv; [reflexivity | ].
  cbn [Models._get_deps].
  assert (E : Models.mem x (Models.visited st) = false).
  { apply mem_false. apply Hv. lia. }
  rewrite E.
  change (Models.chain x) with (if (0 <? x)%Z then [(x - 1)%Z] else []).
  assert (E0 : (0 <? x)%Z = true) by (apply Z.ltb_lt; lia).
  rewrite E0. cbn [Models.get_deps_loop].
  rewrite IH; [reflexivity | lia | ].
  cbn [Models.visited]. intros y Hy C. apply add_In in C.
  destruct C as [-> | C]; [lia | ]. apply (Hv y); [lia | exact C].
Qed.

(** X24: a chain of tasks with no cycle, as long as the interpreter allows
    calls to nest, is reported as circular. *)
Theorem has_circular_dependency_deep_chain (limit : nat) :
  Models.has_circular_dependency Models.chain limit (Z.of_nat limit) = true
  /\ forall x, ~ Models.needs Models.chain x x.
Proof.
  split.
  - unfold Models.has_circular_dependency, Models.get_all_dependencies.
    rewrite chain_overflows; [reflexivity | lia | intros y _ []].
  - intros x H. apply chain_needs_lower in H. lia.
Qed.
